(** * LifeThing wallpaper: the simulation core of [src/App.tsx]

    A shallow embedding of the generation / recovery / render pipeline of
    the wallpaper (Conway's Game of Life with colour inheritance), and the
    properties its specification states about it.

    Conventions of the embedding.

    - A JavaScript [number] that only ever holds an integer (grid
      coordinates, colour channels, ages, counters) is a [Z].  A number that
      may hold a fraction (opacities, probabilities, timestamps, the fade
      progress, the saturation factor) is a canonical rational [Qc], with
      exact arithmetic.  [x / 0] is [0] in [Qc] where JavaScript produces
      [NaN] or an infinity: a theorem whose result depends on a quotient
      states that the denominator is not zero.
    - Arrays are lists, read with [!!] and written with [<[ i := v ]>].
    - A computation that can throw (reading a property of [undefined],
      [Array(n)] with a non-finite [n]) returns an [option]; [None] also
      stands for a write past the end of an array, which JavaScript would
      answer by growing the array and which the loops below never do.
    - [Math.random] reads a stream of draws [Rng]; every function that
      draws takes the stream and returns the rest of it.
    - React state ([useState]) is read from the snapshot the callback
      closed over and written for the next render; refs ([useRef]) are
      plain mutable fields. *)

From Stdlib Require Import ZArith QArith Qcanon Qround String Ascii Lia.
From stdpp Require Import base numbers option list strings.

Local Open Scope Z_scope.

(** ** JavaScript primitives *)

Module JS.

(** [Math.round]: the nearest integer, ties towards plus infinity. *)
Definition round (q : Qc) : Z := Qfloor (q + Q2Qc (1 # 2))%Qc.

(** [Math.floor]. *)
Definition floor (q : Qc) : Z := Qfloor q.

(** [Math.min] and [Math.max] on finite numbers. *)
Definition min (a b : Qc) : Qc := if decide (a ≤ b)%Qc then a else b.
Definition max (a b : Qc) : Qc := if decide (a ≤ b)%Qc then b else a.

(** [a % b] on integers: the remainder has the sign of [a]; [NaN]
    (here [None]) when [b] is [0]. *)
Definition rem (a b : Z) : option Z :=
  if decide (b = 0) then None else Some (Z.rem a b).

(** [arr[i]] for a number [i]: [undefined] outside [0 .. length-1] and
    at [NaN]. *)
Definition get {A} (arr : list A) (i : option Z) : option A :=
  match i with
  | Some i => if decide (0 ≤ i) then arr !! Z.to_nat i else None
  | None => None
  end.

(** Truthiness of a possibly [undefined] boolean. *)
Definition truthy (o : option bool) : bool := default false o.

(** [v || d] for a possibly [undefined] integer [v]: [0] is falsy. *)
Definition or_else (o : option Z) (d : Z) : Z :=
  match o with
  | Some v => if decide (v = 0) then d else v
  | None => d
  end.

(** [arr.reduce((acc, x, index) => f acc x index, init)]. *)
Fixpoint reduce_from {A B} (f : B → A → nat → B) (index : nat)
    (arr : list A) (acc : B) : B :=
  match arr with
  | [] => acc
  | x :: rest => reduce_from f (S index) rest (f acc x index)
  end.
Definition reduce {A B} (f : B → A → nat → B) (arr : list A) (init : B) : B :=
  reduce_from f 0 arr init.

(** [for (const a of l) s = body(a, s)], stopping at the first throw. *)
Fixpoint for_each {A S} (l : list A) (body : A → S → option S) (s : S)
    : option S :=
  match l with
  | [] => Some s
  | a :: rest =>
      match body a s with
      | Some s' => for_each rest body s'
      | None => None
      end
  end.

(** [arr[x][y] = v] on an array of rows, for numbers [x] and [y]. *)
Definition set2 {A} (arr : list (list A)) (x y : Z) (v : A)
    : option (list (list A)) :=
  if decide (0 ≤ x ∧ 0 ≤ y) then
    match arr !! Z.to_nat x with
    | Some row =>
        if decide (Z.to_nat y < length row)%nat
        then Some (<[ Z.to_nat x := <[ Z.to_nat y := v ]> row ]> arr)
        else None
    | None => None
    end
  else None.

End JS.

(** ** The random source *)

Definition Rng : Type := nat → Qc.

(** Every draw of [Math.random] lies in [[0, 1)]. *)
Definition rng_ok (rng : Rng) : Prop := ∀ n, (0 ≤ rng n ∧ rng n < 1)%Qc.

Definition Math_random (rng : Rng) : Qc * Rng := (rng 0%nat, λ n, rng (S n)).

(** [Array(n).fill(null).map(() => gen())]: [n] elements, drawn in order. *)
Fixpoint generate {A} (n : nat) (gen : Rng → A * Rng) (rng : Rng)
    : list A * Rng :=
  match n with
  | O => ([], rng)
  | S n' =>
      let '(a, rng1) := gen rng in
      let '(rest, rng2) := generate n' gen rng1 in
      (a :: rest, rng2)
  end.

(** ** Types (lines 4-41) *)

Record GameSettings := {
  background_color : string;
  foreground_color : string;
  cell_size : Qc;
  simulation_speed : Qc;
  try_revive_stuck_sim : bool;
  hard_reset_on_stuck : bool;
  max_revival_attempts : Z;
  grid_population_percentage : Qc;
  fade_amount : Qc;
  stable_display_time : Qc;
  edge_wrapping : bool;
  cell_padding : Qc;
  bottom_margin : Qc;
  cell_corner_radius : Qc;
  neighbor_opacity_enabled : bool;
  neighbor_opacity_increment : Qc;
  color_mode : bool;
  random_color_chance : Qc;
  max_saturation_age : Qc;
  saturation_factor : Qc;
  random_color_pure : bool
}.

Record CellColor := { r : Z; g : Z; b : Z }.

Record ColoredCell := {
  alive : bool;
  color : option CellColor;
  age : option Z
}.

Abbreviation GridState := (list (list bool)).
Abbreviation ColoredGridState := (list (list ColoredCell)).

(** ** Fibonacci escalation (lines 179-187) *)

Definition fibonacci (n : Z) : Z :=
  if decide (n ≤ 0) then 1
  else if decide (n = 1) then 1
  else
    snd (Nat.iter (Z.to_nat (n - 1)) (λ '(a, b), (b, a + b)) (1, 1)).

(** ** Colour genetics (lines 189-264) *)

Definition generateRandomColor (rng : Rng) : CellColor * Rng :=
  let '(d1, rng1) := Math_random rng in
  let '(d2, rng2) := Math_random rng1 in
  let '(d3, rng3) := Math_random rng2 in
  ({| r := JS.floor (d1 * Qc_of_Z 256);
      g := JS.floor (d2 * Qc_of_Z 256);
      b := JS.floor (d3 * Qc_of_Z 256) |}, rng3).

Definition generateTweakedColor (baseColor : CellColor) (rng : Rng)
    : CellColor * Rng :=
  let '(d1, rng1) := Math_random rng in
  let randomChannel := JS.floor (d1 * Qc_of_Z 3) in
  let '(d2, rng2) := Math_random rng1 in
  let extremeValue := if decide (d2 < Q2Qc (1 # 2))%Qc then 0 else 255 in
  ((if decide (randomChannel = 0) then
      {| r := extremeValue; g := g baseColor; b := b baseColor |}
    else if decide (randomChannel = 1) then
      {| r := r baseColor; g := extremeValue; b := b baseColor |}
    else if decide (randomChannel = 2) then
      {| r := r baseColor; g := g baseColor; b := extremeValue |}
    else baseColor), rng2).

Definition white : CellColor := {| r := 255; g := 255; b := 255 |}.
Definition black : CellColor := {| r := 0; g := 0; b := 0 |}.

Definition averageColors (colors : list CellColor) : CellColor :=
  if decide (length colors = 0%nat) then white
  else
    let sum :=
      JS.reduce (λ acc color _,
        {| r := r acc + r color; g := g acc + g color; b := b acc + b color |})
        colors black in
    let len := Qc_of_Z (Z.of_nat (length colors)) in
    {| r := JS.round (Qc_of_Z (r sum) / len);
       g := JS.round (Qc_of_Z (g sum) / len);
       b := JS.round (Qc_of_Z (b sum) / len) |}.

(** The scale factor of [enhanceColorSaturation] (its local
    [saturationFactor], lines 225-227). *)
Definition saturationScale (settings : GameSettings) (age : Z) : Qc :=
  let maxAge := max_saturation_age settings in
  let ageBoost := (JS.min (Qc_of_Z age) maxAge / maxAge)%Qc in
  (1 + ageBoost * saturation_factor settings)%Qc.

Definition enhanceChannel (center saturationFactor : Qc) (channel : Z) : Z :=
  let distance := (Qc_of_Z channel - center)%Qc in
  let enhanced := (center + distance * saturationFactor)%Qc in
  JS.round (JS.max 0 (JS.min (Qc_of_Z 255) enhanced)).

Definition enhanceColorSaturation (settings : GameSettings)
    (color : CellColor) (age : Z) : CellColor :=
  let saturationFactor := saturationScale settings age in
  let center := (Qc_of_Z (r color + g color + b color) / Qc_of_Z 3)%Qc in
  {| r := enhanceChannel center saturationFactor (r color);
     g := enhanceChannel center saturationFactor (g color);
     b := enhanceChannel center saturationFactor (b color) |}.

Definition averageColorsWeighted (colors : list CellColor) (ages : list Z)
    : CellColor :=
  if decide (length colors = 0%nat) then white
  else if decide (length colors ≠ length ages) then averageColors colors
  else
    let '(weightedSum, totalWeight) :=
      JS.reduce (λ '(acc, totalWeight) color index,
        let weight := JS.or_else (ages !! index) 1 in
        ({| r := r acc + r color * weight;
            g := g acc + g color * weight;
            b := b acc + b color * weight |}, totalWeight + weight))
        colors (black, 0) in
    let total := Qc_of_Z totalWeight in
    {| r := JS.round (Qc_of_Z (r weightedSum) / total);
       g := JS.round (Qc_of_Z (g weightedSum) / total);
       b := JS.round (Qc_of_Z (b weightedSum) / total) |}.

(** ** Grid creation (lines 266-290) *)

Record Window := {
  innerWidth : Qc;
  innerHeight : Qc;
  wallpaperPaused : bool
}.

Record Dimensions := { width : Z; height : Z }.

(** [Math.max(1, Math.floor(extent / pitch))].  With a zero [pitch] the
    quotient is [NaN] or infinite and [Array(n)] in the grid constructors
    throws a [RangeError]: that case is [None]. *)
Definition cellsAlong (extent pitch : Qc) : option Z :=
  if decide (pitch = 0%Qc) then None
  else Some (Z.max 1 (JS.floor (extent / pitch))).

Definition calculateGridDimensions (settings : GameSettings) (window : Window)
    : option Dimensions :=
  let availableHeight := (innerHeight window - bottom_margin settings)%Qc in
  let pitch := (cell_size settings + cell_padding settings)%Qc in
  width ← cellsAlong (innerWidth window) pitch;
  height ← cellsAlong availableHeight pitch;
  Some {| width := width; height := height |}.

Definition createRandomGrid (settings : GameSettings) (width height : Z)
    (rng : Rng) : GridState * Rng :=
  generate (Z.to_nat height)
    (generate (Z.to_nat width) (λ rng,
       let '(d, rng1) := Math_random rng in
       (bool_decide (d < grid_population_percentage settings)%Qc, rng1)))
    rng.

Definition createRandomColoredGrid (settings : GameSettings)
    (width height : Z) (rng : Rng) : ColoredGridState * Rng :=
  generate (Z.to_nat height)
    (generate (Z.to_nat width) (λ rng,
       let '(d, rng1) := Math_random rng in
       if decide (d < grid_population_percentage settings)%Qc then
         let '(c, rng2) := generateRandomColor rng1 in
         ({| alive := true; color := Some c; age := Some 1 |}, rng2)
       else
         ({| alive := false; color := None; age := None |}, rng1)))
    rng.

(** ** Neighbour enumeration (lines 292-347) *)

(** The two [for] loops over the offsets [-1, 0, 1]. *)
Definition offsets : list Z := [-1; 0; 1].

(** The coordinates to inspect for the offset [(i, j)], or [None] when
    the loop body [continue]s (clipped topology, outside the grid). *)
Definition neighborAt (settings : GameSettings) (height width x y i j : Z)
    : option (option Z * option Z) :=
  let newX := x + i in
  let newY := y + j in
  if edge_wrapping settings then
    Some (JS.rem (newX + height) height, JS.rem (newY + width) width)
  else if decide (newX < 0 ∨ newX >= height ∨ newY < 0 ∨ newY >= width)
  then None
  else Some (Some newX, Some newY).

Definition countNeighbors (settings : GameSettings) (grid : GridState)
    (x y : Z) : option Z :=
  row0 ← grid !! 0%nat;
  let height := Z.of_nat (length grid) in
  let width := Z.of_nat (length row0) in
  JS.for_each offsets (λ i count,
    JS.for_each offsets (λ j count,
      if decide (i = 0 ∧ j = 0) then Some count
      else
        match neighborAt settings height width x y i j with
        | None => Some count
        | Some (newX, newY) =>
            row ← JS.get grid newX;
            Some (if JS.truthy (JS.get row newY) then count + 1 else count)
        end) count) 0.

Record Neighbors := {
  count : Z;
  colors : list CellColor;
  ages : list Z
}.

Definition countNeighborsColored (settings : GameSettings)
    (grid : ColoredGridState) (x y : Z) : option Neighbors :=
  row0 ← grid !! 0%nat;
  let height := Z.of_nat (length grid) in
  let width := Z.of_nat (length row0) in
  JS.for_each offsets (λ i acc,
    JS.for_each offsets (λ j acc,
      if decide (i = 0 ∧ j = 0) then Some acc
      else
        match neighborAt settings height width x y i j with
        | None => Some acc
        | Some (newX, newY) =>
            row ← JS.get grid newX;
            cell ← JS.get row newY;
            match alive cell, color cell with
            | true, Some c =>
                Some {| count := count acc + 1;
                        colors := colors acc ++ [c];
                        ages := ages acc ++ [JS.or_else (age cell) 1] |}
            | _, _ => Some acc
            end
        end) acc) {| count := 0; colors := []; ages := [] |}.

(** ** One generation (lines 349-413) *)

Definition nextGeneration (settings : GameSettings) (currentGrid : GridState)
    : option GridState :=
  row0 ← currentGrid !! 0%nat;
  let height := length currentGrid in
  let width := length row0 in
  let newGrid : GridState := replicate height (replicate width false) in
  JS.for_each (seq 0 height) (λ x newGrid,
    JS.for_each (seq 0 width) (λ y newGrid,
      neighbors ← countNeighbors settings currentGrid (Z.of_nat x) (Z.of_nat y);
      row ← currentGrid !! x;
      let isAlive := JS.truthy (row !! y) in
      if isAlive && (bool_decide (neighbors = 2) || bool_decide (neighbors = 3))
      then JS.set2 newGrid (Z.of_nat x) (Z.of_nat y) true
      else if negb isAlive && bool_decide (neighbors = 3)
      then JS.set2 newGrid (Z.of_nat x) (Z.of_nat y) true
      else Some newGrid) newGrid) newGrid.

(** The colour of a newborn cell (lines 391-401). *)
Definition newbornColor (settings : GameSettings) (colors : list CellColor)
    (ages : list Z) (rng : Rng) : CellColor * Rng :=
  let '(d, rng1) := Math_random rng in
  let useRandomColor := bool_decide (d < random_color_chance settings)%Qc in
  if negb useRandomColor then (averageColorsWeighted colors ages, rng1)
  else if random_color_pure settings then generateRandomColor rng1
  else
    let inheritedColor := averageColorsWeighted colors ages in
    generateTweakedColor inheritedColor rng1.

Definition deadCell : ColoredCell :=
  {| alive := false; color := None; age := None |}.

Definition nextGenerationColored (settings : GameSettings)
    (currentGrid : ColoredGridState) (rng : Rng)
    : option (ColoredGridState * Rng) :=
  row0 ← currentGrid !! 0%nat;
  let height := length currentGrid in
  let width := length row0 in
  let newGrid : ColoredGridState :=
    replicate height (replicate width deadCell) in
  JS.for_each (seq 0 height) (λ x st,
    JS.for_each (seq 0 width) (λ y '(newGrid, rng),
      n ← countNeighborsColored settings currentGrid (Z.of_nat x) (Z.of_nat y);
      row ← currentGrid !! x;
      cell ← row !! y;
      let isAlive := alive cell in
      let currentAge := JS.or_else (age cell) 1 in
      if isAlive && (bool_decide (count n = 2) || bool_decide (count n = 3))
      then
        let currentColor := color cell in
        newGrid' ← JS.set2 newGrid (Z.of_nat x) (Z.of_nat y)
          {| alive := true;
             color :=
               (λ c, enhanceColorSaturation settings c currentAge)
                 <$> currentColor;
             age := Some (currentAge + 1) |};
        Some (newGrid', rng)
      else if negb isAlive && bool_decide (count n = 3)
      then
        let '(cellColor, rng1) :=
          newbornColor settings (colors n) (ages n) rng in
        newGrid' ← JS.set2 newGrid (Z.of_nat x) (Z.of_nat y)
          {| alive := true; color := Some cellColor; age := Some 1 |};
        Some (newGrid', rng1)
      else Some (newGrid, rng)) st) (newGrid, rng).

(** ** Stuck detection (lines 415-441) *)

Definition gridToString (grid : GridState) : string :=
  String.concat ""
    (map (λ row,
       String.concat "" (map (λ cell : bool, if cell then "1" else "0") row))
       grid).

Definition coloredGridToString (grid : ColoredGridState) : string :=
  String.concat ""
    (map (λ row,
       String.concat "" (map (λ cell, if alive cell then "1" else "0") row))
       grid).

(** A value of type [GridState | ColoredGridState]. *)
Inductive AnyGrid :=
  | Plain (grid : GridState)
  | Colored (grid : ColoredGridState).

(** [grid as ColoredGridState]: on a boolean the properties [alive],
    [color] and [age] are all [undefined]. *)
Definition asColored (grid : AnyGrid) : ColoredGridState :=
  match grid with
  | Colored grid => grid
  | Plain grid => map (map (λ _, deadCell)) grid
  end.

(** [grid as GridState]: a cell object is truthy. *)
Definition asPlain (grid : AnyGrid) : GridState :=
  match grid with
  | Plain grid => grid
  | Colored grid => map (map (λ _, true)) grid
  end.

Definition historyCapacity : nat := 10.

(** The result and the new contents of [stateHistoryRef]. *)
Definition isSimulationStuck (settings : GameSettings) (grid : AnyGrid)
    (stateHistory : list string) : bool * list string :=
  let gridString :=
    if color_mode settings then coloredGridToString (asColored grid)
    else gridToString (asPlain grid) in
  let hasLiveCells :=
    if color_mode settings then existsb (existsb alive) (asColored grid)
    else existsb (existsb id) (asPlain grid) in
  if negb hasLiveCells then (true, stateHistory)
  else if decide (gridString ∈ stateHistory) then (true, stateHistory)
  else
    let pushed := stateHistory ++ [gridString] in
    (false,
     if decide (historyCapacity < length pushed)%nat then tail pushed
     else pushed).

(** ** Perturbation (lines 443-474) *)

Definition flipRandomCells (grid : GridState) (count : Z) (rng : Rng)
    : option (GridState * Rng) :=
  row0 ← grid !! 0%nat;
  let height := Z.of_nat (length grid) in
  let width := Z.of_nat (length row0) in
  let newGrid : GridState := grid in
  JS.for_each (seq 0 (Z.to_nat count)) (λ _ '(newGrid, rng),
    let '(d1, rng1) := Math_random rng in
    let x := JS.floor (d1 * Qc_of_Z height) in
    let '(d2, rng2) := Math_random rng1 in
    let y := JS.floor (d2 * Qc_of_Z width) in
    row ← JS.get newGrid (Some x);
    newGrid' ← JS.set2 newGrid x y (negb (JS.truthy (JS.get row (Some y))));
    Some (newGrid', rng2)) (newGrid, rng).

Definition flipRandomCellsColored (grid : ColoredGridState) (count : Z)
    (rng : Rng) : option (ColoredGridState * Rng) :=
  row0 ← grid !! 0%nat;
  let height := Z.of_nat (length grid) in
  let width := Z.of_nat (length row0) in
  let newGrid : ColoredGridState := grid in
  JS.for_each (seq 0 (Z.to_nat count)) (λ _ '(newGrid, rng),
    let '(d1, rng1) := Math_random rng in
    let x := JS.floor (d1 * Qc_of_Z height) in
    let '(d2, rng2) := Math_random rng1 in
    let y := JS.floor (d2 * Qc_of_Z width) in
    row ← JS.get newGrid (Some x);
    currentCell ← JS.get row (Some y);
    if alive currentCell then
      newGrid' ← JS.set2 newGrid x y
        {| alive := false; color := None; age := None |};
      Some (newGrid', rng2)
    else
      let '(c, rng3) := generateRandomColor rng2 in
      newGrid' ← JS.set2 newGrid x y
        {| alive := true; color := Some c; age := Some 1 |};
      Some (newGrid', rng3)) (newGrid, rng).

(** ** Rendering (lines 476-620) *)

Record Canvas := {
  canvas_width : Qc;
  canvas_height : Qc;
  context2d : bool   (* [canvas.getContext('2d')] is not [null] *)
}.

(** [ctx.fillStyle]: the background string or an [rgba(r, g, b, alpha)]
    template; a channel that failed to parse prints as [NaN] ([None]). *)
Inductive FillStyle :=
  | CssColor (css : string)
  | Rgba (red green blue : option Z) (alpha : Qc).

Inductive DrawCmd :=
  | FillRect (style : FillStyle) (x y w h : Qc)
  | FillRoundedPath (style : FillStyle) (x y w h radius : Qc).

Definition drawRoundedRect (style : FillStyle) (x y w h radius : Qc)
    : DrawCmd :=
  if decide (radius = 0%Qc) then FillRect style x y w h
  else FillRoundedPath style x y w h radius.

(** [s.replace('#', '')]: the first occurrence only. *)
Fixpoint dropFirstHash (s : string) : string :=
  match s with
  | EmptyString => EmptyString
  | String c rest =>
      if decide (c = "#"%char) then rest else String c (dropFirstHash rest)
  end.

(** [Math.min(count * settings.neighbor_opacity_increment, 0.8)]. *)
Definition neighborOpacity (settings : GameSettings) (count : Z) : Qc :=
  JS.min (Qc_of_Z count * neighbor_opacity_increment settings)%Qc
    (Q2Qc (8 # 10)).

(** [c0 * (1 - p) + c1 * p]. *)
Definition blend (c0 c1 p : Qc) : Qc := (c0 * (1 - p) + c1 * p)%Qc.

Section Host.

(** The built-in [parseInt(text, radix)]; [None] is [NaN]. *)
Variable parseInt : string → Z → option Z.

Section Cell.

Variable settings : GameSettings.
Variable isFading : bool.
Variable currentGrid : AnyGrid.
Variable nextGrid : option AnyGrid.
Variable fadeProgress : Qc.

Let hex := dropFirstHash (foreground_color settings).
Let defaultR := parseInt (substring 0 2 hex) 16.
Let defaultG := parseInt (substring 2 2 hex) 16.
Let defaultB := parseInt (substring 4 2 hex) 16.

(** [settings.fade_amount > 0 && nextGrid && nextGrid.length > 0 &&
    isFading], with the grid it lets through. *)
Definition fadeTarget : option AnyGrid :=
  if decide (0 < fade_amount settings)%Qc then
    match nextGrid with
    | Some next =>
        let len :=
          match next with
          | Plain grid => length grid
          | Colored grid => length grid
          end in
        if decide (0 < len)%nat then
          if isFading then Some next else None
        else None
    | None => None
    end
  else None.

(** The colour-mode arm of the loop body (lines 523-575): the alpha
    and the channels the cell ends with. *)
Definition shadeColored (x y : nat)
    : option (Qc * (option Z * option Z * option Z)) :=
  let current := asColored currentGrid in
  row ← current !! x;
  let currentCell := row !! y in
  nextCell ←
    match nextGrid return option (option ColoredCell) with
    | Some next => nextRow ← asColored next !! x; Some (nextRow !! y)
    | None => Some None
    end;
  match fadeTarget with
  | Some next =>
      let next := asColored next in
      currentCell ← currentCell;
      '(currentOpacity, currentColor) ←
        match alive currentCell, color currentCell with
        | true, Some c => Some (1%Qc, c)
        | _, _ =>
            if neighbor_opacity_enabled settings then
              n ← countNeighborsColored settings current
                    (Z.of_nat x) (Z.of_nat y);
              if decide (0 < count n) then
                Some (neighborOpacity settings (count n),
                      averageColors (colors n))
              else Some (0%Qc, black)
            else Some (0%Qc, black)
        end;
      '(targetOpacity, targetColor) ←
        match nextCell with
        | Some {| alive := true; color := Some c |} => Some (1%Qc, c)
        | _ =>
            if neighbor_opacity_enabled settings then
              n ← countNeighborsColored settings next
                    (Z.of_nat x) (Z.of_nat y);
              if decide (0 < count n) then
                Some (neighborOpacity settings (count n),
                      averageColors (colors n))
              else Some (0%Qc, black)
            else Some (0%Qc, black)
        end;
      let channel (c0 c1 : Z) :=
        Some (JS.round (blend (Qc_of_Z c0) (Qc_of_Z c1) fadeProgress)) in
      Some (blend currentOpacity targetOpacity fadeProgress,
            (channel (r currentColor) (r targetColor),
             channel (g currentColor) (g targetColor),
             channel (b currentColor) (b targetColor)))
  | None =>
      currentCell ← currentCell;
      match alive currentCell, color currentCell with
      | true, Some c => Some (1%Qc, (Some (r c), Some (g c), Some (b c)))
      | _, _ =>
          if neighbor_opacity_enabled settings then
            n ← countNeighborsColored settings current
                  (Z.of_nat x) (Z.of_nat y);
            if decide (0 < count n) then
              let avgColor := averageColors (colors n) in
              Some (neighborOpacity settings (count n),
                    (Some (r avgColor), Some (g avgColor),
                     Some (b avgColor)))
            else Some (0%Qc, (defaultR, defaultG, defaultB))
          else Some (0%Qc, (defaultR, defaultG, defaultB))
      end
  end.

(** The standard-mode arm (lines 577-611). *)
Definition shadePlain (x y : nat)
    : option (Qc * (option Z * option Z * option Z)) :=
  let current := asPlain currentGrid in
  row ← current !! x;
  let currentAlive := JS.truthy (row !! y) in
  nextAlive ←
    match nextGrid return option bool with
    | Some next =>
        nextRow ← asPlain next !! x; Some (JS.truthy (nextRow !! y))
    | None => Some false
    end;
  alpha ←
    match fadeTarget with
    | Some next =>
        let next := asPlain next in
        currentOpacity ←
          (if currentAlive then Some 1%Qc
           else if neighbor_opacity_enabled settings then
             neighborCount ← countNeighbors settings current
                               (Z.of_nat x) (Z.of_nat y);
             if decide (0 < neighborCount)
             then Some (neighborOpacity settings neighborCount)
             else Some 0%Qc
           else Some 0%Qc);
        targetOpacity ←
          (if (nextAlive : bool) then Some 1%Qc
           else if neighbor_opacity_enabled settings then
             neighborCount ← countNeighbors settings next
                               (Z.of_nat x) (Z.of_nat y);
             if decide (0 < neighborCount)
             then Some (neighborOpacity settings neighborCount)
             else Some 0%Qc
           else Some 0%Qc);
        Some (blend currentOpacity targetOpacity fadeProgress)
    | None =>
        if currentAlive then Some 1%Qc
        else if neighbor_opacity_enabled settings then
          neighborCount ← countNeighbors settings current
                            (Z.of_nat x) (Z.of_nat y);
          if decide (0 < neighborCount)
          then Some (neighborOpacity settings neighborCount)
          else Some 0%Qc
        else Some 0%Qc
    end;
  Some (alpha, (defaultR, defaultG, defaultB)).

(** One iteration of the loops of lines 514-619: what the cell
    [(x, y)] adds to the canvas. *)
Definition renderCell (x y : nat) : option (list DrawCmd) :=
  let cellSize := cell_size settings in
  let padding := cell_padding settings in
  let cornerRadius := cell_corner_radius settings in
  let pixelX := (Qc_of_Z (Z.of_nat y) * (cellSize + padding))%Qc in
  let pixelY := (Qc_of_Z (Z.of_nat x) * (cellSize + padding))%Qc in
  '(alpha, (red, green, blue)) ←
    (if color_mode settings then shadeColored x y else shadePlain x y);
  if decide (0 < alpha)%Qc then
    Some [drawRoundedRect (Rgba red green blue alpha)
            pixelX pixelY cellSize cellSize cornerRadius]
  else Some [].

End Cell.

(** [renderGrid(ctx, currentGrid, nextGrid?, fadeProgress = 1)]: the
    commands sent to the canvas, in order.  [isFading] is the React
    state the callback closed over. *)
Definition renderGrid (settings : GameSettings) (isFading : bool)
    (canvas : Canvas) (currentGrid : AnyGrid) (nextGrid : option AnyGrid)
    (fadeProgress : Qc) : option (list DrawCmd) :=
  let background :=
    FillRect (CssColor (background_color settings)) 0%Qc 0%Qc
      (canvas_width canvas) (canvas_height canvas) in
  let rows :=
    match currentGrid with
    | Plain grid => map length grid
    | Colored grid => map length grid
    end in
  gridWidth ← rows !! 0%nat;
  let gridHeight := length rows in
  JS.for_each (seq 0 gridHeight) (λ x cmds,
    JS.for_each (seq 0 gridWidth) (λ y cmds,
      cell ← renderCell settings isFading currentGrid nextGrid
                fadeProgress x y;
      Some (cmds ++ cell)) cmds) [background].

End Host.

(** ** Component state (lines 78-91) *)

(** The [useState] cells.  A tick reads them from the snapshot its
    callback closed over; the [set...] calls of the tick build the state of
    the next render, the last call for a cell winning. *)
Record ReactState := {
  settings : GameSettings;
  grid : GridState;
  coloredGrid : ColoredGridState;
  targetGrid : GridState;
  targetColoredGrid : ColoredGridState;
  isFading : bool
}.

(** The [useRef] cells, mutated in place. *)
Record Refs := {
  lastUpdateRef : Qc;
  stateHistoryRef : list string;
  stuckCounterRef : Z;
  fadeStartTimeRef : Qc;
  fibonacciIndexRef : Z
}.

Record AppState := { pending : ReactState; refs : Refs }.

Definition setGrid (v : GridState) (st : AppState) : AppState :=
  let p := pending st in
  {| pending :=
       {| settings := settings p; grid := v; coloredGrid := coloredGrid p;
          targetGrid := targetGrid p;
          targetColoredGrid := targetColoredGrid p; isFading := isFading p |};
     refs := refs st |}.

Definition setColoredGrid (v : ColoredGridState) (st : AppState) : AppState :=
  let p := pending st in
  {| pending :=
       {| settings := settings p; grid := grid p; coloredGrid := v;
          targetGrid := targetGrid p;
          targetColoredGrid := targetColoredGrid p; isFading := isFading p |};
     refs := refs st |}.

Definition setTargetGrid (v : GridState) (st : AppState) : AppState :=
  let p := pending st in
  {| pending :=
       {| settings := settings p; grid := grid p;
          coloredGrid := coloredGrid p; targetGrid := v;
          targetColoredGrid := targetColoredGrid p; isFading := isFading p |};
     refs := refs st |}.

Definition setTargetColoredGrid (v : ColoredGridState) (st : AppState)
    : AppState :=
  let p := pending st in
  {| pending :=
       {| settings := settings p; grid := grid p;
          coloredGrid := coloredGrid p; targetGrid := targetGrid p;
          targetColoredGrid := v; isFading := isFading p |};
     refs := refs st |}.

Definition setIsFading (v : bool) (st : AppState) : AppState :=
  let p := pending st in
  {| pending :=
       {| settings := settings p; grid := grid p;
          coloredGrid := coloredGrid p; targetGrid := targetGrid p;
          targetColoredGrid := targetColoredGrid p; isFading := v |};
     refs := refs st |}.

Definition withRefs (f : Refs → Refs) (st : AppState) : AppState :=
  {| pending := pending st; refs := f (refs st) |}.

Definition setLastUpdate (v : Qc) : AppState → AppState :=
  withRefs (λ refs,
    {| lastUpdateRef := v; stateHistoryRef := stateHistoryRef refs;
       stuckCounterRef := stuckCounterRef refs;
       fadeStartTimeRef := fadeStartTimeRef refs;
       fibonacciIndexRef := fibonacciIndexRef refs |}).

Definition setStateHistory (v : list string) : AppState → AppState :=
  withRefs (λ refs,
    {| lastUpdateRef := lastUpdateRef refs; stateHistoryRef := v;
       stuckCounterRef := stuckCounterRef refs;
       fadeStartTimeRef := fadeStartTimeRef refs;
       fibonacciIndexRef := fibonacciIndexRef refs |}).

Definition setStuckCounter (v : Z) : AppState → AppState :=
  withRefs (λ refs,
    {| lastUpdateRef := lastUpdateRef refs;
       stateHistoryRef := stateHistoryRef refs; stuckCounterRef := v;
       fadeStartTimeRef := fadeStartTimeRef refs;
       fibonacciIndexRef := fibonacciIndexRef refs |}).

Definition setFadeStartTime (v : Qc) : AppState → AppState :=
  withRefs (λ refs,
    {| lastUpdateRef := lastUpdateRef refs;
       stateHistoryRef := stateHistoryRef refs;
       stuckCounterRef := stuckCounterRef refs; fadeStartTimeRef := v;
       fibonacciIndexRef := fibonacciIndexRef refs |}).

Definition setFibonacciIndex (v : Z) : AppState → AppState :=
  withRefs (λ refs,
    {| lastUpdateRef := lastUpdateRef refs;
       stateHistoryRef := stateHistoryRef refs;
       stuckCounterRef := stuckCounterRef refs;
       fadeStartTimeRef := fadeStartTimeRef refs; fibonacciIndexRef := v |}).

(** ** The tick (lines 622-839) *)

(** What surrounds the component: the window and [canvasRef.current]. *)
Record Host := { window : Window; canvasRef : option Canvas }.

(** What a call of [gameLoop] leaves behind: the state the next call
    sees, the rest of the random stream, the commands drawn, and whether
    the call reached [requestAnimationFrame]. *)
Record Tick := {
  state : AppState;
  random : Rng;
  drawn : list DrawCmd;
  rescheduled : bool
}.

(** The tick either [return]ed or goes on with a state. *)
Inductive Flow :=
  | Returned (tick : Tick)
  | Continues (st : AppState) (rng : Rng).

(** The reset block of the colour arm (lines 653-662, again at 666-675,
    682-691 and 697-706). *)
Definition resetColored (host : Host) (timestamp : Qc) (view : ReactState)
    (st : AppState) (rng : Rng) : option Flow :=
  let st := setStuckCounter 0 st in
  let st := setStateHistory [] st in
  let st := setFibonacciIndex 0 st in
  newDims ← calculateGridDimensions (settings view) (window host);
  let '(newGrid, rng) :=
    createRandomColoredGrid (settings view) (width newDims) (height newDims)
      rng in
  let st := setColoredGrid newGrid st in
  let st := setTargetColoredGrid [] st in
  let st := setIsFading false st in
  let st := setLastUpdate timestamp st in
  Some (Returned
    {| state := st; random := rng; drawn := []; rescheduled := false |}).

(** The reset block of the standard arm (lines 726-735, again at
    739-748, 755-764 and 770-779). *)
Definition resetPlain (host : Host) (timestamp : Qc) (view : ReactState)
    (st : AppState) (rng : Rng) : option Flow :=
  let st := setStuckCounter 0 st in
  let st := setStateHistory [] st in
  let st := setFibonacciIndex 0 st in
  newDims ← calculateGridDimensions (settings view) (window host);
  let '(newGrid, rng) :=
    createRandomGrid (settings view) (width newDims) (height newDims) rng in
  let st := setGrid newGrid st in
  let st := setTargetGrid [] st in
  let st := setIsFading false st in
  let st := setLastUpdate timestamp st in
  Some (Returned
    {| state := st; random := rng; drawn := []; rescheduled := false |}).

(** Lines 647-718. *)
Definition advanceColored (host : Host) (timestamp : Qc) (view : ReactState)
    (st : AppState) (rng : Rng) : option Flow :=
  let s := settings view in
  '(nextGrid, rng) ← nextGenerationColored s (coloredGrid view) rng;
  let '(stuck, history) :=
    isSimulationStuck s (Colored nextGrid) (stateHistoryRef (refs st)) in
  let st := setStateHistory history st in
  if stuck then
    let isEmpty := negb (existsb (existsb alive) nextGrid) in
    if hard_reset_on_stuck s then resetColored host timestamp view st rng
    else if isEmpty then resetColored host timestamp view st rng
    else if negb (try_revive_stuck_sim s) then
      Some (Continues (setTargetColoredGrid nextGrid st) rng)
    else
      let st := setStuckCounter (stuckCounterRef (refs st) + 1) st in
      if decide (max_revival_attempts s < stuckCounterRef (refs st)) then
        resetColored host timestamp view st rng
      else
        let cellsToFlip := fibonacci (fibonacciIndexRef (refs st)) in
        row0 ← coloredGrid view !! 0%nat;
        let totalCells :=
          Z.of_nat (length (coloredGrid view)) * Z.of_nat (length row0) in
        if decide (Qc_of_Z totalCells / Qc_of_Z 3 < Qc_of_Z cellsToFlip)%Qc
        then resetColored host timestamp view st rng
        else
          '(flippedGrid, rng) ←
            flipRandomCellsColored nextGrid cellsToFlip rng;
          let st := setFibonacciIndex (fibonacciIndexRef (refs st) + 1) st in
          Some (Continues (setTargetColoredGrid flippedGrid st) rng)
  else
    let st := setStuckCounter 0 st in
    let st := setFibonacciIndex 0 st in
    Some (Continues (setTargetColoredGrid nextGrid st) rng).

(** Lines 720-791. *)
Definition advancePlain (host : Host) (timestamp : Qc) (view : ReactState)
    (st : AppState) (rng : Rng) : option Flow :=
  let s := settings view in
  nextGrid ← nextGeneration s (grid view);
  let '(stuck, history) :=
    isSimulationStuck s (Plain nextGrid) (stateHistoryRef (refs st)) in
  let st := setStateHistory history st in
  if stuck then
    let isEmpty := negb (existsb (existsb id) nextGrid) in
    if hard_reset_on_stuck s then resetPlain host timestamp view st rng
    else if isEmpty then resetPlain host timestamp view st rng
    else if negb (try_revive_stuck_sim s) then
      Some (Continues (setTargetGrid nextGrid st) rng)
    else
      let st := setStuckCounter (stuckCounterRef (refs st) + 1) st in
      if decide (max_revival_attempts s < stuckCounterRef (refs st)) then
        resetPlain host timestamp view st rng
      else
        let cellsToFlip := fibonacci (fibonacciIndexRef (refs st)) in
        row0 ← grid view !! 0%nat;
        let totalCells :=
          Z.of_nat (length (grid view)) * Z.of_nat (length row0) in
        if decide (Qc_of_Z totalCells / Qc_of_Z 3 < Qc_of_Z cellsToFlip)%Qc
        then resetPlain host timestamp view st rng
        else
          '(flippedGrid, rng) ← flipRandomCells nextGrid cellsToFlip rng;
          let st := setFibonacciIndex (fibonacciIndexRef (refs st) + 1) st in
          Some (Continues (setTargetGrid flippedGrid st) rng)
  else
    let st := setStuckCounter 0 st in
    let st := setFibonacciIndex 0 st in
    Some (Continues (setTargetGrid nextGrid st) rng).

(** Lines 794-807: start the fade, or commit at once when there is no
    fade. *)
Definition settle (timestamp : Qc) (view : ReactState) (st : AppState)
    (rng : Rng) : option (AppState * Rng) :=
  let s := settings view in
  let fadeTime := (simulation_speed s * fade_amount s)%Qc in
  '(st, rng) ←
    (if bool_decide (0 < fade_amount s)%Qc && bool_decide (0 < fadeTime)%Qc
     then Some (setFadeStartTime timestamp (setIsFading true st), rng)
     else if color_mode s then
       '(committed, rng) ←
         (if decide (0 < length (targetColoredGrid view))%nat
          then Some (targetColoredGrid view, rng)
          else nextGenerationColored s (coloredGrid view) rng);
       Some (setTargetColoredGrid [] (setColoredGrid committed st), rng)
     else
       committed ←
         (if decide (0 < length (targetGrid view))%nat
          then Some (targetGrid view)
          else nextGeneration s (grid view));
       Some (setTargetGrid [] (setGrid committed st), rng));
  Some (setLastUpdate timestamp st, rng).

Section Loop.

Variable parseInt : string → Z → option Z.

(** Lines 810-836: draw the frame and, at the end of a fade, commit the
    target. *)
Definition paint (canvas : Canvas) (timestamp : Qc) (view : ReactState)
    (st : AppState) : option (AppState * list DrawCmd) :=
  let s := settings view in
  let fadeTime := (simulation_speed s * fade_amount s)%Qc in
  if isFading view then
    let fadeElapsed := (timestamp - fadeStartTimeRef (refs st))%Qc in
    let fadeProgress := JS.min (fadeElapsed / fadeTime)%Qc 1%Qc in
    if color_mode s then
      cmds ← renderGrid parseInt s (isFading view) canvas
                (Colored (coloredGrid view))
                (Some (Colored (targetColoredGrid view))) fadeProgress;
      if decide (1 ≤ fadeProgress)%Qc then
        Some (setIsFading false
                (setTargetColoredGrid []
                   (setColoredGrid (targetColoredGrid view) st)), cmds)
      else Some (st, cmds)
    else
      cmds ← renderGrid parseInt s (isFading view) canvas
                (Plain (grid view)) (Some (Plain (targetGrid view)))
                fadeProgress;
      if decide (1 ≤ fadeProgress)%Qc then
        Some (setIsFading false
                (setTargetGrid [] (setGrid (targetGrid view) st)), cmds)
      else Some (st, cmds)
  else if color_mode s then
    cmds ← renderGrid parseInt s (isFading view) canvas
              (Colored (coloredGrid view)) None 1%Qc;
    Some (st, cmds)
  else
    cmds ← renderGrid parseInt s (isFading view) canvas
              (Plain (grid view)) None 1%Qc;
    Some (st, cmds).

(** [gameLoop(timestamp)], run on the state [st] whose [pending] part
    is the snapshot the callback closed over. *)
Definition gameLoop (host : Host) (timestamp : Qc) (st : AppState)
    (rng : Rng) : option Tick :=
  let view := pending st in
  let s := settings view in
  let idle :=
    Some {| state := st; random := rng; drawn := []; rescheduled := true |} in
  if wallpaperPaused (window host) then idle
  else
    match canvasRef host with
    | None => idle
    | Some canvas =>
        if (if color_mode s then bool_decide (length (coloredGrid view) = 0%nat)
            else bool_decide (length (grid view) = 0%nat))
        then idle
        else if negb (context2d canvas) then idle
        else
          let fadeTime := (simulation_speed s * fade_amount s)%Qc in
          let stableTime := stable_display_time s in
          let totalCycleTime := (fadeTime + stableTime)%Qc in
          flow ←
            (if negb (isFading view)
                && bool_decide (totalCycleTime
                                  ≤ timestamp - lastUpdateRef (refs st))%Qc
             then
               advanced ←
                 (if color_mode s
                  then advanceColored host timestamp view st rng
                  else advancePlain host timestamp view st rng);
               match advanced with
               | Returned tick => Some (Returned tick)
               | Continues st rng =>
                   '(st, rng) ← settle timestamp view st rng;
                   Some (Continues st rng)
               end
             else Some (Continues st rng));
          match flow with
          | Returned tick => Some tick
          | Continues st rng =>
              '(st, cmds) ← paint canvas timestamp view st;
              Some {| state := st; random := rng; drawn := cmds;
                      rescheduled := true |}
          end
    end.

End Loop.

(** * Notions of the specification *)

(** A grid is a rectangular matrix of [height] rows and [width]
    columns. *)
Definition shape {A} (grid : list (list A)) (height width : nat) : Prop :=
  length grid = height ∧ Forall (λ row, length row = width) grid.

Definition cellAt {A} (grid : list (list A)) (x y : nat) : option A :=
  row ← grid !! x; row !! y.

(** The birth/survival rule: a live cell with 2 or 3 live neighbours
    survives, a dead cell with exactly 3 is born, every other cell is
    dead. *)
Definition lifeRule (isAlive : bool) (liveCount : Z) : bool :=
  if isAlive then bool_decide (liveCount = 2 ∨ liveCount = 3)
  else bool_decide (liveCount = 3).

(** The eight neighbours of a cell, as offsets. *)
Definition neighborhood : list (Z * Z) :=
  [(-1, -1); (-1, 0); (-1, 1); (0, -1); (0, 1); (1, -1); (1, 0); (1, 1)].

(** What the neighbour at offset [(i, j)] adds to the live count: under
    wrapping its coordinates are taken modulo the height and the width;
    under clipping a neighbour outside the grid is not counted. *)
Definition liveAtOffset (wrap : bool) (isLive : Z → Z → bool)
    (height width x y : Z) (offset : Z * Z) : Z :=
  let '(i, j) := offset in
  if wrap then
    if isLive ((x + i) `mod` height) ((y + j) `mod` width) then 1 else 0
  else if decide (0 ≤ x + i < height ∧ 0 ≤ y + j < width) then
    if isLive (x + i) (y + j) then 1 else 0
  else 0.

Definition liveNeighbors (wrap : bool) (isLive : Z → Z → bool)
    (height width x y : Z) : Z :=
  foldr Z.add 0 (liveAtOffset wrap isLive height width x y <$> neighborhood).

(** The cell at row [x], column [y], for integers [x] and [y]. *)
Definition cellAtZ {A} (grid : list (list A)) (x y : Z) : option A :=
  if decide (0 ≤ x ∧ 0 ≤ y) then cellAt grid (Z.to_nat x) (Z.to_nat y)
  else None.

(** Whether that cell is alive. *)
Definition plainAliveAt (grid : GridState) (x y : Z) : bool :=
  default false (cellAtZ grid x y).

Definition coloredAliveAt (grid : ColoredGridState) (x y : Z) : bool :=
  from_option alive false (cellAtZ grid x y).

(** Whether [countNeighborsColored] counts that cell: it is alive and
    carries a colour. *)
Definition countedAt (grid : ColoredGridState) (x y : Z) : bool :=
  from_option (λ cell, alive cell && bool_decide (is_Some (color cell)))
    false (cellAtZ grid x y).

(** The cell invariant of the data model: [color] and [age] are present
    if and only if [alive] is true. *)
Definition cellInvariant (cell : ColoredCell) : Prop :=
  (is_Some (color cell) ↔ alive cell = true)
  ∧ (is_Some (age cell) ↔ alive cell = true).

Definition gridInvariant (grid : ColoredGridState) : Prop :=
  Forall (Forall cellInvariant) grid.

(** The state of a grid that a row-major scan is filling, after [done]
    cells: it has its shape, a cell already visited satisfies [P] and a
    cell not yet visited still holds [init]. *)
Definition filled {A} (P : nat → nat → A → Prop) (init : A)
    (height width done : nat) (grid : list (list A)) : Prop :=
  shape grid height width
  ∧ ∀ x y, (x < height)%nat → (y < width)%nat →
      ∃ cell, cellAt grid x y = Some cell
        ∧ if decide (x * width + y < done)%nat then P x y cell
          else cell = init.

(** What [nextGenerationColored] leaves in the cell [(x, y)] of the new
    grid: the rule applied to the old cell and to the neighbours that
    [countNeighborsColored] counts, and a well-formed cell whenever the
    old cell, if alive, had a colour. *)
Definition steppedCell (settings : GameSettings) (grid : ColoredGridState)
    (h w x y : nat) (cell : ColoredCell) : Prop :=
  ∃ old,
    cellAt grid x y = Some old
    ∧ alive cell
      = lifeRule (alive old)
          (liveNeighbors (edge_wrapping settings) (countedAt grid)
             (Z.of_nat h) (Z.of_nat w) (Z.of_nat x) (Z.of_nat y))
    ∧ ((alive old = true → is_Some (color old)) → cellInvariant cell).

(** ** Fingerprints and their history *)

(** The alive/dead pattern that the detector reads off a grid. *)
Definition aliveBits (settings : GameSettings) (grid : AnyGrid)
    : list (list bool) :=
  if color_mode settings then map (map alive) (asColored grid)
  else asPlain grid.

Definition bitString (bits : list bool) : string :=
  foldr (λ (bit : bool) rest,
    String (if bit then "1" else "0")%char rest) EmptyString bits.

(** The fingerprint: the bits in row-major order. *)
Definition fingerprint (settings : GameSettings) (grid : AnyGrid) : string :=
  bitString (concat (aliveBits settings grid)).

Definition hasLiveCell (settings : GameSettings) (grid : AnyGrid) : Prop :=
  true ∈ concat (aliveBits settings grid).

#[global] Instance hasLiveCell_dec settings grid :
  Decision (hasLiveCell settings grid).
Proof. unfold hasLiveCell. apply _. Defined.

(** The history after the detector has been shown [grids] in turn. *)
Definition historyAfter (settings : GameSettings) (history : list string)
    (grids : list AnyGrid) : list string :=
  foldl (λ history grid, snd (isSimulationStuck settings grid history))
    history grids.

(** The fingerprints recorded on the way, oldest first: a call records
    the fingerprint of its grid exactly when it answers [false]. *)
Fixpoint recorded (settings : GameSettings) (history : list string)
    (grids : list AnyGrid) : list string :=
  match grids with
  | [] => []
  | grid :: rest =>
      let '(stuck, history') := isSimulationStuck settings grid history in
      (if stuck then [] else [fingerprint settings grid])
        ++ recorded settings history' rest
  end.

(** The [n] most recent entries of a log. *)
Definition mostRecent {A} (n : nat) (log : list A) : list A :=
  drop (length log - n) log.

(** The shape of a grid of either kind. *)
Definition anyShape (grid : AnyGrid) (height width : nat) : Prop :=
  match grid with
  | Plain grid => shape grid height width
  | Colored grid => shape grid height width
  end.

(** ** The recovery controller *)

(** The grid on display and the target of the fade, in the mode of the
    settings. *)
Definition displayedGrid (view : ReactState) : AnyGrid :=
  if color_mode (settings view) then Colored (coloredGrid view)
  else Plain (grid view).

Definition fadeTargetGrid (view : ReactState) : AnyGrid :=
  if color_mode (settings view) then Colored (targetColoredGrid view)
  else Plain (targetGrid view).

Definition emptyGrid (settings : GameSettings) : AnyGrid :=
  if color_mode settings then Colored [] else Plain [].

(** The next generation that a tick proposes, with the draws left. *)
Definition proposedGrid (view : ReactState) (rng : Rng)
    : option (AnyGrid * Rng) :=
  if color_mode (settings view) then
    '(next, rng) ← nextGenerationColored (settings view) (coloredGrid view) rng;
    Some (Colored next, rng)
  else
    next ← nextGeneration (settings view) (grid view);
    Some (Plain next, rng).

(** A freshly populated random grid of the current dimensions. *)
Definition freshGrid (settings : GameSettings) (dims : Dimensions) (rng : Rng)
    : AnyGrid * Rng :=
  if color_mode settings then
    let '(fresh, rng) :=
      createRandomColoredGrid settings (width dims) (height dims) rng in
    (Colored fresh, rng)
  else
    let '(fresh, rng) :=
      createRandomGrid settings (width dims) (height dims) rng in
    (Plain fresh, rng).

(** A perturbed copy of the proposed grid. *)
Definition flippedGrid (next : AnyGrid) (cellsToFlip : Z) (rng : Rng)
    : option (AnyGrid * Rng) :=
  match next with
  | Plain next =>
      '(flipped, rng) ← flipRandomCells next cellsToFlip rng;
      Some (Plain flipped, rng)
  | Colored next =>
      '(flipped, rng) ← flipRandomCellsColored next cellsToFlip rng;
      Some (Colored flipped, rng)
  end.

(** The tick reaches the generation step: it is not paused, the canvas
    and its context exist, no fade is running and the cycle time has
    elapsed. *)
Definition advances (host : Host) (timestamp : Qc) (st : AppState) : Prop :=
  let s := settings (pending st) in
  wallpaperPaused (window host) = false
  ∧ (∃ canvas, canvasRef host = Some canvas ∧ context2d canvas = true)
  ∧ isFading (pending st) = false
  ∧ (simulation_speed s * fade_amount s + stable_display_time s
     ≤ timestamp - lastUpdateRef (refs st))%Qc.

(** A full reset: a fresh random grid of the current dimensions is on
    display, nothing is left to fade to, the history is empty and the
    counters are zero. *)
Definition fullReset (host : Host) (timestamp : Qc) (view : ReactState)
    (rng : Rng) (tick : Tick) : Prop :=
  ∃ dims,
    calculateGridDimensions (settings view) (window host) = Some dims
    ∧ displayedGrid (pending (state tick))
      = fst (freshGrid (settings view) dims rng)
    ∧ anyShape (displayedGrid (pending (state tick)))
        (Z.to_nat (height dims)) (Z.to_nat (width dims))
    ∧ fadeTargetGrid (pending (state tick)) = emptyGrid (settings view)
    ∧ isFading (pending (state tick)) = false
    ∧ settings (pending (state tick)) = settings view
    ∧ stateHistoryRef (refs (state tick)) = []
    ∧ stuckCounterRef (refs (state tick)) = 0
    ∧ fibonacciIndexRef (refs (state tick)) = 0
    ∧ lastUpdateRef (refs (state tick)) = timestamp.

(** What the specification says of a recovery action: the recovered grid
    becomes the target of the fade and the grid on display is left as it
    was. *)
Definition recoversThroughTarget (view : ReactState) (recovered : AnyGrid)
    (tick : Tick) : Prop :=
  displayedGrid (pending (state tick)) = displayedGrid view
  ∧ fadeTargetGrid (pending (state tick)) = recovered.

(** The transition logic of the recovery controller as the specification
    words it (section 4.4, items 1 to 5). *)
Inductive Recovery :=
  | Accept
  | Reset
  | Perturb (cellsToFlip : Z).

Definition recovery (settings : GameSettings) (isEmpty stuck : bool)
    (stuckCounter fibonacciIndex totalCells : Z) : Recovery :=
  if isEmpty then Reset
  else if negb stuck then Accept
  else if hard_reset_on_stuck settings then Reset
  else if negb (try_revive_stuck_sim settings) then Accept
  else if decide (max_revival_attempts settings < stuckCounter + 1) then Reset
  else if decide (Qc_of_Z totalCells / Qc_of_Z 3
                  < Qc_of_Z (fibonacci fibonacciIndex))%Qc then Reset
  else Perturb (fibonacci fibonacciIndex).

(** ** Sample inputs *)

Definition sampleSettings (colorMode wrap : bool) : GameSettings :=
  {| background_color := "#000000";
     foreground_color := "#1db954";
     cell_size := Qc_of_Z 25;
     simulation_speed := Qc_of_Z 2000;
     try_revive_stuck_sim := true;
     hard_reset_on_stuck := false;
     max_revival_attempts := 5;
     grid_population_percentage := Q2Qc (3 # 10);
     fade_amount := 1%Qc;
     stable_display_time := 0%Qc;
     edge_wrapping := wrap;
     cell_padding := Qc_of_Z 4;
     bottom_margin := 0%Qc;
     cell_corner_radius := Qc_of_Z 8;
     neighbor_opacity_enabled := true;
     neighbor_opacity_increment := Q2Qc (15 # 100);
     color_mode := colorMode;
     random_color_chance := Q2Qc (5 # 100);
     max_saturation_age := Qc_of_Z 15;
     saturation_factor := Q2Qc (3 # 10);
     random_color_pure := false |}.

(** A stream whose every draw is [0]. *)
Definition sampleRng : Rng := λ _, 0%Qc.

(** A window that holds a grid of 4 by 4 cells. *)
Definition sampleHost : Host :=
  {| window := {| innerWidth := Qc_of_Z 116; innerHeight := Qc_of_Z 116;
                  wallpaperPaused := false |};
     canvasRef := Some {| canvas_width := Qc_of_Z 116;
                          canvas_height := Qc_of_Z 116;
                          context2d := true |} |}.

(** A lone cell, which dies, and a block, which is a still life. *)
Definition loneCell : GridState :=
  [[false; false; false; false];
   [false; true; false; false];
   [false; false; false; false];
   [false; false; false; false]].

Definition block : GridState :=
  [[false; false; false; false];
   [false; true; true; false];
   [false; true; true; false];
   [false; false; false; false]].

Definition sampleCell (isAlive : bool) : ColoredCell :=
  if isAlive then
    {| alive := true; color := Some {| r := 10; g := 200; b := 30 |};
       age := Some 1 |}
  else deadCell.

Definition coloredBlock : ColoredGridState := map (map sampleCell) block.

(** The state of a tick in standard mode. *)
Definition sampleState (current : GridState) (history : list string)
    (stuckCounter fibonacciIndex : Z) : AppState :=
  {| pending := {| settings := sampleSettings false false;
                   grid := current; coloredGrid := [];
                   targetGrid := []; targetColoredGrid := [];
                   isFading := false |};
     refs := {| lastUpdateRef := 0%Qc; stateHistoryRef := history;
                stuckCounterRef := stuckCounter;
                fadeStartTimeRef := 0%Qc;
                fibonacciIndexRef := fibonacciIndex |} |}.

Definition sampleParseInt : string → Z → option Z := λ _ _, None.

(** [grid.length * grid[0].length]. *)
Definition totalCells (grid : AnyGrid) : Z :=
  match grid with
  | Plain grid =>
      Z.of_nat (length grid) * Z.of_nat (length (default [] (grid !! 0%nat)))
  | Colored grid =>
      Z.of_nat (length grid) * Z.of_nat (length (default [] (grid !! 0%nat)))
  end.

(** What the recovery controller decides in a tick that proposes
    [next]. *)
Definition decision (st : AppState) (next : AnyGrid) : Recovery :=
  let s := settings (pending st) in
  recovery s
    (bool_decide (¬ hasLiveCell s next))
    (fst (isSimulationStuck s next (stateHistoryRef (refs st))))
    (stuckCounterRef (refs st)) (fibonacciIndexRef (refs st))
    (totalCells (displayedGrid (pending st))).

Definition allDead : GridState := replicate 4 (replicate 4 false).

Definition allAlive : GridState := replicate 4 (replicate 4 true).

Definition sampleColors : list CellColor :=
  [{| r := 10; g := 200; b := 30 |}; {| r := 255; g := 0; b := 7 |}].

(** A grid that breaks the cell invariant: its top row is alive without
    colours. *)
Definition colourlessCell : ColoredCell :=
  {| alive := true; color := None; age := None |}.

Definition colourlessRow : ColoredGridState :=
  [[colourlessCell; colourlessCell; colourlessCell];
   [deadCell; deadCell; deadCell];
   [deadCell; deadCell; deadCell]].

(** * The property listener (lines 94-177) *)

(** The [properties] object that Wallpaper Engine hands to
    [applyUserProperties].  A field is [None] when the property or its
    [value] is [undefined]; for a colour, also when the value is the empty
    string.  The value of a colour is kept as the numbers that its parts
    between spaces convert to, [None] standing for [NaN]. *)
Module Props.

Record t := {
  cell_size : option Qc;
  simulation_speed : option Qc;
  grid_population_percentage : option Qc;
  fade_amount : option Qc;
  stable_display_time : option Qc;
  edge_wrapping : option bool;
  cell_padding : option Qc;
  cell_corner_radius : option Qc;
  neighbor_opacity_enabled : option bool;
  neighbor_opacity_increment : option Qc;
  schemecolor : option bool;
  color_mode : option bool;
  random_color_chance : option Qc;
  max_saturation_age : option Qc;
  saturation_factor : option Qc;
  random_color_pure : option bool;
  try_revive_stuck_sim : option bool;
  hard_reset_on_stuck : option bool;
  max_revival_attempts : option Z;
  background_color : option (list (option Qc));
  foreground_color : option (list (option Qc))
}.

End Props.

(** The digit of [toString(16)] for a value below 16. *)
Definition hexDigit (d : Z) : ascii :=
  default "0"%char (String.get (Z.to_nat d) "0123456789abcdef").

(** The digits of a natural number in base 16, most significant first;
    [fuel] bounds their number. *)
Fixpoint hexDigits (fuel : nat) (n : Z) : string :=
  match fuel with
  | O => ""
  | S fuel =>
      String.append
        (if decide (n < 16) then "" else hexDigits fuel (n / 16))
        (String (hexDigit (n `mod` 16)) "")
  end.









(** * Further notions *)

(** Every channel of a colour lies between [lo] and [hi]. *)
Definition channelsWithin (lo hi : Z) (color : CellColor) : Prop :=
  lo ≤ r color ≤ hi ∧ lo ≤ g color ≤ hi ∧ lo ≤ b color ≤ hi.

(** A colour and an age that [countNeighborsColored] reports come from a
    cell of the grid that is alive and coloured; a missing age counts as
    1. *)
Definition reportedFrom (grid : ColoredGridState) (c : CellColor) (a : Z)
    : Prop :=
  ∃ x y cell,
    cellAt grid x y = Some cell
    ∧ alive cell = true ∧ color cell = Some c ∧ a = JS.or_else (age cell) 1.

(** The cell that a surviving cell [old] becomes (lines 381-389): one
    generation older, its colour pushed away from grey by its age. *)
Definition survivor (settings : GameSettings) (old : ColoredCell)
    : ColoredCell :=
  {| alive := true;
     color :=
       (λ c, enhanceColorSaturation settings c (JS.or_else (age old) 1))
         <$> color old;
     age := Some (JS.or_else (age old) 1 + 1) |}.

(** What [nextGenerationColored], started with the draws [rng0], leaves
    in the cell [(x, y)] of the new grid, in terms of the old cell and of
    what [countNeighborsColored] reports for it. *)
Definition evolvedCell (settings : GameSettings) (rng0 : Rng)
    (grid : ColoredGridState) (x y : nat) (cell : ColoredCell) : Prop :=
  ∃ old n,
    cellAt grid x y = Some old
    ∧ countNeighborsColored settings grid (Z.of_nat x) (Z.of_nat y) = Some n
    ∧ if alive old then
        if decide (count n = 2 ∨ count n = 3)
        then cell = survivor settings old
        else cell = deadCell
      else if decide (count n = 3) then
        ∃ rng,
          (rng_ok rng0 → rng_ok rng)
          ∧ cell = {| alive := true;
                      color :=
                        Some (fst (newbornColor settings (colors n) (ages n)
                                     rng));
                      age := Some 1 |}
      else cell = deadCell.

(** The palette of the colour mode: a colour has its channels in
    [[0, 255]] and an age is at least 1. *)
Definition cellPalette (cell : ColoredCell) : Prop :=
  (∀ c, color cell = Some c → channelsWithin 0 255 c)
  ∧ (∀ a, age cell = Some a → 1 ≤ a).

Definition gridPalette (grid : ColoredGridState) : Prop :=
  Forall (Forall cellPalette) grid.

(** The cell that the [k]-th iteration of [flipRandomCells] picks on a
    grid of [height] by [width] cells: it reads the draws [2k] and
    [2k + 1]. *)
Definition drawnCell (rng : Rng) (height width : nat) (k : nat) : Z * Z :=
  (JS.floor (rng (k + k)%nat * Qc_of_Z (Z.of_nat height)),
   JS.floor (rng (S (k + k)) * Qc_of_Z (Z.of_nat width))).

(** How many of the first [n] iterations pick the cell [(x, y)]. *)
Definition timesDrawn (rng : Rng) (height width : nat) (n : nat) (x y : Z)
    : nat :=
  length (filter (λ k, drawnCell rng height width k = (x, y)) (seq 0 n)).

(** A command that [renderGrid] issues for a cell of a grid of [h] by [w]
    cells: a square of the cell size at the cell's place on the lattice,
    filled with an opacity in [(0, 1]]. *)
Definition cellCommand (settings : GameSettings) (h w : nat) (cmd : DrawCmd)
    : Prop :=
  ∃ (x y : nat) red green blue alpha,
    (x < h)%nat ∧ (y < w)%nat
    ∧ cmd = drawRoundedRect (Rgba red green blue alpha)
              (Qc_of_Z (Z.of_nat y)
               * (cell_size settings + cell_padding settings))%Qc
              (Qc_of_Z (Z.of_nat x)
               * (cell_size settings + cell_padding settings))%Qc
              (cell_size settings) (cell_size settings)
              (cell_corner_radius settings)
    ∧ (0 < alpha ∧ alpha ≤ 1)%Qc.

(** The refs after the controller has accepted the proposed grid [next]:
    the detector's history, and the two counters back at zero unless the
    grid was reported stuck (lines 677-678 and 714-717). *)
Definition accepted (st : AppState) (next : AnyGrid) : AppState :=
  let '(stuck, history) :=
    isSimulationStuck (settings (pending st)) next (stateHistoryRef (refs st))
  in
  if stuck then setStateHistory history st
  else setFibonacciIndex 0 (setStuckCounter 0 (setStateHistory history st)).

(** The canvas of [sampleHost]. *)
Definition sampleCanvas : Canvas :=
  {| canvas_width := Qc_of_Z 116; canvas_height := Qc_of_Z 116;
     context2d := true |}.

(** A state in standard mode in the middle of a fade from [block] to
    [loneCell] that started at time 0. *)
Definition fadingState : AppState :=
  {| pending := {| settings := sampleSettings false false;
                   grid := block; coloredGrid := [];
                   targetGrid := loneCell; targetColoredGrid := [];
                   isFading := true |};
     refs := {| lastUpdateRef := 0%Qc; stateHistoryRef := [];
                stuckCounterRef := 0; fadeStartTimeRef := 0%Qc;
                fibonacciIndexRef := 0 |} |}.

(** Committing a grid (lines 798-804): it goes on display and the target
    of the fade is emptied. *)
Definition commit (committed : AnyGrid) (st : AppState) : AppState :=
  match committed with
  | Colored grid => setTargetColoredGrid [] (setColoredGrid grid st)
  | Plain grid => setTargetGrid [] (setGrid grid st)
  end.

(** The settings [s] with the fade turned off. *)
Definition withoutFade (s : GameSettings) : GameSettings :=
  {| background_color := background_color s;
     foreground_color := foreground_color s;
     cell_size := cell_size s;
     simulation_speed := simulation_speed s;
     try_revive_stuck_sim := try_revive_stuck_sim s;
     hard_reset_on_stuck := hard_reset_on_stuck s;
     max_revival_attempts := max_revival_attempts s;
     grid_population_percentage := grid_population_percentage s;
     fade_amount := 0%Qc;
     stable_display_time := stable_display_time s;
     edge_wrapping := edge_wrapping s;
     cell_padding := cell_padding s;
     bottom_margin := bottom_margin s;
     cell_corner_radius := cell_corner_radius s;
     neighbor_opacity_enabled := neighbor_opacity_enabled s;
     neighbor_opacity_increment := neighbor_opacity_increment s;
     color_mode := color_mode s;
     random_color_chance := random_color_chance s;
     max_saturation_age := max_saturation_age s;
     saturation_factor := saturation_factor s;
     random_color_pure := random_color_pure s |}.

(** A state in standard mode, without fade, whose history already holds
    the block. *)
Definition noFadeState : AppState :=
  {| pending := {| settings := withoutFade (sampleSettings false false);
                   grid := block; coloredGrid := [];
                   targetGrid := []; targetColoredGrid := [];
                   isFading := false |};
     refs := {| lastUpdateRef := 0%Qc;
                stateHistoryRef :=
                  [fingerprint (sampleSettings false false) (Plain block)];
                stuckCounterRef := 0; fadeStartTimeRef := 0%Qc;
                fibonacciIndexRef := 0 |} |}.

(** What a tick has no business with: the settings, and the grids of the
    mode that is off. *)
Definition bystanders (view : ReactState)
    : GameSettings * (GridState * GridState
                      + ColoredGridState * ColoredGridState) :=
  (settings view,
   if color_mode (settings view)
   then inl (grid view, targetGrid view)
   else inr (coloredGrid view, targetColoredGrid view)).

(** * Proofs *)

#[local] Arguments JS.get : simpl never.
#[local] Arguments JS.set2 : simpl never.
#[local] Arguments JS.rem : simpl never.
#[local] Arguments JS.round : simpl never.
#[local] Arguments JS.floor : simpl never.
#[local] Arguments neighborAt : simpl never.
#[local] Arguments liveAtOffset : simpl never.
#[local] Arguments plainAliveAt : simpl never.
#[local] Arguments coloredAliveAt : simpl never.

(** * Loops *)

Lemma for_each_nil {A S} (body : A → S → option S) s :
  JS.for_each [] body s = Some s.
Proof. reflexivity. Qed.

Lemma for_each_cons {A S} (body : A → S → option S) a l s :
  JS.for_each (a :: l) body s = body a s ≫= JS.for_each l body.
Proof. simpl. by destruct (body a s). Qed.

Lemma for_each_ext {A S} (f g : A → S → option S) l s :
  (∀ a s, a ∈ l → f a s = g a s) →
  JS.for_each l f s = JS.for_each l g s.
Proof.
  revert s. induction l as [|a l IH]; intros s Hfg; [done|].
  rewrite !for_each_cons, Hfg by left.
  destruct (g a s) as [s'|]; simpl; [|done].
  apply IH. intros. apply Hfg. by right.
Qed.

(** The invariant rule for a counting loop. *)
Lemma for_each_seq_inv {S} (I : nat → S → Prop) (body : nat → S → option S)
    (n start : nat) (s : S) :
  I start s →
  (∀ k s, (start ≤ k < start + n)%nat → I k s →
     ∃ s', body k s = Some s' ∧ I (Datatypes.S k) s') →
  ∃ s', JS.for_each (seq start n) body s = Some s' ∧ I (start + n)%nat s'.
Proof.
  revert start s. induction n as [|n IH]; intros start s H0 Hstep.
  - exists s. rewrite Nat.add_0_r. done.
  - destruct (Hstep start s) as (s1 & Hb & H1); [lia|done|].
    destruct (IH (Datatypes.S start) s1) as (s2 & Hl & H2); [done| |].
    + intros k s' Hk. apply Hstep. lia.
    + exists s2. simpl. rewrite Hb. split; [done|].
      by replace (start + Datatypes.S n)%nat with (Datatypes.S start + n)%nat by lia.
Qed.

(** Two nested counting loops visit the cells in row-major order: the
    invariant is indexed by the number of cells done. *)
Lemma scan_inv {S} (J : nat → S → Prop) (body : nat → nat → S → option S)
    (h w : nat) (s : S) :
  J 0%nat s →
  (∀ x y s, (x < h)%nat → (y < w)%nat → J (x * w + y)%nat s →
     ∃ s', body x y s = Some s' ∧ J (x * w + y + 1)%nat s') →
  ∃ s',
    JS.for_each (seq 0 h) (λ x s, JS.for_each (seq 0 w) (body x) s) s = Some s'
    ∧ J (h * w)%nat s'.
Proof.
  intros H0 Hstep.
  destruct (for_each_seq_inv (λ x s, J (x * w)%nat s)
              (λ x s, JS.for_each (seq 0 w) (body x) s) h 0 s)
    as (s' & Hs' & HJ); [done| |by exists s'].
  intros x s1 Hx Hrow.
  destruct (for_each_seq_inv (λ y s, J (x * w + y)%nat s) (body x) w 0 s1)
    as (s2 & Hs2 & HJ2).
  - by rewrite Nat.add_0_r.
  - intros y s2 Hy HJ2. destruct (Hstep x y s2) as (s3 & ? & ?); [lia..|done|].
    exists s3. split; [done|]. by replace (x * w + Datatypes.S y)%nat with (x * w + y + 1)%nat by lia.
  - exists s2. split; [done|].
    by replace (Datatypes.S x * w)%nat with (x * w + (0 + w))%nat by lia.
Qed.

(** * Rectangular grids *)

Lemma shape_row {A} (grid : list (list A)) h w x row :
  shape grid h w → grid !! x = Some row → length row = w.
Proof. intros [_ Hrows] Hx. by eapply (Forall_lookup_1 _ _ _ _ Hrows). Qed.

Lemma shape_lookup {A} (grid : list (list A)) h w x :
  shape grid h w → (x < h)%nat → ∃ row, grid !! x = Some row ∧ length row = w.
Proof.
  intros Hs Hx. destruct (lookup_lt_is_Some_2 grid x) as [row Hrow].
  { destruct Hs as [-> _]. done. }
  exists row. split; [done|]. by eapply shape_row.
Qed.

Lemma shape_cellAt {A} (grid : list (list A)) h w x y :
  shape grid h w → (x < h)%nat → (y < w)%nat → is_Some (cellAt grid x y).
Proof.
  intros Hs Hx Hy. destruct (shape_lookup grid h w x) as (row & Hrow & Hlen); [done..|].
  unfold cellAt. rewrite Hrow. simpl. apply lookup_lt_is_Some_2. lia.
Qed.

Lemma shape_replicate {A} h w (v : A) : shape (replicate h (replicate w v)) h w.
Proof.
  split; [apply length_replicate|].
  apply Forall_replicate, length_replicate.
Qed.

Lemma cellAt_replicate {A} h w (v : A) x y :
  (x < h)%nat → (y < w)%nat → cellAt (replicate h (replicate w v)) x y = Some v.
Proof.
  intros Hx Hy. unfold cellAt. rewrite lookup_replicate_2 by done. simpl.
  by rewrite lookup_replicate_2.
Qed.

Lemma shape_head {A} (grid : list (list A)) h w :
  shape grid h w → (0 < h)%nat → ∃ row0, grid !! 0%nat = Some row0 ∧ length row0 = w.
Proof. intros. by eapply shape_lookup. Qed.

(** [arr[x][y] = v] inside a rectangular grid keeps its shape, sets the
    cell and leaves every other cell alone. *)
Lemma set2_spec {A} (grid : list (list A)) h w (x y : nat) (v : A) :
  shape grid h w → (x < h)%nat → (y < w)%nat →
  ∃ grid',
    JS.set2 grid (Z.of_nat x) (Z.of_nat y) v = Some grid'
    ∧ shape grid' h w
    ∧ cellAt grid' x y = Some v
    ∧ ∀ x' y', (x', y') ≠ (x, y) → cellAt grid' x' y' = cellAt grid x' y'.
Proof.
  intros Hs Hx Hy.
  destruct (shape_lookup grid h w x) as (row & Hrow & Hlen); [done..|].
  unfold JS.set2. rewrite decide_True by lia. rewrite !Nat2Z.id, Hrow.
  rewrite decide_True by lia. eexists. split; [done|].
  destruct Hs as [Hh Hrows]. split_and!.
  - split; [by rewrite length_insert|].
    apply Forall_insert; [done|]. by rewrite length_insert.
  - unfold cellAt. rewrite list_lookup_insert_eq by lia. simpl.
    apply list_lookup_insert_eq. lia.
  - intros x' y' Hne. unfold cellAt.
    destruct (decide (x' = x)) as [->|].
    + rewrite list_lookup_insert_eq by lia. rewrite Hrow. simpl.
      apply list_lookup_insert_ne. congruence.
    + by rewrite list_lookup_insert_ne.
Qed.

(** * Neighbour counts *)

Lemma get_nat {A} (arr : list A) (n : nat) : JS.get arr (Some (Z.of_nat n)) = arr !! n.
Proof. unfold JS.get. rewrite decide_True by lia. by rewrite Nat2Z.id. Qed.

Lemma neighborAt_spec settings (h w x y : nat) (i j : Z) :
  (x < h)%nat → (y < w)%nat → -1 ≤ i ≤ 1 → -1 ≤ j ≤ 1 →
  match neighborAt settings (Z.of_nat h) (Z.of_nat w) (Z.of_nat x) (Z.of_nat y) i j with
  | None =>
      edge_wrapping settings = false
      ∧ ¬ (0 ≤ Z.of_nat x + i < Z.of_nat h ∧ 0 ≤ Z.of_nat y + j < Z.of_nat w)
  | Some (newX, newY) =>
      ∃ nx ny : nat,
        newX = Some (Z.of_nat nx) ∧ newY = Some (Z.of_nat ny)
        ∧ (nx < h)%nat ∧ (ny < w)%nat
        ∧ if edge_wrapping settings then
            Z.of_nat nx = (Z.of_nat x + i) `mod` Z.of_nat h
            ∧ Z.of_nat ny = (Z.of_nat y + j) `mod` Z.of_nat w
          else
            (0 ≤ Z.of_nat x + i < Z.of_nat h ∧ 0 ≤ Z.of_nat y + j < Z.of_nat w)
            ∧ Z.of_nat nx = Z.of_nat x + i ∧ Z.of_nat ny = Z.of_nat y + j
  end.
Proof.
  intros Hx Hy Hi Hj. unfold neighborAt.
  destruct (edge_wrapping settings).
  - unfold JS.rem. rewrite !decide_False by lia.
    rewrite !Z.rem_mod_nonneg by lia.
    rewrite !(Z.add_mod _ (Z.of_nat _) (Z.of_nat _)) by lia.
    rewrite !Z.mod_same by lia. rewrite !Z.add_0_r, !Z.mod_mod by lia.
    pose proof (Z.mod_pos_bound (Z.of_nat x + i) (Z.of_nat h)).
    pose proof (Z.mod_pos_bound (Z.of_nat y + j) (Z.of_nat w)).
    exists (Z.to_nat ((Z.of_nat x + i) `mod` Z.of_nat h)),
           (Z.to_nat ((Z.of_nat y + j) `mod` Z.of_nat w)).
    rewrite !Z2Nat.id by lia. split_and!; try done; lia.
  - case_decide as Hout.
    + split; [done|]. lia.
    + exists (Z.to_nat (Z.of_nat x + i)), (Z.to_nat (Z.of_nat y + j)).
      rewrite !Z2Nat.id by lia. split_and!; try done; lia.
Qed.

Lemma plainAliveAt_nat (grid : GridState) (x y : nat) row :
  grid !! x = Some row →
  plainAliveAt grid (Z.of_nat x) (Z.of_nat y) = JS.truthy (row !! y).
Proof.
  intros Hrow. unfold plainAliveAt, cellAtZ, cellAt.
  rewrite decide_True by lia. rewrite !Nat2Z.id, Hrow. done.
Qed.

(** One iteration of the inner loop of [countNeighbors]. *)
Lemma countNeighbors_visit settings (grid : GridState) (h w x y : nat) i j count :
  shape grid h w → (x < h)%nat → (y < w)%nat → -1 ≤ i ≤ 1 → -1 ≤ j ≤ 1 →
  match neighborAt settings (Z.of_nat h) (Z.of_nat w) (Z.of_nat x) (Z.of_nat y) i j with
  | None => Some count
  | Some (newX, newY) =>
      row ← JS.get grid newX;
      Some (if JS.truthy (JS.get row newY) then count + 1 else count)
  end
  = Some (count + liveAtOffset (edge_wrapping settings) (plainAliveAt grid)
                    (Z.of_nat h) (Z.of_nat w) (Z.of_nat x) (Z.of_nat y) (i, j)).
Proof.
  intros Hs Hx Hy Hi Hj.
  pose proof (neighborAt_spec settings h w x y i j Hx Hy Hi Hj) as Hn.
  unfold liveAtOffset.
  destruct (neighborAt _ _ _ _ _ _ _) as [[newX newY]|]; simpl.
  - destruct Hn as (nx & ny & -> & -> & Hnx & Hny & Hn).
    destruct (shape_lookup grid h w nx) as (row & Hrow & Hlen); [done..|].
    rewrite get_nat, Hrow. simpl. rewrite get_nat. f_equal.
    rewrite <- (plainAliveAt_nat grid nx ny row) by done.
    destruct (edge_wrapping settings).
    + destruct Hn as [<- <-]. by destruct (plainAliveAt _ _ _); lia.
    + destruct Hn as (Hin & <- & <-). rewrite decide_True by lia.
      destruct (plainAliveAt _ _ _); lia.
  - destruct Hn as [-> Hout]. rewrite decide_False by done. f_equal. lia.
Qed.

Lemma countNeighbors_spec settings (grid : GridState) (h w x y : nat) :
  shape grid h w → (x < h)%nat → (y < w)%nat →
  countNeighbors settings grid (Z.of_nat x) (Z.of_nat y)
  = Some (liveNeighbors (edge_wrapping settings) (plainAliveAt grid)
            (Z.of_nat h) (Z.of_nat w) (Z.of_nat x) (Z.of_nat y)).
Proof.
  intros Hs Hx Hy.
  destruct (shape_head grid h w) as (row0 & Hrow0 & Hlen0); [done|lia|].
  unfold countNeighbors. rewrite Hrow0. simpl. rewrite Hlen0.
  destruct Hs as [Hh Hrows]. rewrite Hh.
  pose proof (λ i j c Hi Hj, countNeighbors_visit settings grid h w x y i j c
                (conj Hh Hrows) Hx Hy Hi Hj) as Hv.
  unfold liveNeighbors, neighborhood. simpl.
  repeat (first [ rewrite decide_True by done | rewrite decide_False by lia
                | rewrite Hv by lia ]; simpl).
  f_equal. lia.
Qed.

(** * Filling a grid cell by cell *)

Lemma rowmajor_next (w x y x' y' : nat) :
  (y < w)%nat → (y' < w)%nat →
  (x' * w + y' < x * w + y + 1)%nat
  ↔ (x' * w + y' < x * w + y)%nat ∨ (x' = x ∧ y' = y).
Proof.
  intros Hy Hy'. split.
  - intros Hlt. destruct (decide (x' = x)) as [->|Hne]; [lia|].
    left. destruct (decide (x' < x)%nat); nia.
  - intros [?|[-> ->]]; lia.
Qed.

Lemma filled_init {A} (P : nat → nat → A → Prop) init h w :
  filled P init h w 0 (replicate h (replicate w init)).
Proof.
  split; [apply shape_replicate|]. intros x y Hx Hy. exists init.
  rewrite cellAt_replicate by done. split; [done|].
  by rewrite decide_False by lia.
Qed.

Lemma filled_write {A} (P : nat → nat → A → Prop) init h w x y v grid :
  filled P init h w (x * w + y) grid → (x < h)%nat → (y < w)%nat → P x y v →
  ∃ grid', JS.set2 grid (Z.of_nat x) (Z.of_nat y) v = Some grid'
    ∧ filled P init h w (x * w + y + 1) grid'.
Proof.
  intros [Hs Hcells] Hx Hy Hv.
  destruct (set2_spec grid h w x y v) as (grid' & Hset & Hs' & Hxy & Hother);
    [done..|].
  exists grid'. split; [done|]. split; [done|].
  intros x' y' Hx' Hy'. destruct (decide ((x', y') = (x, y))) as [[= -> ->]|Hne].
  - exists v. split; [done|]. by rewrite decide_True by lia.
  - rewrite Hother by done. destruct (Hcells x' y') as (cell & Hcell & Hc); [done..|].
    exists cell. split; [done|].
    pose proof (rowmajor_next w x y x' y' Hy Hy') as Hnext.
    repeat case_decide; try done; try lia.
    exfalso. destruct Hnext as [[?|[-> ->]] _]; done.
Qed.

Lemma filled_skip {A} (P : nat → nat → A → Prop) init h w x y grid :
  filled P init h w (x * w + y) grid → (x < h)%nat → (y < w)%nat → P x y init →
  filled P init h w (x * w + y + 1) grid.
Proof.
  intros [Hs Hcells] Hx Hy Hv. split; [done|].
  intros x' y' Hx' Hy'. destruct (Hcells x' y') as (cell & Hcell & Hc); [done..|].
  exists cell. split; [done|].
  pose proof (rowmajor_next w x y x' y' Hy Hy') as Hnext.
  repeat case_decide; try done; try lia.
  destruct Hnext as [[?|[-> ->]] _]; [done..|]. by subst.
Qed.

Lemma filled_done {A} (P : nat → nat → A → Prop) init h w grid :
  filled P init h w (h * w) grid →
  shape grid h w
  ∧ ∀ x y, (x < h)%nat → (y < w)%nat →
      ∃ cell, cellAt grid x y = Some cell ∧ P x y cell.
Proof.
  intros [Hs Hcells]. split; [done|]. intros x y Hx Hy.
  destruct (Hcells x y) as (cell & Hcell & Hc); [done..|].
  exists cell. split; [done|]. rewrite decide_True in Hc; [done|nia].
Qed.

(** * One generation, standard grid *)

(** The two tests of the loop body amount to the birth/survival rule. *)
Lemma lifeRule_code (a : bool) (n : Z) :
  a && (bool_decide (n = 2) || bool_decide (n = 3))
  || negb a && bool_decide (n = 3)
  = lifeRule a n.
Proof.
  unfold lifeRule.
  destruct a; simpl; repeat case_bool_decide; simpl;
    first [done | exfalso; lia].
Qed.

Lemma nextGeneration_spec settings (grid : GridState) (h w : nat) :
  shape grid h w → (0 < h)%nat → (0 < w)%nat →
  ∃ grid',
    nextGeneration settings grid = Some grid'
    ∧ shape grid' h w
    ∧ ∀ x y, (x < h)%nat → (y < w)%nat →
        cellAt grid' x y
        = Some (lifeRule (plainAliveAt grid (Z.of_nat x) (Z.of_nat y))
                  (liveNeighbors (edge_wrapping settings) (plainAliveAt grid)
                     (Z.of_nat h) (Z.of_nat w) (Z.of_nat x) (Z.of_nat y))).
Proof.
  intros Hs Hh Hw.
  destruct (shape_head grid h w) as (row0 & Hrow0 & Hlen0); [done..|].
  unfold nextGeneration. rewrite Hrow0. simpl. rewrite Hlen0.
  pose proof Hs as [Hlen _]. rewrite Hlen.
  set (F x y := lifeRule (plainAliveAt grid (Z.of_nat x) (Z.of_nat y))
                  (liveNeighbors (edge_wrapping settings) (plainAliveAt grid)
                     (Z.of_nat h) (Z.of_nat w) (Z.of_nat x) (Z.of_nat y))).
  edestruct (scan_inv (filled (λ x y cell, cell = F x y) false h w))
    as (grid' & Hrun & Hfilled); [apply filled_init| |].
  2:{ exists grid'. split; [exact Hrun|].
      apply filled_done in Hfilled as [Hs' Hcells]. split; [done|].
      intros x y Hx Hy. destruct (Hcells x y) as (cell & -> & ->); done. }
  intros x y grid1 Hx Hy Hfill. simpl.
  rewrite (countNeighbors_spec settings grid h w) by done. simpl.
  destruct (shape_lookup grid h w x) as (row & Hrow & _); [done..|].
  rewrite Hrow. simpl.
  rewrite <- (plainAliveAt_nat grid x y row) by done.
  pose proof (lifeRule_code (plainAliveAt grid (Z.of_nat x) (Z.of_nat y))
    (liveNeighbors (edge_wrapping settings) (plainAliveAt grid)
       (Z.of_nat h) (Z.of_nat w) (Z.of_nat x) (Z.of_nat y))) as Hrule.
  fold (F x y) in Hrule.
  destruct (_ && (_ || _)) eqn:Hsurvive; [|destruct (negb _ && _) eqn:Hborn].
  - apply filled_write; done.
  - apply filled_write; done.
  - exists grid1. split; [done|]. apply filled_skip; done.
Qed.

(** * One generation, coloured grid *)

(** A loop whose every iteration adds [c a] to a measure of the state
    adds the sum of the [c a]. *)
Lemma for_each_sum {A S} (m : S → Z) (c : A → Z) (l : list A)
    (body : A → S → option S) (s : S) :
  (∀ a s, a ∈ l → ∃ s', body a s = Some s' ∧ m s' = m s + c a) →
  ∃ s', JS.for_each l body s = Some s' ∧ m s' = m s + foldr Z.add 0 (c <$> l).
Proof.
  revert s. induction l as [|a l IH]; intros s Hbody.
  - exists s. split; [done|]. simpl. lia.
  - destruct (Hbody a s) as (s1 & Hs1 & Hm1); [by left|].
    destruct (IH s1) as (s2 & Hs2 & Hm2).
    { intros. apply Hbody. by right. }
    exists s2. split; [simpl; by rewrite Hs1|].
    rewrite Hm2, Hm1, fmap_cons. simpl. lia.
Qed.

Lemma offsets_range (i : Z) : i ∈ offsets → -1 ≤ i ≤ 1.
Proof.
  unfold offsets. rewrite !elem_of_cons, elem_of_nil. lia.
Qed.

Lemma cellAtZ_nat {A} (grid : list (list A)) (x y : nat) :
  cellAtZ grid (Z.of_nat x) (Z.of_nat y) = cellAt grid x y.
Proof. unfold cellAtZ. rewrite decide_True by lia. by rewrite !Nat2Z.id. Qed.

Lemma countNeighborsColored_visit settings (grid : ColoredGridState)
    (h w x y : nat) i j acc :
  shape grid h w → (x < h)%nat → (y < w)%nat → -1 ≤ i ≤ 1 → -1 ≤ j ≤ 1 →
  ∃ acc',
    match neighborAt settings (Z.of_nat h) (Z.of_nat w) (Z.of_nat x) (Z.of_nat y) i j with
    | None => Some acc
    | Some (newX, newY) =>
        row ← JS.get grid newX;
        cell ← JS.get row newY;
        match alive cell, color cell with
        | true, Some c =>
            Some {| count := count acc + 1;
                    colors := colors acc ++ [c];
                    ages := ages acc ++ [JS.or_else (age cell) 1] |}
        | _, _ => Some acc
        end
    end = Some acc'
    ∧ count acc'
      = count acc + liveAtOffset (edge_wrapping settings) (countedAt grid)
                      (Z.of_nat h) (Z.of_nat w) (Z.of_nat x) (Z.of_nat y) (i, j).
Proof.
  intros Hs Hx Hy Hi Hj.
  pose proof (neighborAt_spec settings h w x y i j Hx Hy Hi Hj) as Hn.
  unfold liveAtOffset.
  destruct (neighborAt _ _ _ _ _ _ _) as [[newX newY]|]; simpl.
  - destruct Hn as (nx & ny & -> & -> & Hnx & Hny & Hn).
    destruct (shape_lookup grid h w nx) as (row & Hrow & Hlen); [done..|].
    destruct (lookup_lt_is_Some_2 row ny) as [cell Hcell]; [lia|].
    rewrite get_nat, Hrow. simpl. rewrite get_nat, Hcell. simpl.
    assert (countedAt grid (Z.of_nat nx) (Z.of_nat ny)
            = alive cell && bool_decide (is_Some (color cell))) as Hcounted.
    { unfold countedAt. rewrite cellAtZ_nat. unfold cellAt.
      rewrite Hrow. simpl. by rewrite Hcell. }
    assert (∃ acc',
      match alive cell, color cell with
      | true, Some c =>
          Some {| count := count acc + 1;
                  colors := colors acc ++ [c];
                  ages := ages acc ++ [JS.or_else (age cell) 1] |}
      | _, _ => Some acc
      end = Some acc'
      ∧ count acc' = count acc +
          if countedAt grid (Z.of_nat nx) (Z.of_nat ny) then 1 else 0)
      as (acc' & Hacc' & Hcount).
    { rewrite Hcounted. destruct (alive cell), (color cell); simpl;
        eexists; (split; [done|]); simpl; try lia.
      all: rewrite ?bool_decide_eq_true_2 by eauto;
           rewrite ?bool_decide_eq_false_2 by (by intros [? ?]); lia. }
    exists acc'. split; [done|]. rewrite Hcount.
    destruct (edge_wrapping settings).
    + destruct Hn as [<- <-]. done.
    + destruct Hn as (Hin & <- & <-). by rewrite decide_True by lia.
  - destruct Hn as [-> Hout]. exists acc. split; [done|].
    rewrite decide_False by done. lia.
Qed.

Lemma countNeighborsColored_spec settings (grid : ColoredGridState)
    (h w x y : nat) :
  shape grid h w → (x < h)%nat → (y < w)%nat →
  ∃ n,
    countNeighborsColored settings grid (Z.of_nat x) (Z.of_nat y) = Some n
    ∧ count n = liveNeighbors (edge_wrapping settings) (countedAt grid)
                  (Z.of_nat h) (Z.of_nat w) (Z.of_nat x) (Z.of_nat y).
Proof.
  intros Hs Hx Hy.
  destruct (shape_head grid h w) as (row0 & Hrow0 & Hlen0); [done|lia|].
  unfold countNeighborsColored. rewrite Hrow0.
  remember offsets as range eqn:Hrange. simpl. subst range. rewrite Hlen0.
  pose proof Hs as [Hh _]. rewrite Hh.
  set (contribution i j :=
         if decide (i = 0 ∧ j = 0) then 0
         else liveAtOffset (edge_wrapping settings) (countedAt grid)
                (Z.of_nat h) (Z.of_nat w) (Z.of_nat x) (Z.of_nat y) (i, j)).
  edestruct (for_each_sum count
               (λ i, foldr Z.add 0 (contribution i <$> offsets)) offsets)
    as (n & Hn & Hcount); [|exists n; split; [exact Hn|]].
  - intros i acc Hi. apply (for_each_sum count (contribution i)).
    intros j acc1 Hj. unfold contribution. case_decide.
    + exists acc1. split; [done|]. lia.
    + apply countNeighborsColored_visit; auto using offsets_range.
  - rewrite Hcount. unfold liveNeighbors, neighborhood, offsets, contribution.
    simpl. lia.
Qed.

(** The rest of a stream of draws is a stream of draws. *)
Lemma rng_ok_random rng : rng_ok rng → rng_ok (snd (Math_random rng)).
Proof. intros Hok n. apply Hok. Qed.

Lemma Math_random_range rng d rng' :
  rng_ok rng → Math_random rng = (d, rng') → (0 ≤ d ∧ d < 1)%Qc ∧ rng_ok rng'.
Proof. intros Hok [= <- <-]. split; [apply Hok|]. intros n. apply Hok. Qed.

Lemma rng_ok_generateRandomColor rng :
  rng_ok rng → rng_ok (snd (generateRandomColor rng)).
Proof. intros Hok n. apply Hok. Qed.

Lemma rng_ok_generateTweakedColor base rng :
  rng_ok rng → rng_ok (snd (generateTweakedColor base rng)).
Proof. intros Hok n. apply Hok. Qed.

Lemma rng_ok_newbornColor settings colors ages rng :
  rng_ok rng → rng_ok (snd (newbornColor settings colors ages rng)).
Proof.
  intros Hok. unfold newbornColor. simpl.
  destruct (negb _); [by apply rng_ok_random|].
  destruct (random_color_pure settings).
  - by apply rng_ok_generateRandomColor, rng_ok_random.
  - by apply rng_ok_generateTweakedColor, rng_ok_random.
Qed.

Lemma cellInvariant_dead : cellInvariant deadCell.
Proof. split; simpl; split; intros H; try done; by destruct H. Qed.

Lemma cellInvariant_born c a :
  cellInvariant {| alive := true; color := Some c; age := Some a |}.
Proof. split; simpl; split; eauto. Qed.

Lemma nextGenerationColored_spec settings (grid : ColoredGridState)
    (h w : nat) (rng : Rng) :
  shape grid h w → (0 < h)%nat → (0 < w)%nat →
  ∃ grid' rng',
    nextGenerationColored settings grid rng = Some (grid', rng')
    ∧ shape grid' h w
    ∧ (rng_ok rng → rng_ok rng')
    ∧ ∀ x y, (x < h)%nat → (y < w)%nat →
        ∃ cell, cellAt grid' x y = Some cell
          ∧ steppedCell settings grid h w x y cell.
Proof.
  intros Hs Hh Hw.
  destruct (shape_head grid h w) as (row0 & Hrow0 & Hlen0); [done..|].
  unfold nextGenerationColored. rewrite Hrow0. simpl. rewrite Hlen0.
  pose proof Hs as [Hlen _]. rewrite Hlen.
  match goal with
  | |- ∃ _ _, JS.for_each _ (λ x st, JS.for_each _ (@?body x) st) ?s0 = _ ∧ _ =>
      destruct (scan_inv (λ n (st : ColoredGridState * Rng),
                  filled (steppedCell settings grid h w) deadCell h w n (fst st)
                  ∧ (rng_ok rng → rng_ok (snd st))) body h w s0)
        as ([grid' rng'] & Hrun & Hfilled & Hrng);
        [split; [apply filled_init|done]| |]
  end.
  2:{ exists grid', rng'. split; [exact Hrun|].
      apply filled_done in Hfilled as [Hs' Hcells]. done. }
  intros x y [grid1 rng1] Hx Hy [Hfill Hok]. simpl in Hfill, Hok.
  destruct (countNeighborsColored_spec settings grid h w x y)
    as (n & Hn & Hcount); [done..|].
  rewrite Hn. simpl.
  destruct (shape_lookup grid h w x) as (row & Hrow & Hrowlen); [done..|].
  destruct (lookup_lt_is_Some_2 row y) as [old Hold]; [lia|].
  rewrite Hrow. simpl. rewrite Hold. simpl.
  assert (cellAt grid x y = Some old) as Hcell.
  { unfold cellAt. rewrite Hrow. done. }
  assert (alive old && (bool_decide (count n = 2) || bool_decide (count n = 3))
          || negb (alive old) && bool_decide (count n = 3)
          = lifeRule (alive old)
              (liveNeighbors (edge_wrapping settings) (countedAt grid)
                 (Z.of_nat h) (Z.of_nat w) (Z.of_nat x) (Z.of_nat y)))
    as Hrule by (rewrite <- Hcount; apply lifeRule_code).
  destruct (_ && (_ || _)) eqn:Hsurvive; [|destruct (negb _ && _) eqn:Hborn].
  - edestruct (filled_write (steppedCell settings grid h w) deadCell h w x y)
      as (grid2 & Hset & Hfill2); [exact Hfill|done..| |].
    2:{ rewrite Hset. simpl. exists (grid2, rng1). done. }
    exists old. split; [done|]. split; [done|]. simpl.
    apply andb_true_iff in Hsurvive as [Halive _].
    intros Hcolor. destruct (Hcolor Halive) as [c ->].
    apply cellInvariant_born.
  - destruct (newbornColor settings (colors n) (ages n) rng1)
      as [cellColor rng2] eqn:Hnewborn.
    edestruct (filled_write (steppedCell settings grid h w) deadCell h w x y)
      as (grid2 & Hset & Hfill2); [exact Hfill|done..| |].
    2:{ rewrite Hset. simpl. exists (grid2, rng2). split; [done|].
        split; [done|]. intros Hrng. simpl.
        replace rng2 with (snd (newbornColor settings (colors n) (ages n) rng1))
          by (by rewrite Hnewborn).
        by apply rng_ok_newbornColor, Hok. }
    exists old. split; [done|]. split; [done|]. intros _.
    apply cellInvariant_born.
  - exists (grid1, rng1). split; [done|]. split; [|done].
    apply filled_skip; [done..|].
    exists old. split; [done|]. split; [done|]. intros _.
    apply cellInvariant_dead.
Qed.

(** * Numbers *)

Lemma floor_bounds (q : Qc) :
  (Qc_of_Z (JS.floor q) ≤ q ∧ q < Qc_of_Z (JS.floor q + 1))%Qc.
Proof. split; [apply Qfloor_le|apply Qlt_floor]. Qed.

Lemma floor_unique (q : Qc) (z : Z) :
  (Qc_of_Z z ≤ q)%Qc → (q < Qc_of_Z (z + 1))%Qc → JS.floor q = z.
Proof.
  intros Hlo Hhi. destruct (floor_bounds q) as [Hlo' Hhi'].
  pose proof (Qcle_lt_trans _ _ _ Hlo Hhi') as H1%Z2Qc_inj_lt.
  pose proof (Qcle_lt_trans _ _ _ Hlo' Hhi) as H2%Z2Qc_inj_lt.
  lia.
Qed.

Lemma floor_int (z : Z) : JS.floor (Qc_of_Z z) = z.
Proof. apply Qfloor_Z. Qed.

Lemma round_int (z : Z) : JS.round (Qc_of_Z z) = z.
Proof.
  unfold JS.round. apply floor_unique.
  - rewrite <- (Qcplus_0_r (Qc_of_Z z)) at 1.
    by apply Qcplus_le_mono_l.
  - rewrite Z2Qc_inj_add. by apply Qcplus_lt_mono_l.
Qed.

(** [Math.floor(Math.random() * n)] is an index below [n]. *)
Lemma floor_random_index (d : Qc) (n : nat) :
  (0 ≤ d ∧ d < 1)%Qc → (0 < n)%nat →
  ∃ k : nat, JS.floor (d * Qc_of_Z (Z.of_nat n)) = Z.of_nat k ∧ (k < n)%nat.
Proof.
  intros [Hlo Hhi] Hn.
  assert (0 < Qc_of_Z (Z.of_nat n))%Qc as Hpos.
  { rewrite <- Z2Qc_inj_0. apply (proj1 (Z2Qc_inj_lt 0 (Z.of_nat n))). lia. }
  destruct (floor_bounds (d * Qc_of_Z (Z.of_nat n))) as [Hfl Hfh].
  generalize dependent (JS.floor (d * Qc_of_Z (Z.of_nat n))).
  intros f Hfl Hfh.
  assert (0 ≤ f).
  { assert (0 ≤ d * Qc_of_Z (Z.of_nat n))%Qc as H0.
    { rewrite <- (Qcmult_0_l (Qc_of_Z (Z.of_nat n))).
      by apply Qcmult_le_mono_nonneg_r; [apply Qclt_le_weak|]. }
    rewrite <- Z2Qc_inj_0 in H0.
    pose proof (Qcle_lt_trans _ _ _ H0 Hfh) as H1%Z2Qc_inj_lt. lia. }
  assert (f < Z.of_nat n).
  { apply Z2Qc_inj_lt. eapply Qcle_lt_trans; [exact Hfl|].
    rewrite <- (Qcmult_1_l (Qc_of_Z (Z.of_nat n))) at 2.
    by apply Qcmult_lt_mono_pos_r. }
  exists (Z.to_nat f). split; lia.
Qed.

(** * Random grids *)

Lemma generate_length {A} (n : nat) (gen : Rng → A * Rng) rng :
  length (fst (generate n gen rng)) = n.
Proof.
  revert rng. induction n as [|n IH]; intros rng; simpl; [done|].
  destruct (gen rng) as [a rng1]. specialize (IH rng1).
  destruct (generate n gen rng1). simpl in *. by rewrite IH.
Qed.

Lemma generate_Forall {A} (P : A → Prop) (n : nat) (gen : Rng → A * Rng) rng :
  (∀ rng, P (fst (gen rng))) → Forall P (fst (generate n gen rng)).
Proof.
  intros Hgen. revert rng. induction n as [|n IH]; intros rng; simpl; [done|].
  pose proof (Hgen rng) as Ha. destruct (gen rng) as [a rng1].
  specialize (IH rng1). destruct (generate n gen rng1). simpl in *.
  by constructor.
Qed.

Lemma generate_shape {A} (h w : nat) (gen : Rng → A * Rng) rng :
  shape (fst (generate h (generate w gen) rng)) h w.
Proof.
  split; [apply generate_length|].
  apply generate_Forall. intros. apply generate_length.
Qed.

Lemma createRandomGrid_shape settings width height rng :
  shape (fst (createRandomGrid settings width height rng))
    (Z.to_nat height) (Z.to_nat width).
Proof. apply generate_shape. Qed.

Lemma createRandomColoredGrid_shape settings width height rng :
  shape (fst (createRandomColoredGrid settings width height rng))
    (Z.to_nat height) (Z.to_nat width).
Proof. apply generate_shape. Qed.

Lemma createRandomColoredGrid_invariant settings width height rng :
  gridInvariant (fst (createRandomColoredGrid settings width height rng)).
Proof.
  apply generate_Forall. intros rng1. apply generate_Forall. intros rng2.
  simpl. case_decide; simpl.
  - apply cellInvariant_born.
  - apply cellInvariant_dead.
Qed.

(** * Perturbation *)

Lemma gridInvariant_cellAt (grid : ColoredGridState) :
  gridInvariant grid
  ↔ ∀ x y cell, cellAt grid x y = Some cell → cellInvariant cell.
Proof.
  unfold gridInvariant, cellAt. rewrite Forall_lookup. split.
  - intros Hinv x y cell Hcell.
    destruct (grid !! x) as [row|] eqn:Hrow; [|done]. simpl in Hcell.
    specialize (Hinv x row Hrow). by eapply (Forall_lookup_1 _ _ _ _ Hinv).
  - intros Hinv x row Hrow. apply Forall_lookup. intros y cell Hcell.
    apply (Hinv x y). by rewrite Hrow.
Qed.

Lemma flipRandomCells_spec (grid : GridState) (h w : nat) (n : Z) rng :
  shape grid h w → (0 < h)%nat → (0 < w)%nat → rng_ok rng →
  ∃ grid' rng',
    flipRandomCells grid n rng = Some (grid', rng')
    ∧ shape grid' h w ∧ rng_ok rng'.
Proof.
  intros Hs Hh Hw Hok.
  destruct (shape_head grid h w) as (row0 & Hrow0 & Hlen0); [done..|].
  unfold flipRandomCells. rewrite Hrow0. simpl. rewrite Hlen0.
  pose proof Hs as [Hlen _]. rewrite Hlen.
  match goal with
  | |- ∃ _ _, JS.for_each _ ?body ?s0 = _ ∧ _ =>
      destruct (for_each_seq_inv (λ _ (st : GridState * Rng),
                  shape (fst st) h w ∧ rng_ok (snd st))
                  body (Z.to_nat n) 0 s0)
        as ([grid' rng'] & Hrun & Hs' & Hok'); [done| |by exists grid', rng']
  end.
  intros _ [grid1 rng1] _ [Hs1 Hok1]. simpl in Hs1, Hok1. simpl.
  destruct (floor_random_index (rng1 0%nat) h) as (x & -> & Hx); [apply Hok1|done|].
  destruct (floor_random_index (rng1 1%nat) w) as (y & -> & Hy); [apply Hok1|done|].
  destruct (shape_lookup grid1 h w x) as (row & Hrow & _); [done..|].
  rewrite get_nat, Hrow. simpl.
  edestruct (set2_spec grid1 h w x y) as (grid2 & -> & Hs2 & _); [done..|].
  simpl. eexists (_, _). split; [done|]. split; [done|].
  intros k. apply Hok1.
Qed.

Lemma flipRandomCellsColored_spec (grid : ColoredGridState) (h w : nat)
    (n : Z) rng :
  shape grid h w → (0 < h)%nat → (0 < w)%nat → rng_ok rng →
  ∃ grid' rng',
    flipRandomCellsColored grid n rng = Some (grid', rng')
    ∧ shape grid' h w ∧ rng_ok rng'
    ∧ (gridInvariant grid → gridInvariant grid').
Proof.
  intros Hs Hh Hw Hok.
  destruct (shape_head grid h w) as (row0 & Hrow0 & Hlen0); [done..|].
  unfold flipRandomCellsColored. rewrite Hrow0. simpl. rewrite Hlen0.
  pose proof Hs as [Hlen _]. rewrite Hlen.
  match goal with
  | |- ∃ _ _, JS.for_each _ ?body ?s0 = _ ∧ _ =>
      destruct (for_each_seq_inv (λ _ (st : ColoredGridState * Rng),
                  shape (fst st) h w ∧ rng_ok (snd st)
                  ∧ (gridInvariant grid → gridInvariant (fst st)))
                  body (Z.to_nat n) 0 s0)
        as ([grid' rng'] & Hrun & Hs' & Hok' & Hinv');
        [done| |by exists grid', rng']
  end.
  intros _ [grid1 rng1] _ (Hs1 & Hok1 & Hinv1). simpl in Hs1, Hok1, Hinv1. simpl.
  destruct (floor_random_index (rng1 0%nat) h) as (x & -> & Hx); [apply Hok1|done|].
  destruct (floor_random_index (rng1 1%nat) w) as (y & -> & Hy); [apply Hok1|done|].
  destruct (shape_lookup grid1 h w x) as (row & Hrow & Hrowlen); [done..|].
  destruct (lookup_lt_is_Some_2 row y) as [cell Hcell]; [lia|].
  rewrite get_nat, Hrow. simpl. rewrite get_nat, Hcell. simpl.
  assert (∀ v grid2,
    cellInvariant v → shape grid2 h w → cellAt grid2 x y = Some v →
    (∀ x' y', (x', y') ≠ (x, y) → cellAt grid2 x' y' = cellAt grid1 x' y') →
    gridInvariant grid → gridInvariant grid2) as Hkeep.
  { intros v grid2 Hv _ Hxy Hother Hinv. apply gridInvariant_cellAt.
    intros x' y' c Hc. destruct (decide ((x', y') = (x, y))) as [[= -> ->]|Hne].
    - congruence.
    - rewrite Hother in Hc by done.
      by eapply (proj1 (gridInvariant_cellAt grid1) (Hinv1 Hinv)). }
  destruct (alive cell).
  - edestruct (set2_spec grid1 h w x y) as (grid2 & -> & Hs2 & Hxy & Hother);
      [done..|].
    simpl. eexists (_, _). split; [done|]. simpl. split_and!; [done| |].
    + intros k. apply Hok1.
    + eapply Hkeep; [|done..]. apply cellInvariant_dead.
  - edestruct (set2_spec grid1 h w x y) as (grid2 & -> & Hs2 & Hxy & Hother);
      [done..|].
    simpl. eexists (_, _). split; [done|]. simpl. split_and!; [done| |].
    + intros k. apply Hok1.
    + eapply Hkeep; [|done..]. apply cellInvariant_born.
Qed.

(** * Colour genetics *)

Lemma Qc_of_Z_le (n m : Z) : n ≤ m → (Qc_of_Z n ≤ Qc_of_Z m)%Qc.
Proof. apply Z2Qc_inj_le. Qed.

Lemma Qc_of_Z_nonneg (n : Z) : 0 ≤ n → (0 ≤ Qc_of_Z n)%Qc.
Proof. intros Hn. rewrite <- Z2Qc_inj_0. by apply Qc_of_Z_le. Qed.

Lemma Qc_of_Z_nonzero (n : Z) : n ≠ 0 → Qc_of_Z n ≠ 0%Qc.
Proof. intros Hn. rewrite <- Z2Qc_inj_0. by intros ?%Z2Qc_inj. Qed.

Lemma min_r (a b : Qc) : (b ≤ a)%Qc → JS.min a b = b.
Proof.
  intros Hle. unfold JS.min. case_decide; [|done]. by apply Qcle_antisym.
Qed.


Lemma max_r (a b : Qc) : (a ≤ b)%Qc → JS.max a b = b.
Proof. intros Hle. unfold JS.max. by rewrite decide_True. Qed.




(** The sums that the two averages accumulate. *)
Lemma averageColors_sum colors index acc :
  JS.reduce_from (λ acc color (_ : nat),
    {| r := r acc + r color; g := g acc + g color; b := b acc + b color |})
    index colors acc
  = {| r := r acc + foldr Z.add 0 (r <$> colors);
       g := g acc + foldr Z.add 0 (g <$> colors);
       b := b acc + foldr Z.add 0 (b <$> colors) |}.
Proof.
  revert index acc. induction colors as [|c colors IH]; intros index acc.
  - destruct acc; simpl. by rewrite !Z.add_0_r.
  - cbn [JS.reduce_from]. rewrite IH. rewrite !fmap_cons. simpl.
    by rewrite !Z.add_assoc.
Qed.

Lemma averageColorsWeighted_sum (ages : list Z) (a : Z) colors index acc total :
  (∀ k, (index ≤ k < index + length colors)%nat → ages !! k = Some a) →
  JS.reduce_from (λ '(acc, totalWeight) color index,
    let weight := JS.or_else (ages !! index) 1 in
    ({| r := r acc + r color * weight;
        g := g acc + g color * weight;
        b := b acc + b color * weight |}, totalWeight + weight))
    index colors (acc, total)
  = ({| r := r acc + foldr Z.add 0 (r <$> colors) * JS.or_else (Some a) 1;
        g := g acc + foldr Z.add 0 (g <$> colors) * JS.or_else (Some a) 1;
        b := b acc + foldr Z.add 0 (b <$> colors) * JS.or_else (Some a) 1 |},
     total + Z.of_nat (length colors) * JS.or_else (Some a) 1).
Proof.
  revert index acc total.
  induction colors as [|c colors IH]; intros index acc total Hages.
  - destruct acc; simpl. by rewrite !Z.add_0_r.
  - cbn [JS.reduce_from]. rewrite Hages by (simpl; lia).
    rewrite IH by (intros k Hk; apply Hages; simpl; lia).
    rewrite !fmap_cons. simpl.
    generalize (JS.or_else (Some a) 1). intros weight.
    f_equal; [f_equal|]; lia.
Qed.

Lemma or_else_nonzero o d : d ≠ 0 → JS.or_else o d ≠ 0.
Proof. intros Hd. unfold JS.or_else. destruct o; [case_decide|]; done. Qed.

Lemma round_weighted (sum weight len : Z) :
  weight ≠ 0 → len ≠ 0 →
  JS.round (Qc_of_Z (0 + sum * weight) / Qc_of_Z (0 + len * weight))
  = JS.round (Qc_of_Z (0 + sum) / Qc_of_Z len).
Proof.
  intros Hw Hlen. f_equal. rewrite !Z.add_0_l, !Z2Qc_inj_mul.
  pose proof (Qc_of_Z_nonzero weight Hw).
  pose proof (Qc_of_Z_nonzero len Hlen).
  field. done.
Qed.


(** C8.  With all ages equal, the age-weighted average of a non-empty
    list of colours is their unweighted average. *)
Theorem averageColorsWeighted_equal_ages (colors : list CellColor)
    (ages : list Z) (a : Z) :
  colors ≠ [] → length ages = length colors → (∀ x, x ∈ ages → x = a) →
  averageColorsWeighted colors ages = averageColors colors.
Proof.
  intros Hne Hlen Hall.
  assert (length colors ≠ 0%nat) as Hlen0 by (by destruct colors).
  unfold averageColorsWeighted, averageColors, JS.reduce.
  rewrite !(decide_False (P := length colors = 0%nat)) by done.
  rewrite decide_False by (intros Hdiff; by apply Hdiff).
  rewrite (averageColorsWeighted_sum ages a).
  2:{ intros k Hk. destruct (lookup_lt_is_Some_2 ages k) as [x Hx]; [lia|].
      rewrite Hx. f_equal. apply Hall. by eapply list_elem_of_lookup_2. }
  rewrite averageColors_sum. cbn [r g b black].
  pose proof (or_else_nonzero (Some a) 1 ltac:(done)) as Hw.
  assert (Z.of_nat (length colors) ≠ 0) as Hn by lia.
  by rewrite !round_weighted.
Qed.

(** * Stuck detection *)

Lemma append_cons c s t : String.append (String c s) t = String c (String.append s t).
Proof. reflexivity. Qed.


Lemma append_nil_r s : String.append s EmptyString = s.
Proof. induction s as [|c s IH]; [done|]. by rewrite append_cons, IH. Qed.

Lemma concat_no_separator (parts : list string) :
  String.concat "" parts = foldr String.append EmptyString parts.
Proof.
  induction parts as [|s parts IH]; [done|].
  destruct parts as [|s' parts]; [symmetry; apply append_nil_r|].
  change (String.concat "" (s :: s' :: parts))
    with (String.append s (String.append "" (String.concat "" (s' :: parts)))).
  by rewrite IH.
Qed.

Lemma bitString_app bits1 bits2 :
  bitString (bits1 ++ bits2) = String.append (bitString bits1) (bitString bits2).
Proof.
  induction bits1 as [|bit bits1 IH]; [done|].
  simpl. by rewrite IH, append_cons.
Qed.

Lemma row_string {A} (f : A → bool) (row : list A) :
  String.concat "" (map (λ cell, if f cell then "1" else "0") row)
  = bitString (map f row).
Proof.
  rewrite concat_no_separator. induction row as [|cell row IH]; [done|].
  simpl. rewrite IH. by destruct (f cell).
Qed.

Lemma gridToString_bits (grid : GridState) :
  gridToString grid = bitString (concat grid).
Proof.
  unfold gridToString. rewrite concat_no_separator.
  induction grid as [|row grid IH]; [done|].
  simpl. rewrite IH, bitString_app. f_equal.
  rewrite <- (map_id row) at 2. apply (row_string id).
Qed.

Lemma coloredGridToString_bits (grid : ColoredGridState) :
  coloredGridToString grid = bitString (concat (map (map alive) grid)).
Proof.
  unfold coloredGridToString. rewrite concat_no_separator.
  induction grid as [|row grid IH]; [done|].
  simpl. rewrite IH, bitString_app. f_equal. apply (row_string alive).
Qed.

Lemma existsb_concat {A} (f : A → bool) (rows : list (list A)) :
  existsb (existsb f) rows = true ↔ true ∈ concat (map (map f) rows).
Proof.
  rewrite existsb_exists. setoid_rewrite existsb_exists.
  rewrite list_elem_of_In, in_concat. setoid_rewrite in_map_iff.
  split.
  - intros (row & Hrow & cell & Hcell & Hf). exists (map f row).
    split; [by exists row|]. apply in_map_iff. by exists cell.
  - intros (bits & (row & <- & Hrow) & Hin). apply in_map_iff in Hin as (cell & Hf & Hcell).
    exists row. split; [done|]. by exists cell.
Qed.

(** The two values that [isSimulationStuck] computes from the grid. *)
Lemma gridString_fingerprint settings grid :
  (if color_mode settings then coloredGridToString (asColored grid)
   else gridToString (asPlain grid))
  = fingerprint settings grid.
Proof.
  unfold fingerprint, aliveBits. destruct (color_mode settings).
  - apply coloredGridToString_bits.
  - apply gridToString_bits.
Qed.

Lemma hasLiveCells_hasLiveCell settings grid :
  (if color_mode settings then existsb (existsb alive) (asColored grid)
   else existsb (existsb id) (asPlain grid))
  = bool_decide (hasLiveCell settings grid).
Proof.
  apply eq_true_iff_eq. rewrite bool_decide_eq_true.
  unfold hasLiveCell, aliveBits. destruct (color_mode settings).
  - apply existsb_concat.
  - rewrite (existsb_concat id).
    by rewrite (map_ext _ id), map_id by apply map_id.
Qed.

Lemma isSimulationStuck_unfold settings grid history :
  isSimulationStuck settings grid history
  = if decide (hasLiveCell settings grid) then
      if decide (fingerprint settings grid ∈ history) then (true, history)
      else
        let pushed := history ++ [fingerprint settings grid] in
        (false,
         if decide (historyCapacity < length pushed)%nat then tail pushed
         else pushed)
    else (true, history).
Proof.
  unfold isSimulationStuck.
  rewrite gridString_fingerprint, hasLiveCells_hasLiveCell.
  destruct (decide (hasLiveCell settings grid)).
  - rewrite bool_decide_eq_true_2 by done. done.
  - rewrite bool_decide_eq_false_2 by done. done.
Qed.

Lemma mostRecent_push {A} (n : nat) (log : list A) (x : A) :
  (0 < n)%nat →
  mostRecent n (log ++ [x])
  = let pushed := mostRecent n log ++ [x] in
    if decide (n < length pushed)%nat then tail pushed else pushed.
Proof.
  intros Hn. unfold mostRecent. cbn zeta. rewrite !length_app, length_drop. simpl.
  destruct (decide (length log < n)%nat) as [Hshort|Hlong].
  - rewrite decide_False by lia.
    replace (length log + 1 - n)%nat with 0%nat by lia.
    replace (length log - n)%nat with 0%nat by lia. done.
  - rewrite decide_True by lia.
    replace (length log + 1 - n)%nat with (S (length log - n)) by lia.
    rewrite drop_app_le by lia.
    assert (drop (S (length log - n)) log = tail (drop (length log - n) log))
      as ->.
    { rewrite <- (Nat.add_1_r (length log - n)), <- drop_drop.
      by destruct (drop (length log - n) log). }
    destruct (drop (length log - n) log) as [|y rest] eqn:Hdrop; [|done].
    apply (f_equal length) in Hdrop. rewrite length_drop in Hdrop.
    simpl in Hdrop. lia.
Qed.

Lemma mostRecent_length {A} (n : nat) (log : list A) :
  (length (mostRecent n log) ≤ n)%nat.
Proof. unfold mostRecent. rewrite length_drop. lia. Qed.

(** The history is the ten most recent recordings. *)
Lemma historyAfter_recorded settings grids history log :
  history = mostRecent historyCapacity log →
  historyAfter settings history grids
  = mostRecent historyCapacity (log ++ recorded settings history grids).
Proof.
  revert history log. induction grids as [|grid grids IH]; intros history log Hh.
  - simpl. by rewrite app_nil_r.
  - simpl. rewrite isSimulationStuck_unfold.
    destruct (decide (hasLiveCell settings grid)); [case_decide|]; simpl.
    + by apply IH.
    + rewrite (IH _ (log ++ [fingerprint settings grid])).
      * by rewrite <- app_assoc.
      * rewrite mostRecent_push by (unfold historyCapacity; lia).
        by rewrite <- Hh.
    + by apply IH.
Qed.

(** C4.  A grid with a live cell is reported stuck exactly when its
    row-major fingerprint is among the ten most recently recorded ones (a
    grid without one always is); a fingerprint recorded only eleven or
    more recordings ago is not flagged; and the history never holds more
    than ten entries. *)
Theorem isSimulationStuck_recent_window (settings : GameSettings)
    (grids : list AnyGrid) (grid : AnyGrid) :
  let history := historyAfter settings [] grids in
  let log := recorded settings [] grids in
  history = mostRecent 10 log
  ∧ (fst (isSimulationStuck settings grid history) = true
     ↔ ¬ hasLiveCell settings grid
       ∨ fingerprint settings grid ∈ mostRecent 10 log)
  ∧ (hasLiveCell settings grid →
     fingerprint settings grid ∉ mostRecent 10 log →
     fst (isSimulationStuck settings grid history) = false
     ∧ snd (isSimulationStuck settings grid history)
       = mostRecent 10 (log ++ [fingerprint settings grid]))
  ∧ (length (snd (isSimulationStuck settings grid history)) ≤ 10)%nat.
Proof.
  intros history log.
  assert (history = mostRecent 10 log) as Hh.
  { unfold history, log. by rewrite (historyAfter_recorded settings grids [] []). }
  split; [done|]. rewrite isSimulationStuck_unfold, <- Hh.
  pose proof (mostRecent_push 10 log (fingerprint settings grid) ltac:(lia))
    as Hpush.
  rewrite <- Hh in Hpush. cbn zeta in Hpush. unfold historyCapacity.
  destruct (decide (hasLiveCell settings grid)) as [Hlive|Hdead];
    [destruct (decide (fingerprint settings grid ∈ history)) as [Hin|Hout]|];
    simpl.
  - split_and!; [by split; [right|]|done|]. rewrite Hh. apply mostRecent_length.
  - split_and!; [by split; [|intros [?|?]]|by rewrite Hpush|].
    rewrite <- Hpush. apply mostRecent_length.
  - split_and!; [by split; [left|]|done|]. rewrite Hh. apply mostRecent_length.
Qed.

(** * Rendering *)

Lemma shape_map {A B} (f : A → B) (grid : list (list A)) h w :
  shape grid h w → shape (map (map f) grid) h w.
Proof.
  intros [Hh Hrows]. split; [by rewrite length_map|].
  apply Forall_forall. intros row' Hin%list_elem_of_In.
  apply in_map_iff in Hin as (row & <- & Hrow%list_elem_of_In).
  rewrite length_map. by eapply (proj1 (Forall_forall _ _) Hrows).
Qed.

Lemma asColored_shape grid h w : anyShape grid h w → shape (asColored grid) h w.
Proof. destruct grid; simpl; [apply shape_map|done]. Qed.

Lemma asPlain_shape grid h w : anyShape grid h w → shape (asPlain grid) h w.
Proof. destruct grid; simpl; [done|apply shape_map]. Qed.

Lemma anyShape_rows grid h w :
  anyShape grid h w →
  match grid with
  | Plain grid => map length grid
  | Colored grid => map length grid
  end = replicate h w.
Proof.
  assert (∀ A (rows : list (list A)), shape rows h w →
            map length rows = replicate h w) as Hrows.
  { intros A rows [<- Hall]. induction Hall as [|row rows Hrow _ IH]; [done|].
    simpl. by rewrite Hrow, IH. }
  destruct grid; apply Hrows.
Qed.

Lemma anyShape_length grid h w :
  anyShape grid h w →
  match grid with Plain grid => length grid | Colored grid => length grid end = h.
Proof. by destruct grid; intros [? _]. Qed.

Lemma for_each_some {A S} (l : list A) (body : A → S → option S) (s : S) :
  (∀ a s, a ∈ l → is_Some (body a s)) → is_Some (JS.for_each l body s).
Proof.
  revert s. induction l as [|a l IH]; intros s Hbody; [by eexists|].
  destruct (Hbody a s) as [s' Hs']; [by left|]. simpl. rewrite Hs'.
  apply IH. intros. apply Hbody. by right.
Qed.

Lemma blend_0 (c0 c1 : Qc) : blend c0 c1 0 = c0.
Proof. unfold blend. ring. Qed.

Lemma blend_1 (c0 c1 : Qc) : blend c0 c1 1 = c1.
Proof. unfold blend. ring. Qed.

Lemma round_blend_0 (c0 c1 : Z) : JS.round (blend (Qc_of_Z c0) (Qc_of_Z c1) 0) = c0.
Proof. by rewrite blend_0, round_int. Qed.

Lemma round_blend_1 (c0 c1 : Z) : JS.round (blend (Qc_of_Z c0) (Qc_of_Z c1) 1) = c1.
Proof. by rewrite blend_1, round_int. Qed.

Section Render.

Variable parseInt : string → Z → option Z.
Variable settings : GameSettings.
Variables current target : AnyGrid.
Variables h w : nat.
Hypothesis Hcurrent : anyShape current h w.
Hypothesis Htarget : anyShape target h w.
Hypothesis Hh : (0 < h)%nat.
Hypothesis Hfade : (0 < fade_amount settings)%Qc.

Lemma fadeTarget_fading :
  fadeTarget settings true (Some target) = Some target.
Proof using Htarget Hh Hfade.
  unfold fadeTarget. rewrite decide_True by done.
  rewrite (anyShape_length target h w) by done.
  by rewrite decide_True.
Qed.

Lemma fadeTarget_alone fading : fadeTarget settings fading None = None.
Proof. unfold fadeTarget. by case_decide. Qed.

Lemma renderCell_colored_start fading p x y :
  color_mode settings = true → (x < h)%nat → (y < w)%nat →
  renderCell parseInt settings true current (Some target) 0 x y
  = renderCell parseInt settings fading current None p x y.
Proof using All.
  intros Hmode Hx Hy. unfold renderCell. rewrite Hmode.
  unfold shadeColored. rewrite fadeTarget_fading, fadeTarget_alone.
  pose proof (asColored_shape _ _ _ Hcurrent) as Hc.
  pose proof (asColored_shape _ _ _ Htarget) as Ht.
  destruct (shape_lookup _ h w x Hc Hx) as (row & Hrow & Hrowlen).
  destruct (shape_lookup _ h w x Ht Hx) as (nrow & Hnrow & Hnrowlen).
  destruct (lookup_lt_is_Some_2 row y) as [cell Hcell]; [lia|].
  destruct (lookup_lt_is_Some_2 nrow y) as [ncell Hncell]; [lia|].
  destruct (countNeighborsColored_spec settings _ h w x y Hc Hx Hy)
    as (n & Hn & _).
  destruct (countNeighborsColored_spec settings _ h w x y Ht Hx Hy)
    as (m & Hm & _).
  rewrite Hrow, Hnrow. cbn [mbind option_bind]. rewrite Hcell, Hncell.
  cbn [mbind option_bind]. rewrite Hn, Hm. cbn [mbind option_bind].
  match goal with
  | |- mbind _ (mbind _ ?A) = mbind _ ?B =>
      assert (∃ opacity shade channels,
                A = Some (opacity, shade) ∧ B = Some (opacity, channels)
                ∧ ((0 < opacity)%Qc →
                   channels = (Some (r shade), Some (g shade), Some (b shade))))
        as (opacity & shade & [[red green] blue] & -> & -> & Hchannels)
  end.
  { destruct cell as [[] [c|] ?]; cbn;
      destruct (neighbor_opacity_enabled settings); try case_decide;
      eexists _, _, _; (split_and!; [reflexivity|reflexivity|by intros ?]). }
  cbn [mbind option_bind].
  match goal with
  | |- mbind _ (mbind _ ?A) = _ =>
      assert (∃ opacity' shade', A = Some (opacity', shade'))
        as (opacity' & shade' & ->)
  end.
  { destruct ncell as [[] [c|] ?]; cbn;
      destruct (neighbor_opacity_enabled settings); try case_decide;
      by eexists _, _. }
  cbn [mbind option_bind]. rewrite blend_0, !round_blend_0.
  case_decide as Hdrawn; [|done].
  by injection (Hchannels Hdrawn) as <- <- <-.
Qed.

Lemma renderCell_colored_end fading p x y :
  color_mode settings = true → (x < h)%nat → (y < w)%nat →
  renderCell parseInt settings true current (Some target) 1 x y
  = renderCell parseInt settings fading target None p x y.
Proof using All.
  intros Hmode Hx Hy. unfold renderCell. rewrite Hmode.
  unfold shadeColored. rewrite fadeTarget_fading, fadeTarget_alone.
  pose proof (asColored_shape _ _ _ Hcurrent) as Hc.
  pose proof (asColored_shape _ _ _ Htarget) as Ht.
  destruct (shape_lookup _ h w x Hc Hx) as (row & Hrow & Hrowlen).
  destruct (shape_lookup _ h w x Ht Hx) as (nrow & Hnrow & Hnrowlen).
  destruct (lookup_lt_is_Some_2 row y) as [cell Hcell]; [lia|].
  destruct (lookup_lt_is_Some_2 nrow y) as [ncell Hncell]; [lia|].
  destruct (countNeighborsColored_spec settings _ h w x y Hc Hx Hy)
    as (n & Hn & _).
  destruct (countNeighborsColored_spec settings _ h w x y Ht Hx Hy)
    as (m & Hm & _).
  rewrite Hrow, Hnrow. cbn [mbind option_bind]. rewrite Hcell, Hncell.
  cbn [mbind option_bind]. rewrite Hn, Hm. cbn [mbind option_bind].
  match goal with
  | |- mbind _ (mbind _ ?A) = _ =>
      assert (∃ opacity' shade', A = Some (opacity', shade'))
        as (opacity' & shade' & ->)
  end.
  { destruct cell as [[] [c|] ?]; cbn;
      destruct (neighbor_opacity_enabled settings); try case_decide;
      by eexists _, _. }
  cbn [mbind option_bind].
  match goal with
  | |- mbind _ (mbind _ ?A) = mbind _ ?B =>
      assert (∃ opacity shade channels,
                A = Some (opacity, shade) ∧ B = Some (opacity, channels)
                ∧ ((0 < opacity)%Qc →
                   channels = (Some (r shade), Some (g shade), Some (b shade))))
        as (opacity & shade & [[red green] blue] & -> & -> & Hchannels)
  end.
  { destruct ncell as [[] [c|] ?]; cbn;
      destruct (neighbor_opacity_enabled settings); try case_decide;
      eexists _, _, _; (split_and!; [reflexivity|reflexivity|by intros ?]). }
  cbn [mbind option_bind]. rewrite blend_1, !round_blend_1.
  case_decide as Hdrawn; [|done].
  by injection (Hchannels Hdrawn) as <- <- <-.
Qed.

Lemma renderCell_plain_start fading p x y :
  color_mode settings = false → (x < h)%nat → (y < w)%nat →
  renderCell parseInt settings true current (Some target) 0 x y
  = renderCell parseInt settings fading current None p x y.
Proof using All.
  intros Hmode Hx Hy. unfold renderCell. rewrite Hmode.
  unfold shadePlain. rewrite fadeTarget_fading, fadeTarget_alone.
  pose proof (asPlain_shape _ _ _ Hcurrent) as Hc.
  pose proof (asPlain_shape _ _ _ Htarget) as Ht.
  destruct (shape_lookup _ h w x Hc Hx) as (row & Hrow & Hrowlen).
  destruct (shape_lookup _ h w x Ht Hx) as (nrow & Hnrow & Hnrowlen).
  rewrite Hrow, Hnrow. cbn [mbind option_bind].
  rewrite !(countNeighbors_spec settings _ h w x y) by done.
  cbn [mbind option_bind].
  match goal with
  | |- mbind _ (mbind _ (mbind _ ?A)) = _ =>
      assert (∃ opacity, A = Some opacity) as (opacity & ->)
  end.
  { destruct (JS.truthy (row !! y)), (neighbor_opacity_enabled settings);
      try case_decide; by eexists. }
  cbn [mbind option_bind].
  match goal with
  | |- mbind _ (mbind _ (mbind _ ?A)) = _ =>
      assert (∃ opacity', A = Some opacity') as (opacity' & ->)
  end.
  { destruct (JS.truthy (nrow !! y)), (neighbor_opacity_enabled settings);
      try case_decide; by eexists. }
  cbn [mbind option_bind]. by rewrite blend_0.
Qed.

Lemma renderCell_plain_end fading p x y :
  color_mode settings = false → (x < h)%nat → (y < w)%nat →
  renderCell parseInt settings true current (Some target) 1 x y
  = renderCell parseInt settings fading target None p x y.
Proof using All.
  intros Hmode Hx Hy. unfold renderCell. rewrite Hmode.
  unfold shadePlain. rewrite fadeTarget_fading, fadeTarget_alone.
  pose proof (asPlain_shape _ _ _ Hcurrent) as Hc.
  pose proof (asPlain_shape _ _ _ Htarget) as Ht.
  destruct (shape_lookup _ h w x Hc Hx) as (row & Hrow & Hrowlen).
  destruct (shape_lookup _ h w x Ht Hx) as (nrow & Hnrow & Hnrowlen).
  rewrite Hrow, Hnrow. cbn [mbind option_bind].
  rewrite !(countNeighbors_spec settings _ h w x y) by done.
  cbn [mbind option_bind].
  match goal with
  | |- mbind _ (mbind _ (mbind _ ?A)) = _ =>
      assert (∃ opacity, A = Some opacity) as (opacity & ->)
  end.
  { destruct (JS.truthy (row !! y)), (neighbor_opacity_enabled settings);
      try case_decide; by eexists. }
  cbn [mbind option_bind].
  match goal with
  | |- mbind _ (mbind _ (mbind _ ?A)) = _ =>
      assert (∃ opacity', A = Some opacity') as (opacity' & ->)
  end.
  { destruct (JS.truthy (nrow !! y)), (neighbor_opacity_enabled settings);
      try case_decide; by eexists. }
  cbn [mbind option_bind]. by rewrite blend_1.
Qed.

(** A cell of the faded frame is drawn as the current grid alone draws
    it when the fade starts, and as the target grid alone draws it when
    the fade ends. *)
Lemma renderCell_fade_endpoints fading p x y :
  (x < h)%nat → (y < w)%nat →
  renderCell parseInt settings true current (Some target) 0 x y
  = renderCell parseInt settings fading current None p x y
  ∧ renderCell parseInt settings true current (Some target) 1 x y
    = renderCell parseInt settings fading target None p x y.
Proof using All.
  intros Hx Hy. destruct (color_mode settings) eqn:Hmode.
  - by split; [apply renderCell_colored_start|apply renderCell_colored_end].
  - by split; [apply renderCell_plain_start|apply renderCell_plain_end].
Qed.

Lemma renderCell_alone_some fading p x y :
  (x < h)%nat → (y < w)%nat →
  is_Some (renderCell parseInt settings fading current None p x y).
Proof using Hcurrent Hh.
  intros Hx Hy. unfold renderCell.
  assert (∀ shaded : option (Qc * (option Z * option Z * option Z)),
            is_Some shaded →
            is_Some (shaded ≫= λ '(alpha, (red, green, blue)),
               if decide (0 < alpha)%Qc then
                 Some [drawRoundedRect (Rgba red green blue alpha)
                         (Qc_of_Z (Z.of_nat y)
                          * (cell_size settings + cell_padding settings))%Qc
                         (Qc_of_Z (Z.of_nat x)
                          * (cell_size settings + cell_padding settings))%Qc
                         (cell_size settings) (cell_size settings)
                         (cell_corner_radius settings)]
               else Some [])) as Hpaint.
  { intros shaded [[alpha [[red green] blue]] ->]. cbn [mbind option_bind].
    by case_decide. }
  apply Hpaint. destruct (color_mode settings).
  - unfold shadeColored. rewrite fadeTarget_alone.
    pose proof (asColored_shape _ _ _ Hcurrent) as Hc.
    destruct (shape_lookup _ h w x Hc Hx) as (row & Hrow & Hrowlen).
    destruct (lookup_lt_is_Some_2 row y) as [cell Hcell]; [lia|].
    destruct (countNeighborsColored_spec settings _ h w x y Hc Hx Hy)
      as (n & Hn & _).
    rewrite Hrow. cbn [mbind option_bind]. rewrite Hcell.
    cbn [mbind option_bind]. rewrite Hn. cbn [mbind option_bind].
    destruct cell as [[] [c|] ?]; cbn;
      destruct (neighbor_opacity_enabled settings); try case_decide; done.
  - unfold shadePlain. rewrite fadeTarget_alone.
    pose proof (asPlain_shape _ _ _ Hcurrent) as Hc.
    destruct (shape_lookup _ h w x Hc Hx) as (row & Hrow & Hrowlen).
    rewrite Hrow. cbn [mbind option_bind].
    rewrite !(countNeighbors_spec settings _ h w x y) by done.
    cbn [mbind option_bind].
    destruct (JS.truthy (row !! y)), (neighbor_opacity_enabled settings);
      try case_decide; done.
Qed.

End Render.

Lemma frame_ext (cellA cellB : nat → nat → option (list DrawCmd)) h w cmds :
  (∀ x y, (x < h)%nat → (y < w)%nat → cellA x y = cellB x y) →
  JS.for_each (seq 0 h) (λ x cmds,
    JS.for_each (seq 0 w) (λ y cmds,
      cell ← cellA x y; Some (cmds ++ cell)) cmds) cmds
  = JS.for_each (seq 0 h) (λ x cmds,
      JS.for_each (seq 0 w) (λ y cmds,
        cell ← cellB x y; Some (cmds ++ cell)) cmds) cmds.
Proof.
  intros Hcells. apply for_each_ext. intros x cmds1 Hx%elem_of_seq.
  apply for_each_ext. intros y cmds2 Hy%elem_of_seq.
  rewrite Hcells by lia. done.
Qed.

Lemma frame_some (cell : nat → nat → option (list DrawCmd)) h w cmds :
  (∀ x y, (x < h)%nat → (y < w)%nat → is_Some (cell x y)) →
  is_Some (JS.for_each (seq 0 h) (λ x cmds,
    JS.for_each (seq 0 w) (λ y cmds,
      c ← cell x y; Some (cmds ++ c)) cmds) cmds).
Proof.
  intros Hcells. apply for_each_some. intros x cmds1 Hx%elem_of_seq.
  apply for_each_some. intros y cmds2 Hy%elem_of_seq.
  destruct (Hcells x y) as [c ->]; [lia..|]. done.
Qed.

Lemma renderGrid_alone_some parseInt settings canvas grid h w fading p :
  anyShape grid h w → (0 < h)%nat →
  is_Some (renderGrid parseInt settings fading canvas grid None p).
Proof.
  intros Hshape Hh. unfold renderGrid.
  rewrite (anyShape_rows grid h w) by done.
  rewrite lookup_replicate_2, length_replicate by done.
  cbn [mbind option_bind]. apply frame_some.
  intros. by eapply renderCell_alone_some.
Qed.

(** C6.  For grids of equal dimensions, the faded frame at progress 0 is
    the frame that rendering the current grid alone draws, and at progress
    1 the frame that rendering the target grid alone draws, in colour mode
    and in standard mode alike. *)
Theorem renderGrid_fade_endpoints (parseInt : string → Z → option Z)
    (settings : GameSettings) (canvas : Canvas) (current target : AnyGrid)
    (h w : nat) (fading : bool) (p : Qc) :
  anyShape current h w → anyShape target h w → (0 < h)%nat →
  (0 < fade_amount settings)%Qc →
  ∃ currentFrame targetFrame,
    renderGrid parseInt settings fading canvas current None p
      = Some currentFrame
    ∧ renderGrid parseInt settings fading canvas target None p
      = Some targetFrame
    ∧ renderGrid parseInt settings true canvas current (Some target) 0
      = Some currentFrame
    ∧ renderGrid parseInt settings true canvas current (Some target) 1
      = Some targetFrame.
Proof.
  intros Hcurrent Htarget Hh Hfade.
  pose proof (renderCell_fade_endpoints parseInt settings current target h w
                Hcurrent Htarget Hh Hfade fading p) as Hcells.
  unfold renderGrid.
  rewrite (anyShape_rows current h w), (anyShape_rows target h w) by done.
  rewrite lookup_replicate_2, length_replicate by done.
  cbn [mbind option_bind].
  edestruct (frame_some (renderCell parseInt settings fading current None p)
               h w) as [currentFrame Hcur].
  { intros. by eapply renderCell_alone_some. }
  edestruct (frame_some (renderCell parseInt settings fading target None p)
               h w) as [targetFrame Htgt].
  { intros. by eapply renderCell_alone_some. }
  exists currentFrame, targetFrame. split_and!.
  - exact Hcur.
  - exact Htgt.
  - rewrite <- Hcur. apply frame_ext. intros. by apply Hcells.
  - rewrite <- Htgt. apply frame_ext. intros. by apply Hcells.
Qed.

(** * The grid engine: the claims *)

Lemma cellAt_range {A} (grid : list (list A)) h w x y cell :
  shape grid h w → cellAt grid x y = Some cell → (x < h)%nat ∧ (y < w)%nat.
Proof.
  intros Hs Hcell. unfold cellAt in Hcell.
  destruct (grid !! x) as [row|] eqn:Hrow; [|done]. simpl in Hcell.
  pose proof (shape_row grid h w x row Hs Hrow) as Hlen.
  apply lookup_lt_Some in Hrow. apply lookup_lt_Some in Hcell.
  destruct Hs as [<- _]. lia.
Qed.

Lemma liveNeighbors_ext wrap (f g : Z → Z → bool) h w x y :
  (∀ a b, f a b = g a b) →
  liveNeighbors wrap f h w x y = liveNeighbors wrap g h w x y.
Proof.
  intros Hfg. unfold liveNeighbors. f_equal. apply list_fmap_ext.
  intros _ [i j] _. unfold liveAtOffset. by rewrite !Hfg.
Qed.

(** In a grid that satisfies the cell invariant, the cells that
    [countNeighborsColored] counts are the live ones. *)
Lemma countedAt_alive (grid : ColoredGridState) :
  gridInvariant grid → ∀ x y, countedAt grid x y = coloredAliveAt grid x y.
Proof.
  intros Hinv x y. unfold countedAt, coloredAliveAt, cellAtZ.
  case_decide; [|done].
  destruct (cellAt grid (Z.to_nat x) (Z.to_nat y)) as [cell|] eqn:Hcell; [|done].
  simpl. destruct (proj1 (gridInvariant_cellAt grid) Hinv _ _ _ Hcell)
    as [Hcolor _].
  destruct (alive cell); [|done]. simpl. apply bool_decide_eq_true_2.
  by apply Hcolor.
Qed.

(** C1.  In the grid that [nextGeneration] returns, and in the [alive]
    field of the grid that [nextGenerationColored] returns, a cell is
    alive exactly when the birth/survival rule says so of the input cell
    and of its count of live neighbours, taken modulo the dimensions
    under wrapping and clipped to the grid without it. *)
Theorem nextGeneration_follows_rule (settings : GameSettings) :
  (∀ (grid : GridState) (h w : nat),
     shape grid h w → (0 < h)%nat → (0 < w)%nat →
     ∃ grid',
       nextGeneration settings grid = Some grid'
       ∧ ∀ x y, (x < h)%nat → (y < w)%nat →
           cellAt grid' x y
           = Some (lifeRule (plainAliveAt grid (Z.of_nat x) (Z.of_nat y))
                     (liveNeighbors (edge_wrapping settings)
                        (plainAliveAt grid)
                        (Z.of_nat h) (Z.of_nat w) (Z.of_nat x) (Z.of_nat y))))
  ∧ (∀ (grid : ColoredGridState) (h w : nat) (rng : Rng),
       shape grid h w → (0 < h)%nat → (0 < w)%nat → gridInvariant grid →
       ∃ grid' rng',
         nextGenerationColored settings grid rng = Some (grid', rng')
         ∧ ∀ x y, (x < h)%nat → (y < w)%nat →
             alive <$> cellAt grid' x y
             = Some (lifeRule (coloredAliveAt grid (Z.of_nat x) (Z.of_nat y))
                       (liveNeighbors (edge_wrapping settings)
                          (coloredAliveAt grid)
                          (Z.of_nat h) (Z.of_nat w)
                          (Z.of_nat x) (Z.of_nat y)))).
Proof.
  split.
  - intros grid h w Hs Hh Hw.
    destruct (nextGeneration_spec settings grid h w Hs Hh Hw)
      as (grid' & Hrun & _ & Hcells).
    by exists grid'.
  - intros grid h w rng Hs Hh Hw Hinv.
    destruct (nextGenerationColored_spec settings grid h w rng Hs Hh Hw)
      as (grid' & rng' & Hrun & _ & _ & Hcells).
    exists grid', rng'. split; [done|]. intros x y Hx Hy.
    destruct (Hcells x y Hx Hy) as (cell & -> & old & Hold & Halive & _).
    simpl. rewrite Halive. do 2 f_equal.
    + unfold coloredAliveAt. by rewrite cellAtZ_nat, Hold.
    + apply liveNeighbors_ext, countedAt_alive, Hinv.
Qed.

(** The cell invariant is needed for the coloured grid:
    [countNeighborsColored] skips a live cell that carries no colour, so
    the cell under three such cells is not born. *)
Example colourless_neighbours_not_counted :
  let s := sampleSettings true false in
  liveNeighbors false (coloredAliveAt colourlessRow) 3 3 1 1 = 3
  ∧ (count <$> countNeighborsColored s colourlessRow 1 1) = Some 0
  ∧ ∃ grid' rng',
      nextGenerationColored s colourlessRow sampleRng = Some (grid', rng')
      ∧ alive <$> cellAt grid' 1 1 = Some false.
Proof.
  intros s. split; [by vm_compute|]. split; [by vm_compute|].
  eexists _, _. split; by vm_compute.
Qed.

(** C9.  A grid made by [createRandomColoredGrid] satisfies the cell
    invariant (colour and age are present exactly in a live cell), and
    [nextGenerationColored] and [flipRandomCellsColored] return a grid
    that satisfies it when their input does. *)
Theorem cell_invariant_kept (settings : GameSettings) :
  (∀ width height rng,
     gridInvariant (fst (createRandomColoredGrid settings width height rng)))
  ∧ (∀ (grid : ColoredGridState) (h w : nat) (rng : Rng),
       shape grid h w → (0 < h)%nat → (0 < w)%nat → gridInvariant grid →
       ∃ grid' rng',
         nextGenerationColored settings grid rng = Some (grid', rng')
         ∧ gridInvariant grid')
  ∧ (∀ (grid : ColoredGridState) (h w : nat) (n : Z) (rng : Rng),
       shape grid h w → (0 < h)%nat → (0 < w)%nat → rng_ok rng →
       gridInvariant grid →
       ∃ grid' rng',
         flipRandomCellsColored grid n rng = Some (grid', rng')
         ∧ gridInvariant grid').
Proof.
  split_and!.
  - apply createRandomColoredGrid_invariant.
  - intros grid h w rng Hs Hh Hw Hinv.
    destruct (nextGenerationColored_spec settings grid h w rng Hs Hh Hw)
      as (grid' & rng' & Hrun & Hs' & _ & Hcells).
    exists grid', rng'. split; [done|]. apply gridInvariant_cellAt.
    intros x y cell Hcell.
    destruct (cellAt_range grid' h w x y cell Hs' Hcell) as [Hx Hy].
    destruct (Hcells x y Hx Hy) as (cell' & Hcell' & old & Hold & _ & Hkeep).
    assert (cell' = cell) as -> by congruence.
    apply Hkeep. intros Halive.
    by apply (proj1 (gridInvariant_cellAt grid) Hinv _ _ _ Hold).
  - intros grid h w n rng Hs Hh Hw Hok Hinv.
    destruct (flipRandomCellsColored_spec grid h w n rng Hs Hh Hw Hok)
      as (grid' & rng' & Hrun & _ & _ & Hkeep).
    exists grid', rng'. split; [done|]. by apply Hkeep.
Qed.

(** C10.  On a rectangular grid of at least one row and one column,
    [nextGeneration], [nextGenerationColored], [flipRandomCells] and
    [flipRandomCellsColored] each return a grid of the same height and
    width. *)
Theorem dimensions_kept (settings : GameSettings) (h w : nat) :
  (0 < h)%nat → (0 < w)%nat →
  (∀ grid : GridState, shape grid h w →
     ∃ grid', nextGeneration settings grid = Some grid' ∧ shape grid' h w)
  ∧ (∀ (grid : ColoredGridState) rng, shape grid h w →
       ∃ grid' rng',
         nextGenerationColored settings grid rng = Some (grid', rng')
         ∧ shape grid' h w)
  ∧ (∀ (grid : GridState) (n : Z) rng, shape grid h w → rng_ok rng →
       ∃ grid' rng',
         flipRandomCells grid n rng = Some (grid', rng') ∧ shape grid' h w)
  ∧ (∀ (grid : ColoredGridState) (n : Z) rng, shape grid h w → rng_ok rng →
       ∃ grid' rng',
         flipRandomCellsColored grid n rng = Some (grid', rng')
         ∧ shape grid' h w).
Proof.
  intros Hh Hw. split_and!.
  - intros grid Hs.
    destruct (nextGeneration_spec settings grid h w Hs Hh Hw)
      as (grid' & Hrun & Hs' & _).
    by exists grid'.
  - intros grid rng Hs.
    destruct (nextGenerationColored_spec settings grid h w rng Hs Hh Hw)
      as (grid' & rng' & Hrun & Hs' & _).
    by exists grid', rng'.
  - intros grid n rng Hs Hok.
    destruct (flipRandomCells_spec grid h w n rng Hs Hh Hw Hok)
      as (grid' & rng' & Hrun & Hs' & _).
    by exists grid', rng'.
  - intros grid n rng Hs Hok.
    destruct (flipRandomCellsColored_spec grid h w n rng Hs Hh Hw Hok)
      as (grid' & rng' & Hrun & Hs' & _).
    by exists grid', rng'.
Qed.

(** * The tick *)

Lemma calculateGridDimensions_some settings window :
  (cell_size settings + cell_padding settings)%Qc ≠ 0%Qc →
  ∃ dims, calculateGridDimensions settings window = Some dims.
Proof.
  intros Hpitch. unfold calculateGridDimensions, cellsAlong.
  rewrite !decide_False by done. by eexists.
Qed.

(** A tick that reaches the generation step runs the recovery logic,
    then starts the fade or commits, then paints. *)
Lemma gameLoop_advances parseInt host timestamp st rng canvas :
  advances host timestamp st →
  canvasRef host = Some canvas →
  (if color_mode (settings (pending st))
   then length (coloredGrid (pending st)) ≠ 0%nat
   else length (grid (pending st)) ≠ 0%nat) →
  gameLoop parseInt host timestamp st rng
  = (advanced ←
       (if color_mode (settings (pending st))
        then advanceColored host timestamp (pending st) st rng
        else advancePlain host timestamp (pending st) st rng);
     match advanced with
     | Returned tick => Some tick
     | Continues st1 rng1 =>
         '(st2, rng2) ← settle timestamp (pending st) st1 rng1;
         '(st3, cmds) ← paint parseInt canvas timestamp (pending st) st2;
         Some {| state := st3; random := rng2; drawn := cmds;
                 rescheduled := true |}
     end).
Proof.
  intros (Hpaused & (canvas' & Hcanvas & Hctx) & Hfading & Hdue) Hc Hlen.
  assert (canvas' = canvas) as -> by congruence.
  unfold gameLoop. rewrite Hpaused, Hcanvas, Hctx, Hfading.
  cbn zeta in Hdue.
  rewrite (bool_decide_eq_true_2 _ Hdue).
  destruct (color_mode (settings (pending st)));
    rewrite (bool_decide_eq_false_2 _ Hlen); cbn [negb andb].
  - destruct (advanceColored _ _ _ _ _) as [[tick|st1 rng1]|];
      cbn [mbind option_bind]; [done| |done].
    destruct (settle _ _ _ _) as [[st2 rng2]|]; cbn [mbind option_bind]; done.
  - destruct (advancePlain _ _ _ _ _) as [[tick|st1 rng1]|];
      cbn [mbind option_bind]; [done| |done].
    destruct (settle _ _ _ _) as [[st2 rng2]|]; cbn [mbind option_bind]; done.
Qed.

(** The reset block overwrites the history and the counters: what they
    held before does not matter. *)
Lemma resetColored_overwrites host timestamp view st rng history counter index :
  resetColored host timestamp view
    (setFibonacciIndex index (setStuckCounter counter (setStateHistory history st)))
    rng
  = resetColored host timestamp view st rng.
Proof. reflexivity. Qed.

Lemma resetPlain_overwrites host timestamp view st rng history counter index :
  resetPlain host timestamp view
    (setFibonacciIndex index (setStuckCounter counter (setStateHistory history st)))
    rng
  = resetPlain host timestamp view st rng.
Proof. reflexivity. Qed.

Lemma resetColored_fullReset host timestamp st rng :
  color_mode (settings (pending st)) = true →
  (cell_size (settings (pending st)) + cell_padding (settings (pending st)))%Qc
    ≠ 0%Qc →
  ∃ tick,
    resetColored host timestamp (pending st) st rng = Some (Returned tick)
    ∧ fullReset host timestamp (pending st) rng tick.
Proof.
  intros Hmode Hpitch.
  destruct (calculateGridDimensions_some _ (window host) Hpitch) as [dims Hdims].
  unfold resetColored. rewrite Hdims. cbn [mbind option_bind].
  pose proof (createRandomColoredGrid_shape (settings (pending st))
                (width dims) (height dims) rng) as Hshape.
  destruct (createRandomColoredGrid _ _ _ _) as [fresh rng'] eqn:Hfresh.
  eexists. split; [reflexivity|]. exists dims.
  unfold displayedGrid, fadeTargetGrid, freshGrid, emptyGrid. cbn.
  rewrite Hmode, Hfresh. done.
Qed.

Lemma resetPlain_fullReset host timestamp st rng :
  color_mode (settings (pending st)) = false →
  (cell_size (settings (pending st)) + cell_padding (settings (pending st)))%Qc
    ≠ 0%Qc →
  ∃ tick,
    resetPlain host timestamp (pending st) st rng = Some (Returned tick)
    ∧ fullReset host timestamp (pending st) rng tick.
Proof.
  intros Hmode Hpitch.
  destruct (calculateGridDimensions_some _ (window host) Hpitch) as [dims Hdims].
  unfold resetPlain. rewrite Hdims. cbn [mbind option_bind].
  pose proof (createRandomGrid_shape (settings (pending st))
                (width dims) (height dims) rng) as Hshape.
  destruct (createRandomGrid _ _ _ _) as [fresh rng'] eqn:Hfresh.
  eexists. split; [reflexivity|]. exists dims.
  unfold displayedGrid, fadeTargetGrid, freshGrid, emptyGrid. cbn.
  rewrite Hmode, Hfresh. done.
Qed.

Lemma isEmpty_colored settings next :
  color_mode settings = true →
  negb (existsb (existsb alive) next)
  = bool_decide (¬ hasLiveCell settings (Colored next)).
Proof.
  intros Hmode. rewrite bool_decide_not. f_equal.
  rewrite <- hasLiveCells_hasLiveCell. by rewrite Hmode.
Qed.

Lemma isEmpty_plain settings next :
  color_mode settings = false →
  negb (existsb (existsb id) next)
  = bool_decide (¬ hasLiveCell settings (Plain next)).
Proof.
  intros Hmode. rewrite bool_decide_not. f_equal.
  rewrite <- hasLiveCells_hasLiveCell. by rewrite Hmode.
Qed.

(** A grid without a live cell is always reported stuck. *)
Lemma isSimulationStuck_empty settings next history :
  ¬ hasLiveCell settings next →
  isSimulationStuck settings next history = (true, history).
Proof. intros Hdead. rewrite isSimulationStuck_unfold. by rewrite decide_False. Qed.

Lemma advanceColored_resets host timestamp st rng next rng1 :
  color_mode (settings (pending st)) = true →
  nextGenerationColored (settings (pending st)) (coloredGrid (pending st)) rng
    = Some (next, rng1) →
  decision st (Colored next) = Reset →
  advanceColored host timestamp (pending st) st rng
  = resetColored host timestamp (pending st) st rng1.
Proof.
  intros Hmode Hnext Hreset. unfold advanceColored. rewrite Hnext.
  cbn [mbind option_bind].
  unfold decision, recovery, displayedGrid in Hreset. rewrite Hmode in Hreset.
  rewrite (isEmpty_colored _ _ Hmode).
  destruct (coloredGrid (pending st) !! 0%nat) as [row0|] eqn:Hrow0.
  2:{ unfold nextGenerationColored in Hnext. by rewrite Hrow0 in Hnext. }
  unfold totalCells in Hreset. rewrite Hrow0 in Hreset.
  change (default [] (Some row0)) with row0 in Hreset.
  destruct (bool_decide (¬ hasLiveCell _ _)) eqn:Hempty.
  - apply bool_decide_eq_true_1 in Hempty.
    rewrite isSimulationStuck_empty by done.
    destruct (hard_reset_on_stuck _); reflexivity.
  - destruct (isSimulationStuck _ _ _) as [[] history]; [|done].
    cbn [fst negb] in Hreset.
    destruct (hard_reset_on_stuck _); [reflexivity|].
    destruct (try_revive_stuck_sim _); [|done]. cbn [negb] in Hreset |- *.
    cbn [mbind option_bind refs setStuckCounter setStateHistory withRefs
         stuckCounterRef fibonacciIndexRef].
    case_decide; [reflexivity|]. case_decide; [reflexivity|done].
Qed.

(** When the controller decides to perturb, the tick goes on with the
    perturbed grid as the target of the fade. *)
Lemma advanceColored_perturbs host timestamp st rng next rng1 cellsToFlip :
  color_mode (settings (pending st)) = true →
  nextGenerationColored (settings (pending st)) (coloredGrid (pending st)) rng
    = Some (next, rng1) →
  decision st (Colored next) = Perturb cellsToFlip →
  advanceColored host timestamp (pending st) st rng
  = '(flipped, rng2) ← flipRandomCellsColored next cellsToFlip rng1;
    Some (Continues
      (setTargetColoredGrid flipped
         (setFibonacciIndex (fibonacciIndexRef (refs st) + 1)
            (setStuckCounter (stuckCounterRef (refs st) + 1)
               (setStateHistory (stateHistoryRef (refs st)) st))))
      rng2).
Proof.
  intros Hmode Hnext Hperturb. unfold advanceColored. rewrite Hnext.
  cbn [mbind option_bind].
  unfold decision, recovery, displayedGrid in Hperturb.
  rewrite Hmode in Hperturb.
  rewrite (isEmpty_colored _ _ Hmode).
  destruct (coloredGrid (pending st) !! 0%nat) as [row0|] eqn:Hrow0.
  2:{ unfold nextGenerationColored in Hnext. by rewrite Hrow0 in Hnext. }
  unfold totalCells in Hperturb. rewrite Hrow0 in Hperturb.
  change (default [] (Some row0)) with row0 in Hperturb.
  destruct (bool_decide (¬ hasLiveCell _ _)) eqn:Hempty; [done|].
  apply bool_decide_eq_false_1 in Hempty.
  rewrite isSimulationStuck_unfold in Hperturb |- *.
  rewrite decide_True in Hperturb |- * by (by destruct (decide (hasLiveCell
    (settings (pending st)) (Colored next)))).
  case_decide; [|done]. cbn [fst negb] in Hperturb.
  destruct (hard_reset_on_stuck _); [done|].
  destruct (try_revive_stuck_sim _); [|done]. cbn [negb] in Hperturb |- *.
  cbn [mbind option_bind refs setStuckCounter setStateHistory withRefs
       stuckCounterRef fibonacciIndexRef].
  case_decide; [done|]. case_decide; [done|].
  by injection Hperturb as <-.
Qed.

Lemma advancePlain_resets host timestamp st rng next :
  color_mode (settings (pending st)) = false →
  nextGeneration (settings (pending st)) (grid (pending st)) = Some next →
  decision st (Plain next) = Reset →
  advancePlain host timestamp (pending st) st rng
  = resetPlain host timestamp (pending st) st rng.
Proof.
  intros Hmode Hnext Hreset. unfold advancePlain. rewrite Hnext.
  cbn [mbind option_bind].
  unfold decision, recovery, displayedGrid in Hreset. rewrite Hmode in Hreset.
  rewrite (isEmpty_plain _ _ Hmode).
  destruct (grid (pending st) !! 0%nat) as [row0|] eqn:Hrow0.
  2:{ unfold nextGeneration in Hnext. by rewrite Hrow0 in Hnext. }
  unfold totalCells in Hreset. rewrite Hrow0 in Hreset.
  change (default [] (Some row0)) with row0 in Hreset.
  destruct (bool_decide (¬ hasLiveCell _ _)) eqn:Hempty.
  - apply bool_decide_eq_true_1 in Hempty.
    rewrite isSimulationStuck_empty by done.
    destruct (hard_reset_on_stuck _); reflexivity.
  - destruct (isSimulationStuck _ _ _) as [[] history]; [|done].
    cbn [fst negb] in Hreset.
    destruct (hard_reset_on_stuck _); [reflexivity|].
    destruct (try_revive_stuck_sim _); [|done]. cbn [negb] in Hreset |- *.
    cbn [mbind option_bind refs setStuckCounter setStateHistory withRefs
         stuckCounterRef fibonacciIndexRef].
    case_decide; [reflexivity|]. case_decide; [reflexivity|done].
Qed.

(** When the controller decides to perturb, the tick goes on with the
    perturbed grid as the target of the fade. *)
Lemma advancePlain_perturbs host timestamp st rng next cellsToFlip :
  color_mode (settings (pending st)) = false →
  nextGeneration (settings (pending st)) (grid (pending st)) = Some next →
  decision st (Plain next) = Perturb cellsToFlip →
  advancePlain host timestamp (pending st) st rng
  = '(flipped, rng2) ← flipRandomCells next cellsToFlip rng;
    Some (Continues
      (setTargetGrid flipped
         (setFibonacciIndex (fibonacciIndexRef (refs st) + 1)
            (setStuckCounter (stuckCounterRef (refs st) + 1)
               (setStateHistory (stateHistoryRef (refs st)) st))))
      rng2).
Proof.
  intros Hmode Hnext Hperturb. unfold advancePlain. rewrite Hnext.
  cbn [mbind option_bind].
  unfold decision, recovery, displayedGrid in Hperturb.
  rewrite Hmode in Hperturb.
  rewrite (isEmpty_plain _ _ Hmode).
  destruct (grid (pending st) !! 0%nat) as [row0|] eqn:Hrow0.
  2:{ unfold nextGeneration in Hnext. by rewrite Hrow0 in Hnext. }
  unfold totalCells in Hperturb. rewrite Hrow0 in Hperturb.
  change (default [] (Some row0)) with row0 in Hperturb.
  destruct (bool_decide (¬ hasLiveCell _ _)) eqn:Hempty; [done|].
  apply bool_decide_eq_false_1 in Hempty.
  rewrite isSimulationStuck_unfold in Hperturb |- *.
  rewrite decide_True in Hperturb |- * by (by destruct (decide (hasLiveCell
    (settings (pending st)) (Plain next)))).
  case_decide; [|done]. cbn [fst negb] in Hperturb.
  destruct (hard_reset_on_stuck _); [done|].
  destruct (try_revive_stuck_sim _); [|done]. cbn [negb] in Hperturb |- *.
  cbn [mbind option_bind refs setStuckCounter setStateHistory withRefs
       stuckCounterRef fibonacciIndexRef].
  case_decide; [done|]. case_decide; [done|].
  by injection Hperturb as <-.
Qed.

Lemma proposedGrid_colored view rng next rng1 :
  color_mode (settings view) = true →
  proposedGrid view rng = Some (next, rng1) →
  ∃ grid',
    next = Colored grid'
    ∧ nextGenerationColored (settings view) (coloredGrid view) rng
      = Some (grid', rng1)
    ∧ length (coloredGrid view) ≠ 0%nat.
Proof.
  intros Hmode Hnext. unfold proposedGrid in Hnext. rewrite Hmode in Hnext.
  destruct (nextGenerationColored _ _ _) as [[grid' rng']|] eqn:Hgen; [|done].
  injection Hnext as <- <-. exists grid'. split_and!; [done..|].
  unfold nextGenerationColored in Hgen.
  by destruct (coloredGrid view).
Qed.

Lemma proposedGrid_plain view rng next rng1 :
  color_mode (settings view) = false →
  proposedGrid view rng = Some (next, rng1) →
  ∃ grid',
    next = Plain grid' ∧ rng1 = rng
    ∧ nextGeneration (settings view) (grid view) = Some grid'
    ∧ length (grid view) ≠ 0%nat.
Proof.
  intros Hmode Hnext. unfold proposedGrid in Hnext. rewrite Hmode in Hnext.
  destruct (nextGeneration _ _) as [grid'|] eqn:Hgen; [|done].
  injection Hnext as <- <-. exists grid'. split_and!; [done..|].
  unfold nextGeneration in Hgen. by destruct (grid view).
Qed.

(** A tick in which the controller decides to reset performs a full
    reset and returns. *)
Lemma tick_resets parseInt host timestamp st rng next rng1 :
  advances host timestamp st →
  proposedGrid (pending st) rng = Some (next, rng1) →
  (cell_size (settings (pending st)) + cell_padding (settings (pending st)))%Qc
    ≠ 0%Qc →
  decision st next = Reset →
  ∃ tick,
    gameLoop parseInt host timestamp st rng = Some tick
    ∧ fullReset host timestamp (pending st) rng1 tick.
Proof.
  intros Hadv Hnext Hpitch Hreset.
  pose proof Hadv as (_ & (canvas & Hcanvas & _) & _).
  destruct (color_mode (settings (pending st))) eqn:Hmode.
  - destruct (proposedGrid_colored _ _ _ _ Hmode Hnext)
      as (grid' & -> & Hgen & Hlen).
    rewrite (gameLoop_advances _ _ _ _ _ canvas) by (by rewrite ?Hmode).
    rewrite Hmode, (advanceColored_resets _ _ _ _ grid' rng1) by done.
    destruct (resetColored_fullReset host timestamp st rng1 Hmode Hpitch)
      as (tick & -> & Hfull).
    by exists tick.
  - destruct (proposedGrid_plain _ _ _ _ Hmode Hnext)
      as (grid' & -> & -> & Hgen & Hlen).
    rewrite (gameLoop_advances _ _ _ _ _ canvas) by (by rewrite ?Hmode).
    rewrite Hmode, (advancePlain_resets _ _ _ _ grid') by done.
    destruct (resetPlain_fullReset host timestamp st rng Hmode Hpitch)
      as (tick & -> & Hfull).
    by exists tick.
Qed.

(** C2.  A tick whose proposed grid has no live cell performs a full
    reset, whatever [hard_reset_on_stuck] and [try_revive_stuck_sim]
    are. *)
Theorem extinction_resets (parseInt : string → Z → option Z) (host : Host)
    (timestamp : Qc) (st : AppState) (rng rng1 : Rng) (next : AnyGrid) :
  advances host timestamp st →
  proposedGrid (pending st) rng = Some (next, rng1) →
  ¬ hasLiveCell (settings (pending st)) next →
  (cell_size (settings (pending st)) + cell_padding (settings (pending st)))%Qc
    ≠ 0%Qc →
  ∃ tick,
    gameLoop parseInt host timestamp st rng = Some tick
    ∧ fullReset host timestamp (pending st) rng1 tick.
Proof.
  intros Hadv Hnext Hdead Hpitch.
  apply (tick_resets _ _ _ _ _ next); try done.
  unfold decision, recovery. by rewrite bool_decide_eq_true_2.
Qed.

(** C5.  With [stuckCounter] at [max_revival_attempts], a stuck grid that
    has live cells forces a full reset when revival is on and the hard
    reset is off, whatever [fibonacciIndex] is. *)
Theorem exhausted_revival_resets (parseInt : string → Z → option Z)
    (host : Host) (timestamp : Qc) (st : AppState) (rng rng1 : Rng)
    (next : AnyGrid) :
  let s := settings (pending st) in
  advances host timestamp st →
  proposedGrid (pending st) rng = Some (next, rng1) →
  hasLiveCell s next →
  fst (isSimulationStuck s next (stateHistoryRef (refs st))) = true →
  try_revive_stuck_sim s = true →
  hard_reset_on_stuck s = false →
  stuckCounterRef (refs st) = max_revival_attempts s →
  (cell_size s + cell_padding s)%Qc ≠ 0%Qc →
  ∃ tick,
    gameLoop parseInt host timestamp st rng = Some tick
    ∧ fullReset host timestamp (pending st) rng1 tick.
Proof.
  intros s Hadv Hnext Hlive Hstuck Hrevive Hhard Hcounter Hpitch.
  apply (tick_resets _ _ _ _ _ next); try done.
  unfold decision, recovery. fold s.
  rewrite bool_decide_eq_false_2 by (by intros Hdead).
  rewrite Hstuck, Hhard, Hrevive, Hcounter. cbn [negb].
  rewrite decide_True by lia. done.
Qed.

Lemma settle_starts_fade timestamp view st rng :
  (0 < fade_amount (settings view))%Qc →
  (0 < simulation_speed (settings view) * fade_amount (settings view))%Qc →
  settle timestamp view st rng
  = Some (setLastUpdate timestamp
            (setFadeStartTime timestamp (setIsFading true st)), rng).
Proof.
  intros Hfade Htime. unfold settle.
  by rewrite !bool_decide_eq_true_2 by done.
Qed.

Lemma paint_still parseInt canvas timestamp view st h w :
  isFading view = false → anyShape (displayedGrid view) h w → (0 < h)%nat →
  ∃ cmds, paint parseInt canvas timestamp view st = Some (st, cmds).
Proof.
  intros Hstill Hshape Hh. unfold paint. rewrite Hstill.
  unfold displayedGrid in Hshape.
  destruct (color_mode (settings view)).
  - destruct (renderGrid_alone_some parseInt (settings view) canvas
                _ h w false 1%Qc Hshape Hh) as [cmds ->].
    by exists cmds.
  - destruct (renderGrid_alone_some parseInt (settings view) canvas
                _ h w false 1%Qc Hshape Hh) as [cmds ->].
    by exists cmds.
Qed.

(** A tick in which the controller decides to perturb, with the fade on,
    hands the perturbed grid to the fade as its target and leaves the
    grid on display as it was. *)
Lemma tick_perturbs parseInt host timestamp st rng next rng1 cellsToFlip h w :
  let s := settings (pending st) in
  advances host timestamp st →
  proposedGrid (pending st) rng = Some (next, rng1) →
  decision st next = Perturb cellsToFlip →
  (0 < fade_amount s)%Qc → (0 < simulation_speed s * fade_amount s)%Qc →
  anyShape (displayedGrid (pending st)) h w → (0 < h)%nat → (0 < w)%nat →
  rng_ok rng →
  ∃ tick flipped rng2,
    flippedGrid next cellsToFlip rng1 = Some (flipped, rng2)
    ∧ gameLoop parseInt host timestamp st rng = Some tick
    ∧ recoversThroughTarget (pending st) flipped tick
    ∧ isFading (pending (state tick)) = true.
Proof.
  intros s Hadv Hnext Hperturb Hfade Htime Hshape Hh Hw Hok.
  pose proof Hadv as (_ & (canvas & Hcanvas & _) & Hstill & _).
  destruct (paint_still parseInt canvas timestamp (pending st)) with
    (st := st) (h := h) (w := w) as [cmds0 _]; [done..|].
  unfold recoversThroughTarget, displayedGrid, fadeTargetGrid.
  unfold displayedGrid in Hshape. subst s.
  destruct (color_mode (settings (pending st))) eqn:Hmode.
  - destruct (proposedGrid_colored _ _ _ _ Hmode Hnext)
      as (grid' & -> & Hgen & Hlen).
    destruct (nextGenerationColored_spec (settings (pending st)) _ h w rng
                Hshape Hh Hw) as (grid'' & rng'' & Hrun & Hshape' & Hok' & _).
    rewrite Hgen in Hrun. injection Hrun as <- <-.
    destruct (flipRandomCellsColored_spec grid' h w cellsToFlip rng1
                Hshape' Hh Hw (Hok' Hok)) as (flipped & rng2 & Hflip & _).
    rewrite (gameLoop_advances _ _ _ _ _ canvas) by (by rewrite ?Hmode).
    rewrite Hmode, (advanceColored_perturbs _ _ _ _ grid' rng1 cellsToFlip)
      by done.
    cbn [flippedGrid]. rewrite Hflip. cbn [mbind option_bind].
    rewrite settle_starts_fade by done. cbn [mbind option_bind].
    match goal with
    | |- context [paint _ _ _ _ ?st1] =>
        destruct (paint_still parseInt canvas timestamp (pending st) st1 h w)
          as [cmds ->]; [done|by unfold displayedGrid; rewrite Hmode|done|]
    end.
    cbn [mbind option_bind]. eexists _, (Colored flipped), rng2.
    split; [reflexivity|]. split; [reflexivity|]. cbn. by rewrite Hmode.
  - destruct (proposedGrid_plain _ _ _ _ Hmode Hnext)
      as (grid' & -> & -> & Hgen & Hlen).
    destruct (nextGeneration_spec (settings (pending st)) _ h w
                Hshape Hh Hw) as (grid'' & Hrun & Hshape' & _).
    rewrite Hgen in Hrun. injection Hrun as <-.
    destruct (flipRandomCells_spec grid' h w cellsToFlip rng
                Hshape' Hh Hw Hok) as (flipped & rng2 & Hflip & _).
    rewrite (gameLoop_advances _ _ _ _ _ canvas) by (by rewrite ?Hmode).
    rewrite Hmode, (advancePlain_perturbs _ _ _ _ grid' cellsToFlip) by done.
    cbn [flippedGrid]. rewrite Hflip. cbn [mbind option_bind].
    rewrite settle_starts_fade by done. cbn [mbind option_bind].
    match goal with
    | |- context [paint _ _ _ _ ?st1] =>
        destruct (paint_still parseInt canvas timestamp (pending st) st1 h w)
          as [cmds ->]; [done|by unfold displayedGrid; rewrite Hmode|done|]
    end.
    cbn [mbind option_bind]. eexists _, (Plain flipped), rng2.
    split; [reflexivity|]. split; [reflexivity|]. cbn. by rewrite Hmode.
Qed.

(** C3, as the code has it.  A reset puts a fresh random grid on display
    and leaves nothing to fade to; a perturbation, with the fade on,
    becomes the target of the fade and leaves the grid on display as it
    was. *)
Theorem recovery_actions (parseInt : string → Z → option Z) (host : Host)
    (timestamp : Qc) (st : AppState) (rng rng1 : Rng) (next : AnyGrid)
    (h w : nat) :
  let s := settings (pending st) in
  advances host timestamp st →
  proposedGrid (pending st) rng = Some (next, rng1) →
  (cell_size s + cell_padding s)%Qc ≠ 0%Qc →
  match decision st next with
  | Reset =>
      ∃ tick,
        gameLoop parseInt host timestamp st rng = Some tick
        ∧ fullReset host timestamp (pending st) rng1 tick
  | Perturb cellsToFlip =>
      (0 < fade_amount s)%Qc → (0 < simulation_speed s * fade_amount s)%Qc →
      anyShape (displayedGrid (pending st)) h w → (0 < h)%nat → (0 < w)%nat →
      rng_ok rng →
      ∃ tick flipped rng2,
        flippedGrid next cellsToFlip rng1 = Some (flipped, rng2)
        ∧ gameLoop parseInt host timestamp st rng = Some tick
        ∧ recoversThroughTarget (pending st) flipped tick
        ∧ isFading (pending (state tick)) = true
  | Accept => True
  end.
Proof.
  intros s Hadv Hnext Hpitch.
  destruct (decision st next) as [| |cellsToFlip] eqn:Hdecision; [done| |].
  - by apply (tick_resets _ _ _ _ _ next).
  - intros. by eapply tick_perturbs.
Qed.

(** * The claims on sample inputs *)

Lemma sample_shape : shape block 4 4 ∧ shape loneCell 4 4 ∧ shape coloredBlock 4 4.
Proof. repeat split; repeat constructor. Qed.

Lemma sample_invariant : gridInvariant coloredBlock.
Proof.
  assert (∀ isAlive, cellInvariant (sampleCell isAlive)) as Hcell.
  { intros []; [apply cellInvariant_born|apply cellInvariant_dead]. }
  unfold coloredBlock, gridInvariant. repeat constructor; apply Hcell.
Qed.

Lemma sample_rng_ok : rng_ok sampleRng.
Proof. intros n. by split. Qed.

Lemma nextGeneration_follows_rule_witness :
  (shape block 4 4 ∧ (0 < 4)%nat
   ∧ ∃ grid',
       nextGeneration (sampleSettings false true) block = Some grid'
       ∧ ∀ x y, (x < 4)%nat → (y < 4)%nat →
           cellAt grid' x y
           = Some (lifeRule (plainAliveAt block (Z.of_nat x) (Z.of_nat y))
                     (liveNeighbors true (plainAliveAt block)
                        4 4 (Z.of_nat x) (Z.of_nat y))))
  ∧ (shape coloredBlock 4 4 ∧ gridInvariant coloredBlock
     ∧ ∃ grid' rng',
         nextGenerationColored (sampleSettings true true) coloredBlock
           sampleRng = Some (grid', rng')
         ∧ ∀ x y, (x < 4)%nat → (y < 4)%nat →
             alive <$> cellAt grid' x y
             = Some (lifeRule
                       (coloredAliveAt coloredBlock (Z.of_nat x) (Z.of_nat y))
                       (liveNeighbors true (coloredAliveAt coloredBlock)
                          4 4 (Z.of_nat x) (Z.of_nat y)))).
Proof.
  split.
  - split; [apply sample_shape|]. split; [lia|].
    apply (proj1 (nextGeneration_follows_rule (sampleSettings false true))
             block 4%nat 4%nat); [apply sample_shape|lia|lia].
  - split; [apply sample_shape|]. split; [apply sample_invariant|].
    apply (proj2 (nextGeneration_follows_rule (sampleSettings true true))
             coloredBlock 4%nat 4%nat sampleRng);
      [apply sample_shape|lia|lia|apply sample_invariant].
Defined.

Lemma sample_advances current history counter index :
  advances sampleHost (Qc_of_Z 2000) (sampleState current history counter index).
Proof.
  split_and!; [done|by eexists|done|]. by vm_compute.
Qed.

Lemma sample_pitch colorMode wrap :
  (cell_size (sampleSettings colorMode wrap)
   + cell_padding (sampleSettings colorMode wrap))%Qc ≠ 0%Qc.
Proof. by intros ?%(f_equal this). Qed.

Lemma extinction_resets_witness :
  let st := sampleState loneCell [] 0 0 in
  advances sampleHost (Qc_of_Z 2000) st
  ∧ proposedGrid (pending st) sampleRng = Some (Plain allDead, sampleRng)
  ∧ ¬ hasLiveCell (settings (pending st)) (Plain allDead)
  ∧ ∃ tick,
      gameLoop sampleParseInt sampleHost (Qc_of_Z 2000) st sampleRng = Some tick
      ∧ fullReset sampleHost (Qc_of_Z 2000) (pending st) sampleRng tick.
Proof.
  intros st.
  assert (proposedGrid (pending st) sampleRng = Some (Plain allDead, sampleRng))
    as Hnext by (by vm_compute).
  assert (¬ hasLiveCell (settings (pending st)) (Plain allDead)) as Hdead.
  { apply (bool_decide_eq_false_1 _). by vm_compute. }
  split; [apply sample_advances|]. split; [exact Hnext|]. split; [exact Hdead|].
  apply (extinction_resets sampleParseInt sampleHost (Qc_of_Z 2000) st
           sampleRng sampleRng (Plain allDead));
    [apply sample_advances|exact Hnext|exact Hdead|apply sample_pitch].
Defined.

Lemma exhausted_revival_resets_witness :
  let st := sampleState block [fingerprint (sampleSettings false false)
                                 (Plain block)] 5 7 in
  let s := settings (pending st) in
  advances sampleHost (Qc_of_Z 2000) st
  ∧ proposedGrid (pending st) sampleRng = Some (Plain block, sampleRng)
  ∧ hasLiveCell s (Plain block)
  ∧ fst (isSimulationStuck s (Plain block) (stateHistoryRef (refs st))) = true
  ∧ stuckCounterRef (refs st) = max_revival_attempts s
  ∧ ∃ tick,
      gameLoop sampleParseInt sampleHost (Qc_of_Z 2000) st sampleRng = Some tick
      ∧ fullReset sampleHost (Qc_of_Z 2000) (pending st) sampleRng tick.
Proof.
  intros st s.
  assert (proposedGrid (pending st) sampleRng = Some (Plain block, sampleRng))
    as Hnext by (by vm_compute).
  assert (hasLiveCell s (Plain block)) as Hlive.
  { apply (bool_decide_eq_true_1 _). by vm_compute. }
  assert (fst (isSimulationStuck s (Plain block) (stateHistoryRef (refs st)))
          = true) as Hstuck by (by vm_compute).
  split; [apply sample_advances|]. split; [exact Hnext|].
  split; [exact Hlive|]. split; [exact Hstuck|]. split; [reflexivity|].
  apply (exhausted_revival_resets sampleParseInt sampleHost (Qc_of_Z 2000) st
           sampleRng sampleRng (Plain block));
    [apply sample_advances|exact Hnext|exact Hlive|exact Hstuck
    |reflexivity|reflexivity|reflexivity|apply sample_pitch].
Defined.

(** C3 as the specification states it fails: on extinction the tick
    replaces the grid on display by the fresh grid and leaves the target
    of the fade empty, instead of fading towards the fresh grid. *)
Lemma reset_replaces_displayed_grid :
  let st := sampleState loneCell [] 0 0 in
  ∃ tick,
    gameLoop sampleParseInt sampleHost (Qc_of_Z 2000) st sampleRng = Some tick
    ∧ decision st (Plain allDead) = Reset
    ∧ fst (freshGrid (settings (pending st))
             {| width := 4; height := 4 |} sampleRng) = Plain allAlive
    ∧ displayedGrid (pending (state tick)) = Plain allAlive
    ∧ fadeTargetGrid (pending (state tick)) = Plain []
    ∧ ¬ recoversThroughTarget (pending st) (Plain allAlive) tick.
Proof.
  intros st. eexists. split; [by vm_compute|].
  split; [by vm_compute|]. split; [by vm_compute|].
  split; [by vm_compute|]. split; [by vm_compute|].
  intros [Hdisplayed _]. vm_compute in Hdisplayed. discriminate.
Qed.

Lemma recovery_actions_witness :
  let st := sampleState block [fingerprint (sampleSettings false false)
                                 (Plain block)] 0 0 in
  let s := settings (pending st) in
  advances sampleHost (Qc_of_Z 2000) st
  ∧ proposedGrid (pending st) sampleRng = Some (Plain block, sampleRng)
  ∧ decision st (Plain block) = Perturb 1
  ∧ (0 < fade_amount s)%Qc
  ∧ anyShape (displayedGrid (pending st)) 4 4
  ∧ rng_ok sampleRng
  ∧ ∃ tick flipped rng2,
      flippedGrid (Plain block) 1 sampleRng = Some (flipped, rng2)
      ∧ gameLoop sampleParseInt sampleHost (Qc_of_Z 2000) st sampleRng
        = Some tick
      ∧ recoversThroughTarget (pending st) flipped tick
      ∧ isFading (pending (state tick)) = true.
Proof.
  intros st s.
  assert (proposedGrid (pending st) sampleRng = Some (Plain block, sampleRng))
    as Hnext by (by vm_compute).
  assert (decision st (Plain block) = Perturb 1) as Hdecision
    by (by vm_compute).
  split; [apply sample_advances|]. split; [exact Hnext|].
  split; [exact Hdecision|]. split; [reflexivity|].
  split; [apply sample_shape|]. split; [apply sample_rng_ok|].
  pose proof (recovery_actions sampleParseInt sampleHost (Qc_of_Z 2000) st
                sampleRng sampleRng (Plain block) 4 4
                (sample_advances _ _ _ _) Hnext (sample_pitch _ _)) as Hactions.
  rewrite Hdecision in Hactions.
  apply Hactions; [reflexivity|reflexivity|apply sample_shape|lia|lia
                  |apply sample_rng_ok].
Defined.

Lemma isSimulationStuck_recent_window_witness :
  let s := sampleSettings false false in
  let history := historyAfter s [] [Plain block] in
  let log := recorded s [] [Plain block] in
  hasLiveCell s (Plain loneCell)
  ∧ (fingerprint s (Plain loneCell) ∉ mostRecent 10 log)
  ∧ fst (isSimulationStuck s (Plain loneCell) history) = false
  ∧ snd (isSimulationStuck s (Plain loneCell) history)
    = mostRecent 10 (log ++ [fingerprint s (Plain loneCell)]).
Proof.
  intros s history log.
  assert (hasLiveCell s (Plain loneCell)) as Hlive.
  { apply (bool_decide_eq_true_1 _). by vm_compute. }
  assert (fingerprint s (Plain loneCell) ∉ mostRecent 10 log) as Hfresh.
  { apply (bool_decide_eq_false_1 _). by vm_compute. }
  split; [exact Hlive|]. split; [exact Hfresh|].
  apply (isSimulationStuck_recent_window s [Plain block] (Plain loneCell));
    [exact Hlive|exact Hfresh].
Defined.

Lemma renderGrid_fade_endpoints_witness :
  let s := sampleSettings false false in
  let canvas := {| canvas_width := Qc_of_Z 116; canvas_height := Qc_of_Z 116;
                   context2d := true |} in
  anyShape (Plain block) 4 4 ∧ anyShape (Plain loneCell) 4 4
  ∧ (0 < fade_amount s)%Qc
  ∧ ∃ currentFrame targetFrame,
      renderGrid sampleParseInt s false canvas (Plain block) None 1
        = Some currentFrame
      ∧ renderGrid sampleParseInt s false canvas (Plain loneCell) None 1
        = Some targetFrame
      ∧ renderGrid sampleParseInt s true canvas (Plain block)
          (Some (Plain loneCell)) 0 = Some currentFrame
      ∧ renderGrid sampleParseInt s true canvas (Plain block)
          (Some (Plain loneCell)) 1 = Some targetFrame.
Proof.
  intros s canvas. split; [apply sample_shape|]. split; [apply sample_shape|].
  split; [reflexivity|].
  apply (renderGrid_fade_endpoints sampleParseInt s canvas (Plain block)
           (Plain loneCell) 4 4 false 1%Qc);
    [apply sample_shape|apply sample_shape|lia|reflexivity].
Defined.


Lemma averageColorsWeighted_equal_ages_witness :
  sampleColors ≠ [] ∧ length [3; 3] = length sampleColors
  ∧ averageColorsWeighted sampleColors [3; 3] = averageColors sampleColors.
Proof.
  split; [done|]. split; [reflexivity|].
  apply (averageColorsWeighted_equal_ages sampleColors [3; 3] 3);
    [done|reflexivity|].
  intros x Hx. repeat (apply elem_of_cons in Hx as [->|Hx]; [reflexivity|]).
  by apply elem_of_nil in Hx.
Defined.

Lemma cell_invariant_kept_witness :
  let s := sampleSettings true true in
  shape coloredBlock 4 4 ∧ gridInvariant coloredBlock ∧ rng_ok sampleRng
  ∧ (∃ grid' rng',
       nextGenerationColored s coloredBlock sampleRng = Some (grid', rng')
       ∧ gridInvariant grid')
  ∧ (∃ grid' rng',
       flipRandomCellsColored coloredBlock 3 sampleRng = Some (grid', rng')
       ∧ gridInvariant grid').
Proof.
  intros s. split; [apply sample_shape|]. split; [apply sample_invariant|].
  split; [apply sample_rng_ok|]. split.
  - apply (proj1 (proj2 (cell_invariant_kept s)) coloredBlock 4%nat 4%nat);
      [apply sample_shape|lia|lia|apply sample_invariant].
  - apply (proj2 (proj2 (cell_invariant_kept s)) coloredBlock 4%nat 4%nat);
      [apply sample_shape|lia|lia|apply sample_rng_ok|apply sample_invariant].
Defined.

Lemma dimensions_kept_witness :
  let s := sampleSettings false true in
  shape block 4 4 ∧ shape coloredBlock 4 4 ∧ rng_ok sampleRng
  ∧ (∃ grid', nextGeneration s block = Some grid' ∧ shape grid' 4 4)
  ∧ (∃ grid' rng',
       nextGenerationColored s coloredBlock sampleRng = Some (grid', rng')
       ∧ shape grid' 4 4)
  ∧ (∃ grid' rng',
       flipRandomCells block 3 sampleRng = Some (grid', rng')
       ∧ shape grid' 4 4)
  ∧ (∃ grid' rng',
       flipRandomCellsColored coloredBlock 3 sampleRng = Some (grid', rng')
       ∧ shape grid' 4 4).
Proof.
  intros s.
  destruct (dimensions_kept s 4 4 ltac:(lia) ltac:(lia))
    as (Hnext & Hcolored & Hflip & Hflipc).
  split; [apply sample_shape|]. split; [apply sample_shape|].
  split; [apply sample_rng_ok|]. split_and!.
  - apply Hnext, sample_shape.
  - apply Hcolored, sample_shape.
  - apply Hflip; [apply sample_shape|apply sample_rng_ok].
  - apply Hflipc; [apply sample_shape|apply sample_rng_ok].
Defined.

(** * Further properties of the code *)

(** ** Fibonacci escalation *)

Lemma fibonacci_iter_step (k : nat) :
  Nat.iter (S k) (λ '(a, b), (b, a + b)) (1, 1)
  = (snd (Nat.iter k (λ '(a, b), (b, a + b)) (1, 1)),
     fst (Nat.iter k (λ '(a, b), (b, a + b)) (1, 1))
     + snd (Nat.iter k (λ '(a, b), (b, a + b)) (1, 1))).
Proof. simpl. by destruct (Nat.iter k _ _). Qed.

Lemma fibonacci_iter_positive (k : nat) :
  0 < fst (Nat.iter k (λ '(a, b), (b, a + b)) (1, 1))
  ∧ 0 < snd (Nat.iter k (λ '(a, b), (b, a + b)) (1, 1)).
Proof.
  induction k as [|k [IHa IHb]]; [done|].
  rewrite fibonacci_iter_step. simpl. lia.
Qed.



(** ** Colours *)

Lemma round_mono (p q : Qc) : (p ≤ q)%Qc → JS.round p ≤ JS.round q.
Proof.
  intros Hpq. unfold JS.round. apply Qfloor_resp_le.
  by apply Qcplus_le_mono_r.
Qed.

Lemma Qc_of_Z_div_bounds (lo hi sum n : Z) :
  0 < n → n * lo ≤ sum ≤ n * hi →
  (Qc_of_Z lo ≤ Qc_of_Z sum / Qc_of_Z n ∧ Qc_of_Z sum / Qc_of_Z n ≤ Qc_of_Z hi)%Qc.
Proof.
  intros Hn [Hlo Hhi].
  assert (0 < Qc_of_Z n)%Qc as Hpos.
  { rewrite <- Z2Qc_inj_0. by apply (proj1 (Z2Qc_inj_lt 0 n)). }
  assert (Qc_of_Z sum / Qc_of_Z n * Qc_of_Z n = Qc_of_Z sum)%Qc as Hcancel.
  { field. by apply Qclt_not_eq in Hpos as ?%not_eq_sym. }
  split; apply (Qcmult_le_mono_pos_r _ _ (Qc_of_Z n) Hpos);
    rewrite Hcancel, <- Z2Qc_inj_mul; apply Qc_of_Z_le; lia.
Qed.

(** A rounded quotient stays between integer bounds of the quotient. *)
Lemma round_div_within (lo hi sum n : Z) :
  0 < n → n * lo ≤ sum ≤ n * hi →
  lo ≤ JS.round (Qc_of_Z sum / Qc_of_Z n) ≤ hi.
Proof.
  intros Hn Hsum.
  destruct (Qc_of_Z_div_bounds lo hi sum n Hn Hsum) as [Hlo Hhi].
  split.
  - rewrite <- (round_int lo) at 1. by apply round_mono.
  - rewrite <- (round_int hi). by apply round_mono.
Qed.

Lemma random_channel (d : Qc) :
  (0 ≤ d ∧ d < 1)%Qc → 0 ≤ JS.floor (d * Qc_of_Z 256) ≤ 255.
Proof.
  intros Hd. destruct (floor_random_index d 256 Hd ltac:(lia)) as (k & Hk & Hlt).
  change (Z.of_nat 256) with 256 in Hk. rewrite Hk. lia.
Qed.

Lemma generateRandomColor_within (rng : Rng) :
  rng_ok rng → channelsWithin 0 255 (fst (generateRandomColor rng)).
Proof.
  intros Hok. unfold generateRandomColor, channelsWithin. simpl.
  split_and!; apply random_channel, Hok.
Qed.

Lemma generateTweakedColor_cases (base : CellColor) (rng : Rng) :
  rng_ok rng →
  ∃ extreme,
    (extreme = 0 ∨ extreme = 255)
    ∧ (fst (generateTweakedColor base rng)
         = {| r := extreme; g := g base; b := b base |}
       ∨ fst (generateTweakedColor base rng)
         = {| r := r base; g := extreme; b := b base |}
       ∨ fst (generateTweakedColor base rng)
         = {| r := r base; g := g base; b := extreme |}).
Proof.
  intros Hok. unfold generateTweakedColor. simpl.
  destruct (floor_random_index (rng 0%nat) 3 (Hok _) ltac:(lia))
    as (k & Hk & Hlt).
  change (Z.of_nat 3) with 3 in Hk. rewrite Hk.
  exists (if decide (rng 1%nat < Q2Qc (1 # 2))%Qc then 0 else 255).
  split; [case_decide; auto|].
  destruct k as [|[|[|k]]]; [auto..|lia].
Qed.

Lemma generateTweakedColor_within (base : CellColor) (rng : Rng) :
  rng_ok rng → channelsWithin 0 255 base →
  channelsWithin 0 255 (fst (generateTweakedColor base rng)).
Proof.
  intros Hok (Hr & Hg & Hb).
  destruct (generateTweakedColor_cases base rng Hok)
    as (extreme & Hextreme & [-> | [-> | ->]]);
    unfold channelsWithin; cbn [r g b]; split_and!; lia.
Qed.

(** X2.  With draws in [[0, 1)], [generateRandomColor] yields channels in
    [[0, 255]], and [generateTweakedColor] keeps two channels of its base
    colour and sets the third to 0 or to 255. *)
Theorem random_colors_in_range (rng : Rng) (base : CellColor) :
  rng_ok rng →
  channelsWithin 0 255 (fst (generateRandomColor rng))
  ∧ ∃ extreme,
      (extreme = 0 ∨ extreme = 255)
      ∧ (fst (generateTweakedColor base rng)
           = {| r := extreme; g := g base; b := b base |}
         ∨ fst (generateTweakedColor base rng)
           = {| r := r base; g := extreme; b := b base |}
         ∨ fst (generateTweakedColor base rng)
           = {| r := r base; g := g base; b := extreme |}).
Proof.
  intros Hok. split.
  - by apply generateRandomColor_within.
  - by apply generateTweakedColor_cases.
Qed.


Lemma random_colors_in_range_witness :
  rng_ok sampleRng
  ∧ channelsWithin 0 255 (fst (generateRandomColor sampleRng)).
Proof.
  split; [apply sample_rng_ok|].
  apply (proj1 (random_colors_in_range sampleRng black sample_rng_ok)).
Defined.

Lemma sum_within (f : CellColor → Z) (lo hi : Z) (colors : list CellColor) :
  (∀ c, c ∈ colors → lo ≤ f c ≤ hi) →
  Z.of_nat (length colors) * lo ≤ foldr Z.add 0 (f <$> colors)
  ≤ Z.of_nat (length colors) * hi.
Proof.
  induction colors as [|c colors IH]; intros Hall; [simpl; lia|].
  rewrite fmap_cons. cbn [foldr length].
  pose proof (Hall c ltac:(left)).
  assert (∀ c', c' ∈ colors → lo ≤ f c' ≤ hi) as Hrest
    by (intros; apply Hall; by right).
  specialize (IH Hrest). lia.
Qed.

Lemma weight_positive (ages : list Z) (index : nat) :
  (∀ a, a ∈ ages → 0 ≤ a) → 1 ≤ JS.or_else (ages !! index) 1.
Proof.
  intros Hages. unfold JS.or_else.
  destruct (ages !! index) as [a|] eqn:Ha; [|done].
  apply list_elem_of_lookup_2, Hages in Ha. case_decide; lia.
Qed.

Lemma weighted_reduce_within (ages : list Z) (lo hi : Z) colors index acc total :
  (∀ a, a ∈ ages → 0 ≤ a) →
  (∀ c, c ∈ colors → channelsWithin lo hi c) →
  0 ≤ total →
  total * lo ≤ r acc ≤ total * hi →
  total * lo ≤ g acc ≤ total * hi →
  total * lo ≤ b acc ≤ total * hi →
  ∃ acc' total',
    JS.reduce_from (λ '(acc, totalWeight) color index,
      let weight := JS.or_else (ages !! index) 1 in
      ({| r := r acc + r color * weight;
          g := g acc + g color * weight;
          b := b acc + b color * weight |}, totalWeight + weight))
      index colors (acc, total) = (acc', total')
    ∧ total + Z.of_nat (length colors) ≤ total'
    ∧ total' * lo ≤ r acc' ≤ total' * hi
    ∧ total' * lo ≤ g acc' ≤ total' * hi
    ∧ total' * lo ≤ b acc' ≤ total' * hi.
Proof.
  intros Hages. revert index acc total.
  induction colors as [|c colors IH]; intros index acc total Hall Htotal Hr Hg Hb.
  - exists acc, total. split; [done|]. cbn [length]. split_and!; lia.
  - cbn [JS.reduce_from].
    pose proof (weight_positive ages index Hages) as Hw.
    destruct (Hall c ltac:(left)) as (Hcr & Hcg & Hcb).
    generalize dependent (JS.or_else (ages !! index) 1). intros weight Hw.
    edestruct (IH (S index)
      {| r := r acc + r c * weight; g := g acc + g c * weight;
         b := b acc + b c * weight |} (total + weight))
      as (acc' & total' & Hrun & Hlen & Hr' & Hg' & Hb').
    + intros. apply Hall. by right.
    + lia.
    + simpl. nia.
    + simpl. nia.
    + simpl. nia.
    + exists acc', total'. split; [done|]. cbn [length]. split_and!; lia.
Qed.

Lemma averageColors_within (lo hi : Z) (colors : list CellColor) :
  colors ≠ [] → (∀ c, c ∈ colors → channelsWithin lo hi c) →
  channelsWithin lo hi (averageColors colors).
Proof.
  intros Hne Hall.
  assert (length colors ≠ 0%nat) as Hlen by (by destruct colors).
  unfold averageColors, JS.reduce. rewrite decide_False by done.
  rewrite averageColors_sum. unfold channelsWithin. cbn [r g b black].
  split; [|split]; apply round_div_within; try lia; rewrite Z.add_0_l.
  - apply (sum_within r). intros c Hc. apply (Hall c Hc).
  - apply (sum_within g). intros c Hc. apply (Hall c Hc).
  - apply (sum_within b). intros c Hc. apply (Hall c Hc).
Qed.

Lemma averageColorsWeighted_within (lo hi : Z) (colors : list CellColor)
    (ages : list Z) :
  colors ≠ [] → (∀ c, c ∈ colors → channelsWithin lo hi c) →
  (∀ a, a ∈ ages → 0 ≤ a) →
  channelsWithin lo hi (averageColorsWeighted colors ages).
Proof.
  intros Hne Hall Hages.
  assert (length colors ≠ 0%nat) as Hlen by (by destruct colors).
  unfold averageColorsWeighted, JS.reduce. rewrite decide_False by done.
  case_decide; [by apply averageColors_within|].
  destruct (weighted_reduce_within ages lo hi colors 0 black 0 Hages Hall)
    as (acc' & total' & Hrun & Hlen' & Hr & Hg & Hb); [simpl; lia..|].
  match goal with
  | |- context [JS.reduce_from ?f 0%nat colors (black, 0)] =>
      assert (Hrun' : JS.reduce_from f 0%nat colors (black, 0) = (acc', total'))
        by exact Hrun; rewrite Hrun'
  end.
  unfold channelsWithin. cbn [r g b].
  split; [|split]; apply round_div_within; lia.
Qed.

(** X3.  Inherited colours stay within the channel bounds of the colours
    they are averaged from: [averageColors] always, and
    [averageColorsWeighted] for ages that are not negative, whatever the
    length of the age list. *)
Theorem averages_within_bounds (lo hi : Z) (colors : list CellColor)
    (ages : list Z) :
  colors ≠ [] →
  (∀ c, c ∈ colors → channelsWithin lo hi c) →
  channelsWithin lo hi (averageColors colors)
  ∧ ((∀ a, a ∈ ages → 0 ≤ a) →
     channelsWithin lo hi (averageColorsWeighted colors ages)).
Proof.
  intros Hne Hall. split.
  - by apply averageColors_within.
  - intros Hages. by apply averageColorsWeighted_within.
Qed.

Lemma sample_colors_within (c : CellColor) :
  c ∈ sampleColors → channelsWithin 0 255 c.
Proof.
  unfold sampleColors. intros Hc.
  repeat (apply elem_of_cons in Hc as [->|Hc]);
    [unfold channelsWithin; simpl; lia..|].
  by apply elem_of_nil in Hc.
Qed.

Lemma averages_within_bounds_witness :
  sampleColors ≠ []
  ∧ channelsWithin 0 255 (averageColors sampleColors)
  ∧ channelsWithin 0 255 (averageColorsWeighted sampleColors [3; 0]).
Proof.
  destruct (averages_within_bounds 0 255 sampleColors [3; 0])
    as [Hplain Hweighted]; [done|apply sample_colors_within|].
  split; [done|]. split; [exact Hplain|]. apply Hweighted.
  intros a Ha. repeat (apply elem_of_cons in Ha as [->|Ha]); [lia..|].
  by apply elem_of_nil in Ha.
Defined.

Lemma min_le_l (a b : Qc) : (JS.min a b ≤ a)%Qc.
Proof.
  unfold JS.min. case_decide as Hle; [apply Qcle_refl|].
  by apply Qclt_le_weak, Qcnot_le_lt.
Qed.

Lemma enhanceChannel_range (center scale : Qc) (channel : Z) :
  0 ≤ enhanceChannel center scale channel ≤ 255.
Proof.
  unfold enhanceChannel. split.
  - transitivity (JS.round (Qc_of_Z 0)); [rewrite round_int; lia|].
    apply round_mono. rewrite Z2Qc_inj_0. unfold JS.max.
    case_decide as Hle; [exact Hle|apply Qcle_refl].
  - transitivity (JS.round (Qc_of_Z 255)); [|rewrite round_int; lia].
    apply round_mono. unfold JS.max.
    case_decide as Hle; [apply min_le_l|].
    apply Qc_of_Z_nonneg. lia.
Qed.

Lemma enhanceColorSaturation_within settings color age :
  channelsWithin 0 255 (enhanceColorSaturation settings color age).
Proof. split; [|split]; apply enhanceChannel_range. Qed.

(** X4.  With a [max_saturation_age] that is not zero (it divides the
    age), [enhanceColorSaturation] always yields channels in [[0, 255]],
    and leaves a grey colour (three equal channels in that range) as it
    is, at every age. *)
Theorem enhanceColorSaturation_range (settings : GameSettings)
    (color : CellColor) (age : Z) :
  max_saturation_age settings ≠ 0%Qc →
  channelsWithin 0 255 (enhanceColorSaturation settings color age)
  ∧ (0 ≤ r color ≤ 255 → g color = r color → b color = r color →
     enhanceColorSaturation settings color age = color).
Proof.
  intros _. split; [apply enhanceColorSaturation_within|].
  destruct color as [cr cg cb]. simpl. intros Hr -> ->.
  unfold enhanceColorSaturation. cbn [r g b].
  assert (∀ scale,
            enhanceChannel (Qc_of_Z (cr + cr + cr) / Qc_of_Z 3) scale cr = cr)
    as Hgrey.
  { intros scale. unfold enhanceChannel.
    replace (Qc_of_Z (cr + cr + cr) / Qc_of_Z 3)%Qc with (Qc_of_Z cr).
    2:{ replace (cr + cr + cr) with (cr * 3) by lia.
        rewrite Z2Qc_inj_mul. field. by apply Qc_of_Z_nonzero. }
    replace (Qc_of_Z cr + (Qc_of_Z cr - Qc_of_Z cr) * scale)%Qc
      with (Qc_of_Z cr) by ring.
    rewrite min_r by (apply Qc_of_Z_le; lia).
    rewrite max_r by (apply Qc_of_Z_nonneg; lia).
    apply round_int. }
  by rewrite !Hgrey.
Qed.

Lemma enhanceColorSaturation_range_witness :
  let grey := {| r := 100; g := 100; b := 100 |} in
  max_saturation_age (sampleSettings true true) ≠ 0%Qc
  ∧ 0 ≤ r grey ≤ 255
  ∧ enhanceColorSaturation (sampleSettings true true) grey 7 = grey.
Proof.
  intros grey.
  assert (max_saturation_age (sampleSettings true true) ≠ 0%Qc) as Hmax
    by (by intros ?%(f_equal this)).
  split; [exact Hmax|]. split; [simpl; lia|].
  apply (proj2 (enhanceColorSaturation_range (sampleSettings true true)
                  grey 7 Hmax)); [simpl; lia|reflexivity|reflexivity].
Defined.

(** ** Grid dimensions *)

Lemma Qc_of_Z_pos (n : Z) : 0 < n → (0 < Qc_of_Z n)%Qc.
Proof.
  intros Hn. rewrite <- Z2Qc_inj_0. by apply (proj1 (Z2Qc_inj_lt 0 n)).
Qed.




(** ** Neighbour counts *)

(** An invariant kept by every iteration that completes holds of the
    result of a loop that completes. *)
Lemma for_each_keeps {A S} (I : S → Prop) (l : list A)
    (body : A → S → option S) (s s' : S) :
  (∀ a s s', a ∈ l → I s → body a s = Some s' → I s') →
  I s → JS.for_each l body s = Some s' → I s'.
Proof.
  revert s. induction l as [|a l IH]; intros s Hbody Hs Hrun.
  - by injection Hrun as <-.
  - cbn [JS.for_each] in Hrun. destruct (body a s) as [s1|] eqn:Hstep; [|done].
    apply (IH s1); [|by eapply Hbody; [left|..]|done].
    intros a' s2 s3 Ha'. apply Hbody. by right.
Qed.

Lemma liveAtOffset_range wrap isLive h w x y offset :
  0 ≤ liveAtOffset wrap isLive h w x y offset ≤ 1.
Proof.
  unfold liveAtOffset. destruct offset as [i j].
  destruct wrap; [|case_decide]; try destruct (isLive _ _); lia.
Qed.

Lemma liveNeighbors_range wrap isLive h w x y :
  0 ≤ liveNeighbors wrap isLive h w x y ≤ 8.
Proof.
  unfold liveNeighbors, neighborhood. cbn [fmap list_fmap foldr].
  repeat match goal with
         | |- context [liveAtOffset wrap isLive h w x y ?o] =>
             let H := fresh in
             pose proof (liveAtOffset_range wrap isLive h w x y o) as H;
             generalize dependent (liveAtOffset wrap isLive h w x y o); intros
         end.
  lia.
Qed.

(** The lists of [countNeighborsColored] grow together with its count,
    one colour and one age for each neighbour counted. *)
Lemma countNeighborsColored_lists settings (grid : ColoredGridState) x y n :
  countNeighborsColored settings grid x y = Some n →
  Z.of_nat (length (colors n)) = count n
  ∧ length (ages n) = length (colors n)
  ∧ Forall2 (reportedFrom grid) (colors n) (ages n).
Proof.
  unfold countNeighborsColored.
  destruct (grid !! 0%nat) as [row0|]; [|done]. cbn [mbind option_bind].
  set (I := λ acc : Neighbors,
    Z.of_nat (length (colors acc)) = count acc
    ∧ length (ages acc) = length (colors acc)
    ∧ Forall2 (reportedFrom grid) (colors acc) (ages acc)).
  apply (for_each_keeps I).
  2:{ unfold I. simpl. split_and!; [done..|constructor]. }
  intros i acc acc' _. apply (for_each_keeps I). clear acc acc'.
  intros j acc acc' _ (Hcount & Hlen & Hfrom) Hstep. unfold I.
  case_decide; [by injection Hstep as <-|].
  destruct (neighborAt _ _ _ _ _ _ _) as [[newX newY]|];
    [|by injection Hstep as <-].
  destruct (JS.get grid newX) as [row|] eqn:Hrow; [|done].
  cbn [mbind option_bind] in Hstep.
  destruct (JS.get row newY) as [cell|] eqn:Hcell; [|done].
  cbn [mbind option_bind] in Hstep.
  destruct (alive cell) eqn:Halive; [|by injection Hstep as <-].
  destruct (color cell) as [c|] eqn:Hcolor; [|by injection Hstep as <-].
  injection Hstep as <-. cbn [count colors ages].
  rewrite !length_app. cbn [length]. split_and!; [lia|lia|].
  apply Forall2_app; [done|]. constructor; [|constructor].
  unfold JS.get in Hrow, Hcell.
  destruct newX as [newX|]; [|done]. destruct newY as [newY|]; [|done].
  repeat case_decide; try done.
  exists (Z.to_nat newX), (Z.to_nat newY), cell.
  unfold cellAt. rewrite Hrow. by cbn [mbind option_bind].
Qed.

(** X6.  On a cell of a rectangular grid both neighbour counters answer
    with a count between 0 and 8; the coloured one reports exactly one
    colour and one age for each neighbour it counts, taken from a live,
    coloured cell of the grid. *)
Theorem neighbor_counts_bounded (settings : GameSettings) (h w x y : nat) :
  (x < h)%nat → (y < w)%nat →
  (∀ grid : GridState, shape grid h w →
     ∃ n, countNeighbors settings grid (Z.of_nat x) (Z.of_nat y) = Some n
       ∧ 0 ≤ n ≤ 8)
  ∧ (∀ grid : ColoredGridState, shape grid h w →
       ∃ n,
         countNeighborsColored settings grid (Z.of_nat x) (Z.of_nat y) = Some n
         ∧ 0 ≤ count n ≤ 8
         ∧ Z.of_nat (length (colors n)) = count n
         ∧ length (ages n) = length (colors n)
         ∧ Forall2 (reportedFrom grid) (colors n) (ages n)).
Proof.
  intros Hx Hy. split.
  - intros grid Hs. eexists. split; [by apply countNeighbors_spec|].
    apply liveNeighbors_range.
  - intros grid Hs.
    destruct (countNeighborsColored_spec settings grid h w x y)
      as (n & Hn & Hcount); [done..|].
    exists n. split; [done|]. split.
    + rewrite Hcount. apply liveNeighbors_range.
    + by eapply countNeighborsColored_lists.
Qed.

Lemma neighbor_counts_bounded_witness :
  (1 < 4)%nat
  ∧ shape block 4 4
  ∧ ∃ n, countNeighbors (sampleSettings false true) block 1 1 = Some n
      ∧ 0 ≤ n ≤ 8.
Proof.
  split; [lia|]. split; [apply sample_shape|].
  apply (proj1 (neighbor_counts_bounded (sampleSettings false true) 4 4 1 1
                  ltac:(lia) ltac:(lia)) block).
  apply sample_shape.
Defined.

(** ** Topology *)

(** Away from the border the two topologies inspect the same cell. *)
Lemma neighborAt_inside (s1 s2 : GameSettings) (h w x y : nat) (i j : Z) :
  (0 < x)%nat → (x + 1 < h)%nat → (0 < y)%nat → (y + 1 < w)%nat →
  -1 ≤ i ≤ 1 → -1 ≤ j ≤ 1 →
  neighborAt s1 (Z.of_nat h) (Z.of_nat w) (Z.of_nat x) (Z.of_nat y) i j
  = neighborAt s2 (Z.of_nat h) (Z.of_nat w) (Z.of_nat x) (Z.of_nat y) i j.
Proof.
  intros Hx0 Hx1 Hy0 Hy1 Hi Hj.
  assert (∀ s,
    neighborAt s (Z.of_nat h) (Z.of_nat w) (Z.of_nat x) (Z.of_nat y) i j
    = Some (Some (Z.of_nat x + i), Some (Z.of_nat y + j))) as Hsame.
  { intros s. unfold neighborAt. cbn zeta. destruct (edge_wrapping s).
    - unfold JS.rem. rewrite !decide_False by lia.
      rewrite !Z.rem_mod_nonneg by lia.
      replace (Z.of_nat x + i + Z.of_nat h)
        with (Z.of_nat x + i + 1 * Z.of_nat h) by lia.
      replace (Z.of_nat y + j + Z.of_nat w)
        with (Z.of_nat y + j + 1 * Z.of_nat w) by lia.
      by rewrite !Z_mod_plus_full, !Z.mod_small by lia.
    - by rewrite decide_False by lia. }
  by rewrite !Hsame.
Qed.

(** X7.  For a cell that is not on the border of the grid the topology
    makes no difference: under any two settings both neighbour counters
    return the same result, and the standard next generation holds the same
    cell there. *)
Theorem topology_agrees_inside (s1 s2 : GameSettings) (h w x y : nat) :
  (0 < x)%nat → (x + 1 < h)%nat → (0 < y)%nat → (y + 1 < w)%nat →
  (∀ grid : GridState, shape grid h w →
     countNeighbors s1 grid (Z.of_nat x) (Z.of_nat y)
     = countNeighbors s2 grid (Z.of_nat x) (Z.of_nat y)
     ∧ ∃ g1 g2,
         nextGeneration s1 grid = Some g1
         ∧ nextGeneration s2 grid = Some g2
         ∧ cellAt g1 x y = cellAt g2 x y)
  ∧ (∀ grid : ColoredGridState, shape grid h w →
       countNeighborsColored s1 grid (Z.of_nat x) (Z.of_nat y)
       = countNeighborsColored s2 grid (Z.of_nat x) (Z.of_nat y)).
Proof.
  intros Hx0 Hx1 Hy0 Hy1. split.
  - intros grid Hs.
    assert (countNeighbors s1 grid (Z.of_nat x) (Z.of_nat y)
            = countNeighbors s2 grid (Z.of_nat x) (Z.of_nat y)) as Hcount.
    { destruct (shape_head grid h w) as (row0 & Hrow0 & Hlen0); [done|lia|].
      unfold countNeighbors. rewrite Hrow0. cbn [mbind option_bind].
      rewrite Hlen0, (proj1 Hs).
      apply for_each_ext. intros i count Hi.
      apply for_each_ext. intros j count' Hj.
      by rewrite (neighborAt_inside s1 s2) by auto using offsets_range. }
    split; [done|].
    destruct (nextGeneration_spec s1 grid h w) as (g1 & Hg1 & _ & Hcells1);
      [done|lia..|].
    destruct (nextGeneration_spec s2 grid h w) as (g2 & Hg2 & _ & Hcells2);
      [done|lia..|].
    exists g1, g2. split; [done|]. split; [done|].
    rewrite Hcells1, Hcells2 by lia.
    rewrite !(countNeighbors_spec _ grid h w) in Hcount by (done || lia).
    by injection Hcount as ->.
  - intros grid Hs.
    destruct (shape_head grid h w) as (row0 & Hrow0 & Hlen0); [done|lia|].
    unfold countNeighborsColored. rewrite Hrow0. cbn [mbind option_bind].
    rewrite Hlen0, (proj1 Hs).
    apply for_each_ext. intros i acc Hi.
    apply for_each_ext. intros j acc' Hj.
    by rewrite (neighborAt_inside s1 s2) by auto using offsets_range.
Qed.

Lemma topology_agrees_inside_witness :
  shape block 4 4
  ∧ countNeighbors (sampleSettings false true) block 1 1
    = countNeighbors (sampleSettings false false) block 1 1.
Proof.
  split; [apply sample_shape|].
  apply (proj1 (topology_agrees_inside (sampleSettings false true)
                  (sampleSettings false false) 4 4 1 1
                  ltac:(lia) ltac:(lia) ltac:(lia) ltac:(lia)) block).
  apply sample_shape.
Defined.

(** ** Colour inheritance across a generation *)

Lemma nextGenerationColored_cells settings (grid : ColoredGridState)
    (h w : nat) (rng : Rng) :
  shape grid h w → (0 < h)%nat → (0 < w)%nat →
  ∃ grid' rng',
    nextGenerationColored settings grid rng = Some (grid', rng')
    ∧ shape grid' h w
    ∧ ∀ x y, (x < h)%nat → (y < w)%nat →
        ∃ cell, cellAt grid' x y = Some cell
          ∧ evolvedCell settings rng grid x y cell.
Proof.
  intros Hs Hh Hw.
  destruct (shape_head grid h w) as (row0 & Hrow0 & Hlen0); [done..|].
  unfold nextGenerationColored. rewrite Hrow0. simpl. rewrite Hlen0.
  pose proof Hs as [Hlen _]. rewrite Hlen.
  match goal with
  | |- ∃ _ _, JS.for_each _ (λ x st, JS.for_each _ (@?body x) st) ?s0 = _ ∧ _ =>
      destruct (scan_inv (λ n (st : ColoredGridState * Rng),
                  filled (evolvedCell settings rng grid) deadCell h w n (fst st)
                  ∧ (rng_ok rng → rng_ok (snd st))) body h w s0)
        as ([grid' rng'] & Hrun & Hfilled & Hrng);
        [split; [apply filled_init|done]| |]
  end.
  2:{ exists grid', rng'. split; [exact Hrun|].
      apply filled_done in Hfilled as [Hs' Hcells]. done. }
  intros x y [grid1 rng1] Hx Hy [Hfill Hok]. simpl in Hfill, Hok.
  destruct (countNeighborsColored_spec settings grid h w x y)
    as (n & Hn & _); [done..|].
  rewrite Hn. simpl.
  destruct (shape_lookup grid h w x) as (row & Hrow & Hrowlen); [done..|].
  destruct (lookup_lt_is_Some_2 row y) as [old Hold]; [lia|].
  rewrite Hrow. simpl. rewrite Hold. simpl.
  assert (cellAt grid x y = Some old) as Hcell.
  { unfold cellAt. rewrite Hrow. done. }
  destruct (_ && (_ || _)) eqn:Hsurvive; [|destruct (negb _ && _) eqn:Hborn].
  - apply andb_true_iff in Hsurvive as [Halive Hcount].
    apply orb_true_iff in Hcount.
    rewrite !bool_decide_eq_true in Hcount.
    edestruct (filled_write (evolvedCell settings rng grid) deadCell h w x y)
      as (grid2 & Hset & Hfill2); [exact Hfill|done..| |].
    2:{ rewrite Hset. simpl. exists (grid2, rng1). done. }
    exists old, n. split; [done|]. split; [done|].
    rewrite Halive. by rewrite decide_True.
  - apply andb_true_iff in Hborn as [Hdead%negb_true_iff Hcount].
    rewrite bool_decide_eq_true in Hcount.
    destruct (newbornColor settings (colors n) (ages n) rng1)
      as [cellColor rng2] eqn:Hnewborn.
    edestruct (filled_write (evolvedCell settings rng grid) deadCell h w x y)
      as (grid2 & Hset & Hfill2); [exact Hfill|done..| |].
    2:{ rewrite Hset. simpl. exists (grid2, rng2). split; [done|].
        split; [done|]. intros Hrng. simpl.
        replace rng2 with (snd (newbornColor settings (colors n) (ages n) rng1))
          by (by rewrite Hnewborn).
        by apply rng_ok_newbornColor, Hok. }
    exists old, n. split; [done|]. split; [done|].
    rewrite Hdead. rewrite decide_True by done.
    exists rng1. split; [done|]. by rewrite Hnewborn.
  - exists (grid1, rng1). split; [done|]. split; [|done].
    apply filled_skip; [done..|].
    exists old, n. split; [done|]. split; [done|].
    destruct (alive old); simpl in Hsurvive, Hborn.
    + apply orb_false_iff in Hsurvive as [H2 H3].
      rewrite bool_decide_eq_false in H2, H3.
      by rewrite decide_False by (intros [?|?]; done).
    + rewrite bool_decide_eq_false in Hborn. by rewrite decide_False.
Qed.

(** X8.  In the colour mode's next generation a dead cell is the blank
    cell, a cell that survived is one generation older (a missing or zero
    age counting as 1) and carries its old colour after saturation
    enhancement at its old age, and a newborn cell has age 1 and a colour. *)
Theorem nextGenerationColored_ages (settings : GameSettings)
    (grid : ColoredGridState) (h w : nat) (rng : Rng) :
  shape grid h w → (0 < h)%nat → (0 < w)%nat →
  ∃ grid' rng',
    nextGenerationColored settings grid rng = Some (grid', rng')
    ∧ ∀ x y old new,
        cellAt grid x y = Some old → cellAt grid' x y = Some new →
        if alive new then
          if alive old then
            age new = Some (JS.or_else (age old) 1 + 1)
            ∧ color new
              = (λ c, enhanceColorSaturation settings c
                        (JS.or_else (age old) 1)) <$> color old
          else age new = Some 1 ∧ is_Some (color new)
        else new = deadCell.
Proof.
  intros Hs Hh Hw.
  destruct (nextGenerationColored_cells settings grid h w rng)
    as (grid' & rng' & Hrun & Hs' & Hcells); [done..|].
  exists grid', rng'. split; [done|].
  intros x y old new Hold Hnew.
  destruct (cellAt_range grid h w x y old Hs Hold) as [Hx Hy].
  destruct (Hcells x y Hx Hy) as (cell & Hcell & old' & n & Hold' & _ & Hcase).
  assert (cell = new) as -> by congruence.
  assert (old' = old) as -> by congruence.
  destruct (alive old).
  - case_decide; subst new; done.
  - case_decide; [|by subst new].
    destruct Hcase as (rng1 & _ & ->). simpl. eauto.
Qed.

Lemma nextGenerationColored_ages_witness :
  shape coloredBlock 4 4
  ∧ ∃ grid' rng',
      nextGenerationColored (sampleSettings true true) coloredBlock sampleRng
        = Some (grid', rng')
      ∧ ∀ new, cellAt grid' 1 1 = Some new →
          age new = Some 2
          ∧ color new
            = Some (enhanceColorSaturation (sampleSettings true true)
                      {| r := 10; g := 200; b := 30 |} 1).
Proof.
  split; [apply sample_shape|].
  destruct (nextGenerationColored_ages (sampleSettings true true) coloredBlock
              4 4 sampleRng) as (grid' & rng' & Hrun & Hcells);
    [apply sample_shape|lia..|].
  exists grid', rng'. split; [exact Hrun|].
  intros new Hnew.
  pose proof (Hcells 1%nat 1%nat (sampleCell true) new eq_refl Hnew) as Hcase.
  revert Hcase Hnew. revert Hrun.
  vm_compute nextGenerationColored. intros [= <- <-].
  vm_compute cellAt. intros Hcase [= <-]. exact Hcase.
Defined.

(** ** The palette *)

Lemma grid_Forall_cellAt {A} (P : A → Prop) (grid : list (list A)) :
  Forall (Forall P) grid ↔ ∀ x y cell, cellAt grid x y = Some cell → P cell.
Proof.
  unfold cellAt. rewrite Forall_lookup. split.
  - intros Hall x y cell Hcell.
    destruct (grid !! x) as [row|] eqn:Hrow; [|done]. simpl in Hcell.
    specialize (Hall x row Hrow). by eapply (Forall_lookup_1 _ _ _ _ Hall).
  - intros Hall x row Hrow. apply Forall_lookup. intros y cell Hcell.
    apply (Hall x y). by rewrite Hrow.
Qed.

Lemma cellPalette_dead : cellPalette deadCell.
Proof. by split. Qed.

Lemma cellPalette_born (c : CellColor) :
  channelsWithin 0 255 c →
  cellPalette {| alive := true; color := Some c; age := Some 1 |}.
Proof. intros Hc. split; simpl; [by intros ? [= <-]|intros ? [= <-]; lia]. Qed.

Lemma or_else_age (cell : ColoredCell) :
  cellPalette cell → 1 ≤ JS.or_else (age cell) 1.
Proof.
  intros [_ Hage]. unfold JS.or_else. destruct (age cell) as [a|]; [|done].
  specialize (Hage a eq_refl). by rewrite decide_False by lia.
Qed.

Lemma cellPalette_survivor settings (old : ColoredCell) :
  cellPalette old → cellPalette (survivor settings old).
Proof.
  intros Hold. pose proof (or_else_age old Hold). split; simpl.
  - intros c Hc. destruct (color old); [|done]. injection Hc as <-.
    apply enhanceColorSaturation_within.
  - intros a [= <-]. lia.
Qed.

Lemma reportedFrom_palette (grid : ColoredGridState) colors ages :
  gridPalette grid → Forall2 (reportedFrom grid) colors ages →
  (∀ c, c ∈ colors → channelsWithin 0 255 c) ∧ (∀ a, a ∈ ages → 0 ≤ a).
Proof.
  intros Hgrid Hfrom.
  pose proof (proj1 (grid_Forall_cellAt cellPalette grid) Hgrid) as Hcells.
  induction Hfrom as [|c a colors ages (x & y & cell & Hcell & _ & Hc & ->) _ IH].
  - split; intros ? ?%elem_of_nil; done.
  - destruct IH as [IHc IHa]. specialize (Hcells x y cell Hcell).
    split.
    + intros c' [->|Hin]%elem_of_cons; [|by apply IHc].
      by apply (proj1 Hcells).
    + intros a' [->|Hin]%elem_of_cons; [|by apply IHa].
      pose proof (or_else_age cell Hcells). lia.
Qed.

Lemma newbornColor_within settings colors ages rng :
  rng_ok rng → colors ≠ [] →
  (∀ c, c ∈ colors → channelsWithin 0 255 c) → (∀ a, a ∈ ages → 0 ≤ a) →
  channelsWithin 0 255 (fst (newbornColor settings colors ages rng)).
Proof.
  intros Hok Hne Hcolors Hages. unfold newbornColor. simpl.
  pose proof (rng_ok_random rng Hok) as Hok1. simpl in Hok1.
  destruct (negb _); [by apply averageColorsWeighted_within|].
  destruct (random_color_pure settings).
  - by apply generateRandomColor_within.
  - apply generateTweakedColor_within; [done|].
    by apply averageColorsWeighted_within.
Qed.

Lemma generate_Forall_ok {A} (P : A → Prop) (n : nat) (gen : Rng → A * Rng)
    (rng : Rng) :
  (∀ rng, rng_ok rng → P (fst (gen rng)) ∧ rng_ok (snd (gen rng))) →
  rng_ok rng →
  Forall P (fst (generate n gen rng)) ∧ rng_ok (snd (generate n gen rng)).
Proof.
  intros Hgen. revert rng. induction n as [|n IH]; intros rng Hok; simpl;
    [done|].
  destruct (Hgen rng Hok) as [Ha Hok1]. destruct (gen rng) as [a rng1].
  destruct (IH rng1 Hok1) as [Hrest Hok2].
  destruct (generate n gen rng1). simpl in *. split; [by constructor|done].
Qed.

Lemma createRandomColoredGrid_palette settings width height rng :
  rng_ok rng →
  gridPalette (fst (createRandomColoredGrid settings width height rng)).
Proof.
  intros Hok. apply generate_Forall_ok; [|done].
  intros rng1 Hok1. apply generate_Forall_ok; [|done].
  intros rng2 Hok2. simpl. case_decide; simpl.
  - split; [|intros k; apply Hok2].
    apply cellPalette_born.
    apply (generateRandomColor_within (λ k, rng2 (S k))).
    intros k. apply Hok2.
  - split; [apply cellPalette_dead|intros k; apply Hok2].
Qed.

Lemma nextGenerationColored_palette settings (grid : ColoredGridState)
    (h w : nat) (rng : Rng) :
  shape grid h w → (0 < h)%nat → (0 < w)%nat → rng_ok rng →
  gridPalette grid →
  ∃ grid' rng',
    nextGenerationColored settings grid rng = Some (grid', rng')
    ∧ gridPalette grid'.
Proof.
  intros Hs Hh Hw Hok Hgrid.
  destruct (nextGenerationColored_cells settings grid h w rng)
    as (grid' & rng' & Hrun & Hs' & Hcells); [done..|].
  exists grid', rng'. split; [done|].
  apply grid_Forall_cellAt. intros x y new Hnew.
  destruct (cellAt_range grid' h w x y new Hs' Hnew) as [Hx Hy].
  destruct (Hcells x y Hx Hy) as (cell & Hcell & old & n & Hold & Hn & Hcase).
  assert (cell = new) as -> by congruence.
  pose proof (proj1 (grid_Forall_cellAt cellPalette grid) Hgrid x y old Hold)
    as Hpalette.
  destruct (alive old).
  - case_decide; subst new;
      [by apply cellPalette_survivor|apply cellPalette_dead].
  - case_decide as Hcount; [|subst new; apply cellPalette_dead].
    destruct Hcase as (rng1 & Hok1 & ->).
    destruct (countNeighborsColored_lists settings grid _ _ n Hn)
      as (Hlen & _ & Hfrom).
    destruct (reportedFrom_palette grid _ _ Hgrid Hfrom) as [Hcolors Hages].
    apply cellPalette_born, newbornColor_within; auto.
    intros Hnil. rewrite Hnil in Hlen. simpl in Hlen. lia.
Qed.

Lemma flipRandomCellsColored_keeps (P : ColoredCell → Prop)
    (grid : ColoredGridState) (h w : nat) (n : Z) rng :
  shape grid h w → (0 < h)%nat → (0 < w)%nat → rng_ok rng →
  P deadCell →
  (∀ c, channelsWithin 0 255 c →
     P {| alive := true; color := Some c; age := Some 1 |}) →
  Forall (Forall P) grid →
  ∃ grid' rng',
    flipRandomCellsColored grid n rng = Some (grid', rng')
    ∧ Forall (Forall P) grid'.
Proof.
  intros Hs Hh Hw Hok Hdead Hborn Hgrid.
  destruct (shape_head grid h w) as (row0 & Hrow0 & Hlen0); [done..|].
  unfold flipRandomCellsColored. rewrite Hrow0. simpl. rewrite Hlen0.
  pose proof Hs as [Hlen _]. rewrite Hlen.
  match goal with
  | |- ∃ _ _, JS.for_each _ ?body ?s0 = _ ∧ _ =>
      destruct (for_each_seq_inv (λ _ (st : ColoredGridState * Rng),
                  shape (fst st) h w ∧ rng_ok (snd st)
                  ∧ Forall (Forall P) (fst st))
                  body (Z.to_nat n) 0 s0)
        as ([grid' rng'] & Hrun & Hs' & Hok' & Hinv');
        [done| |by exists grid', rng']
  end.
  intros _ [grid1 rng1] _ (Hs1 & Hok1 & Hinv1). simpl in Hs1, Hok1, Hinv1. simpl.
  destruct (floor_random_index (rng1 0%nat) h) as (x & -> & Hx); [apply Hok1|done|].
  destruct (floor_random_index (rng1 1%nat) w) as (y & -> & Hy); [apply Hok1|done|].
  destruct (shape_lookup grid1 h w x) as (row & Hrow & Hrowlen); [done..|].
  destruct (lookup_lt_is_Some_2 row y) as [cell Hcell]; [lia|].
  rewrite get_nat, Hrow. simpl. rewrite get_nat, Hcell. simpl.
  assert (∀ v grid2,
    P v → cellAt grid2 x y = Some v →
    (∀ x' y', (x', y') ≠ (x, y) → cellAt grid2 x' y' = cellAt grid1 x' y') →
    Forall (Forall P) grid2) as Hkeep.
  { intros v grid2 Hv Hxy Hother. apply grid_Forall_cellAt.
    intros x' y' c Hc. destruct (decide ((x', y') = (x, y))) as [[= -> ->]|Hne].
    - congruence.
    - rewrite Hother in Hc by done.
      by eapply (proj1 (grid_Forall_cellAt P grid1) Hinv1). }
  destruct (alive cell).
  - edestruct (set2_spec grid1 h w x y) as (grid2 & -> & Hs2 & Hxy & Hother);
      [done..|].
    simpl. eexists (_, _). split; [done|]. simpl. split_and!; [done| |].
    + intros k. apply Hok1.
    + by eapply Hkeep.
  - edestruct (set2_spec grid1 h w x y) as (grid2 & -> & Hs2 & Hxy & Hother);
      [done..|].
    simpl. eexists (_, _). split; [done|]. simpl. split_and!; [done| |].
    + intros k. apply Hok1.
    + eapply Hkeep; [|done..]. apply Hborn.
      apply (generateRandomColor_within (λ k, rng1 (S (S k)))).
      intros k. apply Hok1.
Qed.

(** X9.  With draws in [[0, 1)] the palette of the colour mode (every
    colour has its channels in [[0, 255]], every age is at least 1) holds
    of a fresh random grid and is kept by a perturbation and, with a
    [max_saturation_age] that is not zero (it divides the age of a
    survivor), by a generation. *)
Theorem palette_kept (settings : GameSettings) :
  (∀ width height rng,
     rng_ok rng →
     gridPalette (fst (createRandomColoredGrid settings width height rng)))
  ∧ (∀ (grid : ColoredGridState) (h w : nat) (rng : Rng),
       shape grid h w → (0 < h)%nat → (0 < w)%nat → rng_ok rng →
       max_saturation_age settings ≠ 0%Qc →
       gridPalette grid →
       ∃ grid' rng',
         nextGenerationColored settings grid rng = Some (grid', rng')
         ∧ gridPalette grid')
  ∧ (∀ (grid : ColoredGridState) (h w : nat) (n : Z) (rng : Rng),
       shape grid h w → (0 < h)%nat → (0 < w)%nat → rng_ok rng →
       gridPalette grid →
       ∃ grid' rng',
         flipRandomCellsColored grid n rng = Some (grid', rng')
         ∧ gridPalette grid').
Proof.
  split; [|split].
  - intros. by apply createRandomColoredGrid_palette.
  - intros grid h w rng Hs Hh Hw Hok _.
    by apply (nextGenerationColored_palette settings grid h w).
  - intros grid h w n rng Hs Hh Hw Hok Hgrid.
    apply (flipRandomCellsColored_keeps cellPalette grid h w);
      auto using cellPalette_dead, cellPalette_born.
Qed.

Lemma sample_palette : gridPalette coloredBlock.
Proof.
  apply grid_Forall_cellAt. intros x y cell Hcell.
  destruct (cellAt_range coloredBlock 4 4 x y cell) as [Hx Hy];
    [apply sample_shape|done|].
  assert (x < 4 ∧ y < 4)%nat as Hxy by done. clear Hx Hy.
  assert (cell = deadCell ∨ cell = sampleCell true) as [->| ->].
  { destruct x as [|[|[|[|x]]]]; [..|lia];
      (destruct y as [|[|[|[|y]]]]; [..|lia]);
      injection Hcell as <-; auto. }
  - apply cellPalette_dead.
  - apply cellPalette_born. unfold channelsWithin. simpl. lia.
Qed.

Lemma palette_kept_witness :
  rng_ok sampleRng
  ∧ gridPalette coloredBlock
  ∧ gridPalette
      (fst (createRandomColoredGrid (sampleSettings true true) 4 4 sampleRng))
  ∧ ∃ grid' rng',
      nextGenerationColored (sampleSettings true true) coloredBlock sampleRng
        = Some (grid', rng')
      ∧ gridPalette grid'.
Proof.
  split; [apply sample_rng_ok|]. split; [apply sample_palette|]. split.
  - apply (proj1 (palette_kept (sampleSettings true true))), sample_rng_ok.
  - apply (proj1 (proj2 (palette_kept (sampleSettings true true)))
             coloredBlock 4%nat 4%nat sampleRng);
      [apply sample_shape|lia|lia|apply sample_rng_ok
      |by intros ?%(f_equal this)|apply sample_palette].
Defined.

(** ** Fingerprints *)

Lemma bitString_length (bits : list bool) :
  String.length (bitString bits) = length bits.
Proof. induction bits as [|bit bits IH]; simpl; [done|]. by rewrite IH. Qed.

Lemma bitString_inj (bits1 bits2 : list bool) :
  bitString bits1 = bitString bits2 → bits1 = bits2.
Proof.
  revert bits2. induction bits1 as [|b1 bits1 IH]; intros [|b2 bits2] Heq;
    try done.
  simpl in Heq. injection Heq as Hbit Hrest.
  f_equal; [by destruct b1, b2|by apply IH].
Qed.

Lemma concat_shape_length {A} (grid : list (list A)) (h w : nat) :
  shape grid h w → length (concat grid) = (h * w)%nat.
Proof.
  intros [<- Hrows]. induction Hrows as [|row grid Hrow _ IH]; [done|].
  simpl. rewrite length_app, IH, Hrow. done.
Qed.

Lemma concat_shape_inj {A} (g1 g2 : list (list A)) (h w : nat) :
  shape g1 h w → shape g2 h w → concat g1 = concat g2 → g1 = g2.
Proof.
  intros [<- Hrows1]. revert g2.
  induction Hrows1 as [|row1 g1 Hrow1 _ IH]; intros g2 [Hlen Hrows2] Heq.
  - by destruct g2.
  - destruct Hrows2 as [|row2 g2 Hrow2 Hrows2]; [done|].
    simpl in Heq. apply app_inj_1 in Heq as [-> Hrest]; [|congruence].
    f_equal. apply IH; [|done]. split; [|done].
    simpl in Hlen. lia.
Qed.

(** X10.  On grids of one shape the fingerprint that the stuck detector
    stores is faithful: it has one character for each cell, two standard
    grids have the same fingerprint only if they are equal, and two
    coloured grids exactly when the same cells are alive (colours and ages
    are not recorded). *)
Theorem fingerprints_faithful (h w : nat) :
  (∀ g1 g2 : GridState, shape g1 h w → shape g2 h w →
     String.length (gridToString g1) = (h * w)%nat
     ∧ (gridToString g1 = gridToString g2 ↔ g1 = g2))
  ∧ (∀ c1 c2 : ColoredGridState, shape c1 h w → shape c2 h w →
       String.length (coloredGridToString c1) = (h * w)%nat
       ∧ (coloredGridToString c1 = coloredGridToString c2
          ↔ map (map alive) c1 = map (map alive) c2)).
Proof.
  split.
  - intros g1 g2 Hs1 Hs2. rewrite !gridToString_bits, bitString_length.
    split; [by apply concat_shape_length|].
    split; [|by intros ->].
    intros Heq%bitString_inj. by apply (concat_shape_inj g1 g2 h w).
  - intros c1 c2 Hs1 Hs2. rewrite !coloredGridToString_bits, bitString_length.
    split; [by apply concat_shape_length, shape_map|].
    split; [|by intros ->].
    intros Heq%bitString_inj.
    by apply (concat_shape_inj _ _ h w); [apply shape_map..|].
Qed.

Lemma fingerprints_faithful_witness :
  shape block 4 4 ∧ shape loneCell 4 4
  ∧ String.length (gridToString block) = 16%nat
  ∧ gridToString block ≠ gridToString loneCell.
Proof.
  destruct sample_shape as (Hblock & Hlone & _).
  destruct (proj1 (fingerprints_faithful 4 4) block loneCell Hblock Hlone)
    as [Hlength Hinj].
  split; [done|]. split; [done|]. split; [exact Hlength|].
  intros Heq. by apply Hinj in Heq.
Defined.

(** ** The history of the stuck detector *)

Lemma NoDup_tail {A} (l : list A) : NoDup l → NoDup (tail l).
Proof. intros Hl. destruct Hl; [constructor|done]. Qed.

Lemma elem_of_tail_snoc {A} (l : list A) (x : A) :
  l ≠ [] → x ∈ tail (l ++ [x]).
Proof.
  destruct l as [|a l]; [done|]. intros _. simpl.
  apply elem_of_app. right. by left.
Qed.

(** X11.  Whatever the history, [isSimulationStuck] keeps it free of
    duplicates and within ten entries, leaves it as it is when it answers
    [true], and answers [true] when it is shown the same grid again. *)
Theorem isSimulationStuck_history (settings : GameSettings) (grid : AnyGrid)
    (history : list string) :
  let stuck := fst (isSimulationStuck settings grid history) in
  let history' := snd (isSimulationStuck settings grid history) in
  (NoDup history → NoDup history')
  ∧ ((length history ≤ 10)%nat → (length history' ≤ 10)%nat)
  ∧ (stuck = true → history' = history)
  ∧ fst (isSimulationStuck settings grid history') = true.
Proof.
  cbn zeta. rewrite (isSimulationStuck_unfold settings grid history).
  destruct (decide (hasLiveCell settings grid)) as [Hlive|Hdead].
  2:{ cbn [fst snd]. split_and!; try done. rewrite isSimulationStuck_unfold.
      by rewrite decide_False. }
  destruct (decide (fingerprint settings grid ∈ history)) as [Hseen|Hfresh].
  { cbn [fst snd]. split_and!; try done. rewrite isSimulationStuck_unfold.
    by rewrite decide_True, decide_True. }
  cbn zeta. cbn [fst snd].
  unfold historyCapacity. rewrite length_app. cbn [length].
  assert (NoDup history → NoDup (history ++ [fingerprint settings grid]))
    as Hpushed.
  { intros Hnodup. apply NoDup_app. split; [done|]. split.
    - by intros x Hx ->%list_elem_of_singleton.
    - apply NoDup_singleton. }
  case_decide as Hfull.
  - split_and!; [|intros Hsize| |]; try done.
    + intros Hnodup. by apply NoDup_tail, Hpushed.
    + destruct history; [simpl in Hfull; lia|].
      simpl. rewrite length_app. simpl in *. lia.
    + rewrite isSimulationStuck_unfold, decide_True by done.
      rewrite decide_True; [done|].
      apply elem_of_tail_snoc. destruct history; [simpl in Hfull; lia|done].
  - split_and!; [done|intros _; rewrite length_app; simpl; lia|done|].
    rewrite isSimulationStuck_unfold, decide_True by done.
    rewrite decide_True; [done|]. apply elem_of_app. right. by left.
Qed.

Lemma isSimulationStuck_history_witness :
  let s := sampleSettings false false in
  NoDup (@nil string)
  ∧ NoDup (snd (isSimulationStuck s (Plain block) []))
  ∧ fst (isSimulationStuck s (Plain block)
           (snd (isSimulationStuck s (Plain block) []))) = true.
Proof.
  intros s. split; [constructor|].
  destruct (isSimulationStuck_history s (Plain block) [])
    as (Hnodup & _ & _ & Hagain).
  split; [apply Hnodup; constructor|exact Hagain].
Defined.

(** ** Perturbation of a standard grid *)

Lemma timesDrawn_S rng h w n x y :
  timesDrawn rng h w (S n) x y
  = (timesDrawn rng h w n x y
     + if decide (drawnCell rng h w n = (x, y)) then 1 else 0)%nat.
Proof.
  unfold timesDrawn. rewrite seq_S, filter_app, length_app. f_equal.
  rewrite filter_cons, filter_nil. simpl. by case_decide.
Qed.

Lemma flipRandomCells_cells (grid : GridState) (h w : nat) (n : Z) rng :
  shape grid h w → (0 < h)%nat → (0 < w)%nat → rng_ok rng →
  ∃ grid' rng',
    flipRandomCells grid n rng = Some (grid', rng')
    ∧ shape grid' h w
    ∧ (∀ j, rng' j = rng (Z.to_nat n + Z.to_nat n + j)%nat)
    ∧ ∀ x y, (x < h)%nat → (y < w)%nat →
        cellAt grid' x y
        = (λ v, xorb v (Nat.odd (timesDrawn rng h w (Z.to_nat n)
                                   (Z.of_nat x) (Z.of_nat y))))
            <$> cellAt grid x y.
Proof.
  intros Hs Hh Hw Hok.
  destruct (shape_head grid h w) as (row0 & Hrow0 & Hlen0); [done..|].
  unfold flipRandomCells. rewrite Hrow0. simpl. rewrite Hlen0.
  pose proof Hs as [Hlen _]. rewrite Hlen.
  match goal with
  | |- ∃ _ _, JS.for_each _ ?body ?s0 = _ ∧ _ =>
      destruct (for_each_seq_inv (λ k (st : GridState * Rng),
                  shape (fst st) h w
                  ∧ (∀ j, snd st j = rng (k + k + j)%nat)
                  ∧ ∀ x y, (x < h)%nat → (y < w)%nat →
                      cellAt (fst st) x y
                      = (λ v, xorb v (Nat.odd (timesDrawn rng h w k
                                                 (Z.of_nat x) (Z.of_nat y))))
                          <$> cellAt grid x y)
                  body (Z.to_nat n) 0 s0)
        as ([grid' rng'] & Hrun & Hs' & Hrng' & Hcells');
        [| |by exists grid', rng']
  end.
  { split; [done|]. split; [done|]. intros x y Hx Hy. simpl.
    destruct (shape_cellAt grid h w x y Hs Hx Hy) as [v ->]. simpl.
    by rewrite xorb_false_r. }
  intros k [grid1 rng1] _ (Hs1 & Hrng1 & Hcells1).
  simpl in Hs1, Hrng1, Hcells1. simpl.
  assert (rng_ok rng1) as Hok1 by (intros j; rewrite Hrng1; apply Hok).
  destruct (floor_random_index (rng1 0%nat) h) as (x & Hfx & Hx);
    [apply Hok1|done|].
  destruct (floor_random_index (rng1 1%nat) w) as (y & Hfy & Hy);
    [apply Hok1|done|].
  assert (drawnCell rng h w k = (Z.of_nat x, Z.of_nat y)) as Hdrawn.
  { unfold drawnCell. rewrite <- Hfx, <- Hfy, !Hrng1.
    by rewrite Nat.add_0_r, Nat.add_1_r. }
  rewrite Hfx, Hfy.
  destruct (shape_lookup grid1 h w x) as (row & Hrow & Hrowlen); [done..|].
  rewrite get_nat, Hrow. simpl. rewrite get_nat.
  edestruct (set2_spec grid1 h w x y) as (grid2 & -> & Hs2 & Hxy & Hother);
    [done..|].
  simpl. eexists (_, _). split; [done|]. simpl. split; [done|]. split.
  { intros j. rewrite Hrng1. f_equal. lia. }
  intros x' y' Hx' Hy'. rewrite timesDrawn_S, Hdrawn.
  destruct (decide ((x', y') = (x, y))) as [[= -> ->]|Hne].
  - rewrite Hxy, decide_True by done.
    specialize (Hcells1 x y Hx Hy). unfold cellAt in Hcells1 at 1.
    rewrite Hrow in Hcells1. simpl in Hcells1.
    destruct (shape_cellAt grid h w x y Hs Hx Hy) as [v Hv].
    rewrite Hv in Hcells1 |- *. simpl in Hcells1 |- *.
    rewrite Hcells1. simpl. f_equal.
    rewrite Nat.add_1_r, Nat.odd_succ, <- Nat.negb_odd.
    by destruct v, (Nat.odd _).
  - rewrite Hother by done. rewrite Hcells1 by done.
    rewrite decide_False; [by rewrite Nat.add_0_r|].
    intros [= ?%Nat2Z.inj ?%Nat2Z.inj]. congruence.
Qed.

(** X12.  [flipRandomCells] reads two draws for each of its iterations
    and leaves every cell negated as many times as the iterations picked
    it: a cell picked an even number of times, or never, is as it was, so a
    perturbation can change fewer cells than it was asked to; a count that
    is not positive changes nothing. *)
Theorem flipRandomCells_parity (grid : GridState) (h w : nat) (n : Z)
    (rng : Rng) :
  shape grid h w → (0 < h)%nat → (0 < w)%nat → rng_ok rng →
  ∃ grid' rng',
    flipRandomCells grid n rng = Some (grid', rng')
    ∧ (∀ j, rng' j = rng (Z.to_nat n + Z.to_nat n + j)%nat)
    ∧ (∀ x y, (x < h)%nat → (y < w)%nat →
         cellAt grid' x y
         = (λ v, xorb v (Nat.odd (timesDrawn rng h w (Z.to_nat n)
                                    (Z.of_nat x) (Z.of_nat y))))
             <$> cellAt grid x y)
    ∧ (n ≤ 0 → grid' = grid).
Proof.
  intros Hs Hh Hw Hok.
  destruct (flipRandomCells_cells grid h w n rng)
    as (grid' & rng' & Hrun & Hs' & Hrng & Hcells); [done..|].
  exists grid', rng'. split; [done|]. split; [done|]. split; [done|].
  intros Hn. unfold flipRandomCells in Hrun.
  destruct (grid !! 0%nat); [|done]. cbn [mbind option_bind] in Hrun.
  replace (Z.to_nat n) with 0%nat in Hrun by lia. cbn in Hrun.
  by injection Hrun as <- _.
Qed.

Lemma flipRandomCells_parity_witness :
  shape block 4 4 ∧ rng_ok sampleRng
  ∧ ∃ grid' rng',
      flipRandomCells block 2 sampleRng = Some (grid', rng')
      ∧ cellAt grid' 0 0 = cellAt block 0 0.
Proof.
  split; [apply sample_shape|]. split; [apply sample_rng_ok|].
  destruct (flipRandomCells_parity block 4 4 2 sampleRng)
    as (grid' & rng' & Hrun & _ & Hcells & _);
    [apply sample_shape|lia|lia|apply sample_rng_ok|].
  exists grid', rng'. split; [exact Hrun|].
  rewrite (Hcells 0%nat 0%nat) by lia. reflexivity.
Defined.

(** ** The frame *)

Lemma neighborOpacity_le settings count :
  (neighborOpacity settings count ≤ 1)%Qc.
Proof.
  unfold neighborOpacity, JS.min. case_decide as Hle.
  - eapply Qcle_trans; [exact Hle|]. by vm_compute.
  - by vm_compute.
Qed.

Lemma blend_le (c0 c1 p : Qc) :
  (c0 ≤ 1)%Qc → (c1 ≤ 1)%Qc → (0 ≤ p ∧ p ≤ 1)%Qc → (blend c0 c1 p ≤ 1)%Qc.
Proof.
  intros H0 H1 [Hp0 Hp1]. unfold blend.
  apply Qcle_trans with (1 * (1 - p) + 1 * p)%Qc;
    [|replace (1 * (1 - p) + 1 * p)%Qc with 1%Qc by ring; apply Qcle_refl].
  apply Qcplus_le_compat.
  - apply Qcmult_le_compat_r; [done|].
    apply (Qcplus_le_mono_r _ _ p). by ring_simplify.
  - by apply Qcmult_le_compat_r.
Qed.

Section Frame.

Variable parseInt : string → Z → option Z.
Variable settings : GameSettings.
Variable fading : bool.
Variable current : AnyGrid.
Variable nextGrid : option AnyGrid.
Variables h w : nat.
Variable p : Qc.
Hypothesis Hcurrent : anyShape current h w.
Hypothesis Hnext : ∀ target, nextGrid = Some target → anyShape target h w.
Hypothesis Hh : (0 < h)%nat.

Lemma fadeTarget_same next :
  fadeTarget settings fading nextGrid = Some next → nextGrid = Some next.
Proof.
  unfold fadeTarget. case_decide; [|done].
  destruct nextGrid as [target|]; [|done].
  case_decide; [|done]. by destruct fading.
Qed.

Lemma shadeColored_some x y :
  (x < h)%nat → (y < w)%nat →
  ∃ alpha channels,
    shadeColored parseInt settings fading current nextGrid p x y
    = Some (alpha, channels)
    ∧ ((0 ≤ p ∧ p ≤ 1)%Qc → (alpha ≤ 1)%Qc).
Proof using Hcurrent Hnext Hh.
  intros Hx Hy. unfold shadeColored.
  pose proof (asColored_shape _ _ _ Hcurrent) as Hc.
  destruct (shape_lookup _ h w x Hc Hx) as (row & Hrow & Hrowlen).
  destruct (lookup_lt_is_Some_2 row y) as [cell Hcell]; [lia|].
  destruct (countNeighborsColored_spec settings _ h w x y Hc Hx Hy)
    as (n & Hn & _).
  rewrite Hrow. cbn [mbind option_bind]. rewrite Hcell.
  assert (∀ count, (neighborOpacity settings count ≤ 1)%Qc) as Hnear
    by apply neighborOpacity_le.
  assert (Q2Qc 0 ≤ 1)%Qc as Hzero by (by vm_compute).
  assert (1 ≤ 1)%Qc as Hone by apply Qcle_refl.
  destruct (fadeTarget settings fading nextGrid) as [next|] eqn:Hfade.
  - apply fadeTarget_same in Hfade. rewrite Hfade.
    pose proof (asColored_shape _ _ _ (Hnext next Hfade)) as Ht.
    destruct (shape_lookup _ h w x Ht Hx) as (nrow & Hnrow & Hnrowlen).
    destruct (lookup_lt_is_Some_2 nrow y) as [ncell Hncell]; [lia|].
    destruct (countNeighborsColored_spec settings _ h w x y Ht Hx Hy)
      as (m & Hm & _).
    rewrite Hnrow. cbn [mbind option_bind]. rewrite Hncell, Hn, Hm.
    cbn [mbind option_bind].
    destruct cell as [[] [c|] ?], ncell as [[] [c'|] ?];
      cbn [alive color mbind option_bind];
      destruct (neighbor_opacity_enabled settings);
      cbn [mbind option_bind];
      repeat case_decide; cbn [mbind option_bind]; eexists _, _;
      (split; [reflexivity|]); intros Hp; by apply blend_le.
  - destruct nextGrid as [target|].
    + pose proof (asColored_shape _ _ _ (Hnext target eq_refl)) as Ht.
      destruct (shape_lookup _ h w x Ht Hx) as (nrow & Hnrow & Hnrowlen).
      rewrite Hnrow, Hn. cbn [mbind option_bind].
      destruct cell as [[] [c|] ?]; cbn [alive color mbind option_bind];
        destruct (neighbor_opacity_enabled settings);
        cbn [mbind option_bind];
        repeat case_decide; eexists _, _; (split; [reflexivity|]); done.
    + rewrite Hn. cbn [mbind option_bind].
      destruct cell as [[] [c|] ?]; cbn [alive color mbind option_bind];
        destruct (neighbor_opacity_enabled settings);
        cbn [mbind option_bind];
        repeat case_decide; eexists _, _; (split; [reflexivity|]); done.
Qed.

Lemma shadePlain_some x y :
  (x < h)%nat → (y < w)%nat →
  ∃ alpha channels,
    shadePlain parseInt settings fading current nextGrid p x y
    = Some (alpha, channels)
    ∧ ((0 ≤ p ∧ p ≤ 1)%Qc → (alpha ≤ 1)%Qc).
Proof using Hcurrent Hnext Hh.
  intros Hx Hy. unfold shadePlain.
  pose proof (asPlain_shape _ _ _ Hcurrent) as Hc.
  destruct (shape_lookup _ h w x Hc Hx) as (row & Hrow & Hrowlen).
  rewrite Hrow. cbn [mbind option_bind].
  assert (∀ count, (neighborOpacity settings count ≤ 1)%Qc) as Hnear
    by apply neighborOpacity_le.
  assert (Q2Qc 0 ≤ 1)%Qc as Hzero by (by vm_compute).
  assert (1 ≤ 1)%Qc as Hone by apply Qcle_refl.
  rewrite !(countNeighbors_spec settings _ h w x y) by done.
  destruct (fadeTarget settings fading nextGrid) as [next|] eqn:Hfade.
  - apply fadeTarget_same in Hfade. rewrite Hfade.
    pose proof (asPlain_shape _ _ _ (Hnext next Hfade)) as Ht.
    destruct (shape_lookup _ h w x Ht Hx) as (nrow & Hnrow & Hnrowlen).
    rewrite Hnrow. cbn [mbind option_bind].
    rewrite !(countNeighbors_spec settings _ h w x y) by done.
    destruct (JS.truthy (row !! y)), (JS.truthy (nrow !! y)),
      (neighbor_opacity_enabled settings); cbn [mbind option_bind];
      repeat case_decide; cbn [mbind option_bind]; eexists _, _;
      (split; [reflexivity|]); intros Hp; by apply blend_le.
  - destruct nextGrid as [target|].
    + pose proof (asPlain_shape _ _ _ (Hnext target eq_refl)) as Ht.
      destruct (shape_lookup _ h w x Ht Hx) as (nrow & Hnrow & Hnrowlen).
      rewrite Hnrow. cbn [mbind option_bind].
      destruct (JS.truthy (row !! y)), (neighbor_opacity_enabled settings);
        cbn [mbind option_bind]; repeat case_decide;
        eexists _, _; (split; [reflexivity|]); done.
    + cbn [mbind option_bind].
      destruct (JS.truthy (row !! y)), (neighbor_opacity_enabled settings);
        cbn [mbind option_bind]; repeat case_decide;
        eexists _, _; (split; [reflexivity|]); done.
Qed.

Lemma renderCell_some x y :
  (x < h)%nat → (y < w)%nat →
  ∃ cmds,
    renderCell parseInt settings fading current nextGrid p x y = Some cmds
    ∧ (length cmds ≤ 1)%nat
    ∧ ((0 ≤ p ∧ p ≤ 1)%Qc → Forall (cellCommand settings h w) cmds).
Proof using Hcurrent Hnext Hh.
  intros Hx Hy. unfold renderCell.
  assert (∃ alpha channels,
    (if color_mode settings
     then shadeColored parseInt settings fading current nextGrid p x y
     else shadePlain parseInt settings fading current nextGrid p x y)
    = Some (alpha, channels)
    ∧ ((0 ≤ p ∧ p ≤ 1)%Qc → (alpha ≤ 1)%Qc))
    as (alpha & [[red green] blue] & -> & Halpha).
  { destruct (color_mode settings);
      [by apply shadeColored_some|by apply shadePlain_some]. }
  cbn [mbind option_bind]. case_decide as Hdrawn.
  - eexists. split; [reflexivity|]. split; [simpl; lia|].
    intros Hp. constructor; [|constructor].
    exists x, y, red, green, blue, alpha. split_and!; auto.
  - exists []. split; [done|]. split; [simpl; lia|]. intros _. constructor.
Qed.

End Frame.

Lemma renderGrid_some parseInt settings fading canvas current nextGrid
    (h w : nat) (p : Qc) :
  anyShape current h w →
  (∀ target, nextGrid = Some target → anyShape target h w) →
  (0 < h)%nat →
  is_Some (renderGrid parseInt settings fading canvas current nextGrid p).
Proof.
  intros Hcurrent Hnext Hh. unfold renderGrid.
  rewrite (anyShape_rows current h w) by done.
  rewrite lookup_replicate_2, length_replicate by done.
  cbn [mbind option_bind]. apply frame_some. intros x y Hx Hy.
  destruct (renderCell_some parseInt settings fading current nextGrid h w p
              Hcurrent Hnext Hh x y Hx Hy) as (cell & -> & _).
  done.
Qed.



(** ** The tick: accepting a generation *)

Lemma advanceColored_accepts host timestamp st rng next rng1 :
  color_mode (settings (pending st)) = true →
  nextGenerationColored (settings (pending st)) (coloredGrid (pending st)) rng
    = Some (next, rng1) →
  decision st (Colored next) = Accept →
  advanceColored host timestamp (pending st) st rng
  = Some (Continues (setTargetColoredGrid next (accepted st (Colored next)))
            rng1).
Proof.
  intros Hmode Hnext Haccept. unfold advanceColored, accepted. rewrite Hnext.
  cbn [mbind option_bind].
  unfold decision, recovery, displayedGrid in Haccept. rewrite Hmode in Haccept.
  rewrite (isEmpty_colored _ _ Hmode).
  destruct (bool_decide (¬ hasLiveCell _ _)) eqn:Hempty; [done|].
  destruct (isSimulationStuck _ _ _) as [[] history]; [|done].
  cbn [fst negb] in Haccept.
  destruct (hard_reset_on_stuck _); [done|].
  destruct (try_revive_stuck_sim _); [|done]. cbn [negb] in Haccept.
  by repeat case_decide.
Qed.

Lemma advancePlain_accepts host timestamp st rng next :
  color_mode (settings (pending st)) = false →
  nextGeneration (settings (pending st)) (grid (pending st)) = Some next →
  decision st (Plain next) = Accept →
  advancePlain host timestamp (pending st) st rng
  = Some (Continues (setTargetGrid next (accepted st (Plain next))) rng).
Proof.
  intros Hmode Hnext Haccept. unfold advancePlain, accepted. rewrite Hnext.
  cbn [mbind option_bind].
  unfold decision, recovery, displayedGrid in Haccept. rewrite Hmode in Haccept.
  rewrite (isEmpty_plain _ _ Hmode).
  destruct (bool_decide (¬ hasLiveCell _ _)) eqn:Hempty; [done|].
  destruct (isSimulationStuck _ _ _) as [[] history]; [|done].
  cbn [fst negb] in Haccept.
  destruct (hard_reset_on_stuck _); [done|].
  destruct (try_revive_stuck_sim _); [|done]. cbn [negb] in Haccept.
  by repeat case_decide.
Qed.

(** Outside a fade the tick draws the grid on display and changes
    nothing. *)
Lemma paint_still_frame parseInt canvas timestamp view st :
  isFading view = false →
  paint parseInt canvas timestamp view st
  = (cmds ← renderGrid parseInt (settings view) false canvas
              (displayedGrid view) None 1;
     Some (st, cmds)).
Proof.
  intros Hstill. unfold paint, displayedGrid. rewrite Hstill.
  by destruct (color_mode (settings view)).
Qed.

(** X14.  A tick whose proposed grid is accepted (it is not stuck, or it
    is stuck with live cells while both the hard reset and the revival are
    off) makes it the target of a fade that starts now, leaves the grid on
    display as it was and draws that grid; the detector's history is kept,
    and the two counters go back to zero unless the grid was stuck. *)
Theorem tick_accepts (parseInt : string → Z → option Z) (host : Host)
    (timestamp : Qc) (st : AppState) (rng rng1 : Rng) (next : AnyGrid)
    (canvas : Canvas) (h w : nat) :
  let s := settings (pending st) in
  let verdict := isSimulationStuck s next (stateHistoryRef (refs st)) in
  advances host timestamp st →
  canvasRef host = Some canvas →
  proposedGrid (pending st) rng = Some (next, rng1) →
  decision st next = Accept →
  (0 < fade_amount s)%Qc → (0 < simulation_speed s * fade_amount s)%Qc →
  anyShape (displayedGrid (pending st)) h w → (0 < h)%nat →
  ∃ tick,
    gameLoop parseInt host timestamp st rng = Some tick
    ∧ displayedGrid (pending (state tick)) = displayedGrid (pending st)
    ∧ fadeTargetGrid (pending (state tick)) = next
    ∧ isFading (pending (state tick)) = true
    ∧ fadeStartTimeRef (refs (state tick)) = timestamp
    ∧ lastUpdateRef (refs (state tick)) = timestamp
    ∧ stateHistoryRef (refs (state tick)) = snd verdict
    ∧ (if fst verdict
       then stuckCounterRef (refs (state tick)) = stuckCounterRef (refs st)
            ∧ fibonacciIndexRef (refs (state tick))
              = fibonacciIndexRef (refs st)
       else stuckCounterRef (refs (state tick)) = 0
            ∧ fibonacciIndexRef (refs (state tick)) = 0)
    ∧ random tick = rng1
    ∧ rescheduled tick = true
    ∧ renderGrid parseInt s false canvas (displayedGrid (pending st)) None 1
      = Some (drawn tick).
Proof.
  intros s verdict Hadv Hcanvas Hnext Haccept Hfade Htime Hshape Hh.
  pose proof Hadv as (_ & _ & Hstill & _).
  destruct (renderGrid_alone_some parseInt s canvas _ h w false 1%Qc Hshape Hh)
    as [frame Hframe].
  assert (∀ st1,
    paint parseInt canvas timestamp (pending st) st1 = Some (st1, frame))
    as Hpaint.
  { intros st1. rewrite paint_still_frame by done. fold s. by rewrite Hframe. }
  unfold displayedGrid, fadeTargetGrid. subst s verdict.
  unfold displayedGrid in Hframe.
  destruct (color_mode (settings (pending st))) eqn:Hmode.
  - destruct (proposedGrid_colored _ _ _ _ Hmode Hnext)
      as (grid' & -> & Hgen & Hlen).
    rewrite (gameLoop_advances _ _ _ _ _ canvas) by (by rewrite ?Hmode).
    rewrite Hmode, (advanceColored_accepts _ _ _ _ grid' rng1) by done.
    cbn [mbind option_bind].
    rewrite settle_starts_fade by done. cbn [mbind option_bind].
    rewrite Hpaint. cbn [mbind option_bind].
    eexists. split; [reflexivity|]. unfold accepted.
    destruct (isSimulationStuck _ _ _) as [[] history]; cbn;
      rewrite ?Hmode; done.
  - destruct (proposedGrid_plain _ _ _ _ Hmode Hnext)
      as (grid' & -> & -> & Hgen & Hlen).
    rewrite (gameLoop_advances _ _ _ _ _ canvas) by (by rewrite ?Hmode).
    rewrite Hmode, (advancePlain_accepts _ _ _ _ grid') by done.
    cbn [mbind option_bind].
    rewrite settle_starts_fade by done. cbn [mbind option_bind].
    rewrite Hpaint. cbn [mbind option_bind].
    eexists. split; [reflexivity|]. unfold accepted.
    destruct (isSimulationStuck _ _ _) as [[] history]; cbn;
      rewrite ?Hmode; done.
Qed.

Lemma tick_accepts_witness :
  let st := sampleState block [] 0 0 in
  let s := settings (pending st) in
  advances sampleHost (Qc_of_Z 2000) st
  ∧ proposedGrid (pending st) sampleRng = Some (Plain block, sampleRng)
  ∧ decision st (Plain block) = Accept
  ∧ (0 < fade_amount s)%Qc
  ∧ anyShape (displayedGrid (pending st)) 4 4
  ∧ ∃ tick,
      gameLoop sampleParseInt sampleHost (Qc_of_Z 2000) st sampleRng
        = Some tick
      ∧ displayedGrid (pending (state tick)) = Plain block
      ∧ fadeTargetGrid (pending (state tick)) = Plain block
      ∧ isFading (pending (state tick)) = true.
Proof.
  intros st s.
  assert (proposedGrid (pending st) sampleRng = Some (Plain block, sampleRng))
    as Hnext by (by vm_compute).
  assert (decision st (Plain block) = Accept) as Hdecision by (by vm_compute).
  split; [apply sample_advances|]. split; [exact Hnext|].
  split; [exact Hdecision|]. split; [reflexivity|].
  split; [apply sample_shape|].
  destruct (tick_accepts sampleParseInt sampleHost (Qc_of_Z 2000) st
              sampleRng sampleRng (Plain block) sampleCanvas 4 4)
    as (tick & Hrun & Hshown & Htarget & Hfading & _);
    [apply sample_advances|reflexivity|exact Hnext|exact Hdecision
    |reflexivity|reflexivity|apply sample_shape|lia|].
  exists tick. done.
Defined.

(** ** The tick: during a fade *)

Lemma min_one_reached (q : Qc) : (1 ≤ JS.min q 1)%Qc → JS.min q 1 = 1%Qc.
Proof.
  intros Hreached. apply Qcle_antisym; [|done].
  unfold JS.min. case_decide; [done|apply Qcle_refl].
Qed.

Lemma anyShape_nonempty grid h w :
  anyShape grid h w → (0 < h)%nat →
  match grid with Plain grid => length grid | Colored grid => length grid end
  ≠ 0%nat.
Proof. intros Hshape Hh. rewrite (anyShape_length grid h w) by done. lia. Qed.

(** The last frame of a fade is the frame of the target alone. *)
Lemma renderGrid_fade_end parseInt settings canvas current target h w :
  anyShape current h w → anyShape target h w → (0 < h)%nat →
  (0 < fade_amount settings)%Qc →
  renderGrid parseInt settings true canvas current (Some target) 1
  = renderGrid parseInt settings false canvas target None 1.
Proof.
  intros Hcurrent Htarget Hh Hfade. unfold renderGrid.
  rewrite (anyShape_rows current h w), (anyShape_rows target h w) by done.
  rewrite lookup_replicate_2, length_replicate by done.
  cbn [mbind option_bind]. apply frame_ext. intros x y Hx Hy.
  by apply (renderCell_fade_endpoints parseInt settings current target h w).
Qed.

(** X15.  While a fade is running, with a fade time that is not zero
    (it divides the time elapsed), a tick does not advance the
    simulation: it draws the blend of the grid on display and the target at
    the progress of the fade and keeps the refs; before the progress reaches
    1 it changes nothing, and when it does (with a positive fade time: when
    the fade time has elapsed) it puts the target on display, empties the
    target and ends the fade, the frame drawn being the target's own. *)
Theorem tick_fades (parseInt : string → Z → option Z) (host : Host)
    (timestamp : Qc) (st : AppState) (rng : Rng) (canvas : Canvas)
    (h w : nat) :
  let view := pending st in
  let s := settings view in
  let fadeTime := (simulation_speed s * fade_amount s)%Qc in
  let elapsed := (timestamp - fadeStartTimeRef (refs st))%Qc in
  let progress := JS.min (elapsed / fadeTime)%Qc 1%Qc in
  wallpaperPaused (window host) = false →
  canvasRef host = Some canvas → context2d canvas = true →
  isFading view = true → fadeTime ≠ 0%Qc →
  anyShape (displayedGrid view) h w → anyShape (fadeTargetGrid view) h w →
  (0 < h)%nat →
  ∃ tick,
    gameLoop parseInt host timestamp st rng = Some tick
    ∧ renderGrid parseInt s true canvas (displayedGrid view)
        (Some (fadeTargetGrid view)) progress = Some (drawn tick)
    ∧ random tick = rng ∧ rescheduled tick = true
    ∧ refs (state tick) = refs st
    ∧ ((progress < 1)%Qc → state tick = st)
    ∧ ((1 ≤ progress)%Qc →
       displayedGrid (pending (state tick)) = fadeTargetGrid view
       ∧ fadeTargetGrid (pending (state tick)) = emptyGrid s
       ∧ isFading (pending (state tick)) = false
       ∧ settings (pending (state tick)) = s
       ∧ ((0 < fade_amount s)%Qc →
          renderGrid parseInt s false canvas (fadeTargetGrid view) None 1
          = Some (drawn tick)))
    ∧ ((0 < fadeTime)%Qc → (1 ≤ progress)%Qc ↔ (fadeTime ≤ elapsed)%Qc).
Proof.
  intros view s fadeTime elapsed progress Hpaused Hcanvas Hctx Hfading _
    Hshown Htarget Hh.
  destruct (renderGrid_some parseInt s true canvas (displayedGrid view)
              (Some (fadeTargetGrid view)) h w progress)
    as [frame Hframe]; [done|by intros ? [= <-]|done|].
  assert ((0 < fadeTime)%Qc → (1 ≤ progress)%Qc ↔ (fadeTime ≤ elapsed)%Qc)
    as Helapsed.
  { intros Htime.
    assert (fadeTime ≠ 0%Qc) as Hne
      by (by apply Qclt_not_eq in Htime as ?%not_eq_sym).
    assert (elapsed / fadeTime * fadeTime = elapsed)%Qc as Hcancel
      by (by field).
    unfold progress, JS.min. case_decide as Hle; split.
    - intros Hone. apply (Qcmult_le_mono_pos_r _ _ fadeTime Htime) in Hone.
      by rewrite Hcancel, Qcmult_1_l in Hone.
    - intros Hdone. apply (Qcmult_le_mono_pos_r _ _ fadeTime Htime).
      by rewrite Hcancel, Qcmult_1_l.
    - intros _. apply Qcnot_le_lt, Qclt_le_weak in Hle.
      apply (Qcmult_le_mono_pos_r _ _ fadeTime Htime) in Hle.
      by rewrite Hcancel, Qcmult_1_l in Hle.
    - intros _. apply Qcle_refl. }
  pose proof (anyShape_nonempty _ h w Hshown Hh) as Hlen.
  unfold gameLoop. rewrite Hpaused, Hcanvas, Hctx. fold view s.
  unfold displayedGrid, fadeTargetGrid, emptyGrid in *. fold s in Hlen, Hframe |- *.
  rewrite Hfading. cbn [negb andb mbind option_bind].
  unfold paint. fold view s fadeTime elapsed progress. rewrite Hfading.
  destruct (color_mode s) eqn:Hmode;
    pose proof Hmode as Hmode'; unfold s, view in Hmode';
    change (color_mode s) with (color_mode (settings view)) in Hmode;
    rewrite Hmode in Hshown, Htarget.
  - rewrite (bool_decide_eq_false_2 _ Hlen), Hframe. cbn [mbind option_bind].
    case_decide as Hdone; eexists; (split; [reflexivity|]);
      cbn [state random drawn rescheduled refs pending settings grid
           coloredGrid targetGrid targetColoredGrid isFading setIsFading
           setGrid setColoredGrid setTargetGrid setTargetColoredGrid];
      rewrite ?Hmode'; (split; [done|]); (split; [done|]); (split; [done|]);
      (split; [done|]).
    + split; [by intros Hlt%Qclt_not_le|]. split; [|done]. intros _.
      split_and!; try done. intros Hfade. rewrite <- Hframe.
      assert (progress = 1%Qc) as -> by (by apply min_one_reached).
      symmetry.
      by apply (renderGrid_fade_end _ _ _ _ _ h w).
    + split; [done|]. split; [done|done].
  - rewrite (bool_decide_eq_false_2 _ Hlen), Hframe. cbn [mbind option_bind].
    case_decide as Hdone; eexists; (split; [reflexivity|]);
      cbn [state random drawn rescheduled refs pending settings grid
           coloredGrid targetGrid targetColoredGrid isFading setIsFading
           setGrid setColoredGrid setTargetGrid setTargetColoredGrid];
      rewrite ?Hmode'; (split; [done|]); (split; [done|]); (split; [done|]);
      (split; [done|]).
    + split; [by intros Hlt%Qclt_not_le|]. split; [|done]. intros _.
      split_and!; try done. intros Hfade. rewrite <- Hframe.
      assert (progress = 1%Qc) as -> by (by apply min_one_reached).
      symmetry.
      by apply (renderGrid_fade_end _ _ _ _ _ h w).
    + split; [done|]. split; [done|done].
Qed.

Lemma tick_fades_witness :
  let s := settings (pending fadingState) in
  isFading (pending fadingState) = true
  ∧ (simulation_speed s * fade_amount s)%Qc ≠ 0%Qc
  ∧ anyShape (displayedGrid (pending fadingState)) 4 4
  ∧ anyShape (fadeTargetGrid (pending fadingState)) 4 4
  ∧ ∃ tick,
      gameLoop sampleParseInt sampleHost (Qc_of_Z 2000) fadingState sampleRng
        = Some tick
      ∧ displayedGrid (pending (state tick)) = Plain loneCell
      ∧ isFading (pending (state tick)) = false.
Proof.
  intros s. split; [reflexivity|]. split; [by intros ?%(f_equal this)|].
  split; [apply sample_shape|]. split; [apply sample_shape|].
  destruct (tick_fades sampleParseInt sampleHost (Qc_of_Z 2000) fadingState
              sampleRng sampleCanvas 4 4)
    as (tick & Hrun & _ & _ & _ & _ & _ & Hcommit & _);
    [reflexivity|reflexivity|reflexivity|reflexivity
    |by intros ?%(f_equal this)|apply sample_shape|apply sample_shape|lia|].
  exists tick. split; [exact Hrun|].
  destruct Hcommit as (Hshown & _ & Hfading & _); [by vm_compute|].
  split; [exact Hshown|exact Hfading].
Defined.

(** ** The tick: without a fade *)

(** With the fade off and no target in the snapshot, [settle] computes
    the next generation of the grid on display again and commits it. *)
Lemma settle_commits timestamp view st rng :
  ¬ ((0 < fade_amount (settings view))%Qc
     ∧ (0 < simulation_speed (settings view) * fade_amount (settings view))%Qc) →
  fadeTargetGrid view = emptyGrid (settings view) →
  settle timestamp view st rng
  = ('(again, rng') ← proposedGrid view rng;
     Some (setLastUpdate timestamp (commit again st), rng')).
Proof.
  intros Hoff Hnone. unfold settle, proposedGrid.
  assert (bool_decide (0 < fade_amount (settings view))%Qc
          && bool_decide (0 < simulation_speed (settings view)
                              * fade_amount (settings view))%Qc = false)
    as ->.
  { apply not_true_is_false. intros [H1 H2]%andb_true_iff.
    apply Hoff. by split; apply (bool_decide_eq_true_1 _). }
  unfold fadeTargetGrid, emptyGrid in Hnone.
  destruct (color_mode (settings view)).
  - injection Hnone as ->. cbn [length].
    rewrite decide_False by lia.
    by destruct (nextGenerationColored _ _ _) as [[again rng']|].
  - injection Hnone as ->. cbn [length].
    rewrite decide_False by lia.
    by destruct (nextGeneration _ _) as [again|].
Qed.

Lemma accepted_pending st next : pending (accepted st next) = pending st.
Proof.
  unfold accepted. by destruct (isSimulationStuck _ _ _) as [[] history].
Qed.

Lemma proposedGrid_some view rng h w :
  anyShape (displayedGrid view) h w → (0 < h)%nat → (0 < w)%nat →
  ∃ next rng1,
    proposedGrid view rng = Some (next, rng1)
    ∧ anyShape next h w
    ∧ (rng_ok rng → rng_ok rng1)
    ∧ (color_mode (settings view) = true → ∃ grid', next = Colored grid')
    ∧ (color_mode (settings view) = false →
       rng1 = rng ∧ ∃ grid', next = Plain grid').
Proof.
  intros Hshape Hh Hw. unfold proposedGrid, displayedGrid in *.
  destruct (color_mode (settings view)).
  - destruct (nextGenerationColored_spec (settings view) _ h w rng
                Hshape Hh Hw) as (grid' & rng' & -> & Hshape' & Hok & _).
    cbn [mbind option_bind]. exists (Colored grid'), rng'.
    split_and!; try done. by exists grid'.
  - destruct (nextGeneration_spec (settings view) _ h w Hshape Hh Hw)
      as (grid' & -> & Hshape' & _).
    cbn [mbind option_bind]. exists (Plain grid'), rng.
    split_and!; try done. intros _. split; [done|]. by exists grid'.
Qed.

Lemma proposedGrid_plain_same view rng rng' next :
  color_mode (settings view) = false →
  proposedGrid view rng = Some (next, rng) →
  proposedGrid view rng' = Some (next, rng').
Proof.
  intros Hmode. unfold proposedGrid. rewrite Hmode.
  destruct (nextGeneration _ _) as [grid'|]; [|done].
  cbn [mbind option_bind]. by intros [= <-].
Qed.

(** X16.  With the fade off and an empty target, a tick that does not
    reset commits at once: the grid that goes on display is the next
    generation of the displayed grid computed again, on the draws left by
    the recovery step, and not the grid that the recovery step produced; in
    standard mode it is the proposed grid itself, so the cells that a
    perturbation flipped are dropped although the perturbation is counted. *)
Theorem tick_without_fade (parseInt : string → Z → option Z) (host : Host)
    (timestamp : Qc) (st : AppState) (rng rng1 : Rng) (next : AnyGrid)
    (h w : nat) :
  let s := settings (pending st) in
  advances host timestamp st →
  proposedGrid (pending st) rng = Some (next, rng1) →
  decision st next ≠ Reset →
  ¬ ((0 < fade_amount s)%Qc ∧ (0 < simulation_speed s * fade_amount s)%Qc) →
  fadeTargetGrid (pending st) = emptyGrid s →
  anyShape (displayedGrid (pending st)) h w → (0 < h)%nat → (0 < w)%nat →
  rng_ok rng →
  ∃ tick rng2 again,
    gameLoop parseInt host timestamp st rng = Some tick
    ∧ proposedGrid (pending st) rng2 = Some (again, random tick)
    ∧ displayedGrid (pending (state tick)) = again
    ∧ fadeTargetGrid (pending (state tick)) = emptyGrid s
    ∧ isFading (pending (state tick)) = false
    ∧ lastUpdateRef (refs (state tick)) = timestamp
    ∧ (color_mode s = false → again = next)
    ∧ match decision st next with
      | Perturb cellsToFlip =>
          (∃ flipped, flippedGrid next cellsToFlip rng1 = Some (flipped, rng2))
          ∧ fibonacciIndexRef (refs (state tick))
            = fibonacciIndexRef (refs st) + 1
          ∧ stuckCounterRef (refs (state tick))
            = stuckCounterRef (refs st) + 1
      | _ => rng2 = rng1
      end.
Proof.
  intros s Hadv Hnext Hgoes Hoff Hnone Hshape Hh Hw Hok.
  pose proof Hadv as (_ & (canvas & Hcanvas & _) & Hstill & _).
  destruct (renderGrid_alone_some parseInt s canvas _ h w false 1%Qc Hshape Hh)
    as [frame Hframe].
  assert (∀ st1,
    paint parseInt canvas timestamp (pending st) st1 = Some (st1, frame))
    as Hpaint.
  { intros st1. rewrite paint_still_frame by done. fold s. by rewrite Hframe. }
  destruct (proposedGrid_some (pending st) rng h w Hshape Hh Hw)
    as (next' & rng1' & Hnext' & Hshape1 & Hok1 & _).
  rewrite Hnext in Hnext'. injection Hnext' as <- <-.
  assert (∀ rng2 st1,
    ∃ again rng3,
      proposedGrid (pending st) rng2 = Some (again, rng3)
      ∧ settle timestamp (pending st) st1 rng2
        = Some (setLastUpdate timestamp (commit again st1), rng3)
      ∧ (color_mode s = false → again = next)) as Hsettle.
  { intros rng2 st1.
    destruct (proposedGrid_some (pending st) rng2 h w Hshape Hh Hw)
      as (again & rng3 & Hagain & _ & _ & _ & Hplain).
    exists again, rng3. split; [done|]. split.
    - rewrite settle_commits by done. by rewrite Hagain.
    - intros Hmode. destruct (Hplain Hmode) as [-> _].
      destruct (proposedGrid_plain _ _ _ _ Hmode Hnext) as (g & -> & -> & _).
      pose proof (proposedGrid_plain_same _ _ rng2 _ Hmode Hnext) as Hsame.
      congruence. }
  destruct (decision st next) as [| |cellsToFlip] eqn:Hdecision; [|done|].
  - (* accepted *)
    destruct (color_mode s) eqn:Hmode_s; pose proof Hmode_s as Hmode;
      unfold s in Hmode.
    + destruct (proposedGrid_colored _ _ _ _ Hmode Hnext)
        as (grid' & -> & Hgen & Hlen).
      rewrite (gameLoop_advances _ _ _ _ _ canvas) by (by rewrite ?Hmode).
      rewrite Hmode, (advanceColored_accepts _ _ _ _ grid' rng1) by done.
      cbn [mbind option_bind].
      match goal with
      | |- context [settle _ _ ?st1 _] =>
          destruct (Hsettle rng1 st1) as (again & rng3 & Hagain & -> & Hsame)
      end.
      cbn [mbind option_bind]. rewrite Hpaint. cbn [mbind option_bind].
      eexists _, rng1, again. split; [reflexivity|].
      destruct (proposedGrid_colored _ _ _ _ Hmode Hagain) as (g & -> & _).
      unfold displayedGrid, fadeTargetGrid, emptyGrid. cbn.
      rewrite ?accepted_pending, ?Hmode, ?Hmode_s. done.
    + destruct (proposedGrid_plain _ _ _ _ Hmode Hnext)
        as (grid' & -> & -> & Hgen & Hlen).
      rewrite (gameLoop_advances _ _ _ _ _ canvas) by (by rewrite ?Hmode).
      rewrite Hmode, (advancePlain_accepts _ _ _ _ grid') by done.
      cbn [mbind option_bind].
      match goal with
      | |- context [settle _ _ ?st1 _] =>
          destruct (Hsettle rng st1) as (again & rng3 & Hagain & -> & Hsame)
      end.
      cbn [mbind option_bind]. rewrite Hpaint. cbn [mbind option_bind].
      eexists _, rng, again. split; [reflexivity|].
      destruct (proposedGrid_plain _ _ _ _ Hmode Hagain) as (g & -> & _).
      unfold displayedGrid, fadeTargetGrid, emptyGrid. cbn.
      rewrite ?accepted_pending, ?Hmode, ?Hmode_s. done.
  - (* perturbed *)
    destruct (color_mode s) eqn:Hmode_s; pose proof Hmode_s as Hmode;
      unfold s in Hmode.
    + destruct (proposedGrid_colored _ _ _ _ Hmode Hnext)
        as (grid' & -> & Hgen & Hlen).
      destruct (flipRandomCellsColored_spec grid' h w cellsToFlip rng1
                  Hshape1 Hh Hw (Hok1 Hok)) as (flipped & rng2 & Hflip & _).
      rewrite (gameLoop_advances _ _ _ _ _ canvas) by (by rewrite ?Hmode).
      rewrite Hmode, (advanceColored_perturbs _ _ _ _ grid' rng1 cellsToFlip)
        by done.
      rewrite Hflip. cbn [mbind option_bind].
      match goal with
      | |- context [settle _ _ ?st1 _] =>
          destruct (Hsettle rng2 st1) as (again & rng3 & Hagain & -> & Hsame)
      end.
      cbn [mbind option_bind]. rewrite Hpaint. cbn [mbind option_bind].
      eexists _, rng2, again. split; [reflexivity|].
      destruct (proposedGrid_colored _ _ _ _ Hmode Hagain) as (g & -> & _).
      unfold displayedGrid, fadeTargetGrid, emptyGrid. cbn.
      rewrite ?Hmode, ?Hmode_s, ?Hflip. split_and!; try done. by eexists.
    + destruct (proposedGrid_plain _ _ _ _ Hmode Hnext)
        as (grid' & -> & -> & Hgen & Hlen).
      destruct (flipRandomCells_spec grid' h w cellsToFlip rng
                  Hshape1 Hh Hw Hok) as (flipped & rng2 & Hflip & _).
      rewrite (gameLoop_advances _ _ _ _ _ canvas) by (by rewrite ?Hmode).
      rewrite Hmode, (advancePlain_perturbs _ _ _ _ grid' cellsToFlip) by done.
      rewrite Hflip. cbn [mbind option_bind].
      match goal with
      | |- context [settle _ _ ?st1 _] =>
          destruct (Hsettle rng2 st1) as (again & rng3 & Hagain & -> & Hsame)
      end.
      cbn [mbind option_bind]. rewrite Hpaint. cbn [mbind option_bind].
      eexists _, rng2, again. split; [reflexivity|].
      destruct (proposedGrid_plain _ _ _ _ Hmode Hagain) as (g & -> & _).
      unfold displayedGrid, fadeTargetGrid, emptyGrid. cbn.
      rewrite ?Hmode, ?Hmode_s, ?Hflip. split_and!; try done. by eexists.
Qed.

Lemma tick_without_fade_witness :
  let st := noFadeState in
  advances sampleHost (Qc_of_Z 2000) st
  ∧ proposedGrid (pending st) sampleRng = Some (Plain block, sampleRng)
  ∧ decision st (Plain block) = Perturb 1
  ∧ fadeTargetGrid (pending st) = emptyGrid (settings (pending st))
  ∧ ∃ tick,
      gameLoop sampleParseInt sampleHost (Qc_of_Z 2000) st sampleRng
        = Some tick
      ∧ displayedGrid (pending (state tick)) = Plain block
      ∧ fibonacciIndexRef (refs (state tick)) = 1.
Proof.
  intros st.
  assert (advances sampleHost (Qc_of_Z 2000) st) as Hadv.
  { split_and!; [done|by eexists|done|]. by vm_compute. }
  assert (proposedGrid (pending st) sampleRng = Some (Plain block, sampleRng))
    as Hnext by (by vm_compute).
  assert (decision st (Plain block) = Perturb 1) as Hdecision
    by (by vm_compute).
  split; [exact Hadv|]. split; [exact Hnext|]. split; [exact Hdecision|].
  split; [reflexivity|].
  destruct (tick_without_fade sampleParseInt sampleHost (Qc_of_Z 2000) st
              sampleRng sampleRng (Plain block) 4 4)
    as (tick & rng2 & again & Hrun & _ & Hshown & _ & _ & _ & Hsame & Hcount);
    [exact Hadv|exact Hnext|by rewrite Hdecision
    |intros [Hfade _]; by vm_compute in Hfade|reflexivity
    |apply sample_shape|lia|lia|apply sample_rng_ok|].
  exists tick. split; [exact Hrun|]. split.
  - rewrite Hshown. by apply Hsame.
  - rewrite Hdecision in Hcount. by destruct Hcount as (_ & -> & _).
Defined.

(** ** The tick: at rest *)

(** X17.  A tick does nothing but ask for the next frame while the
    wallpaper is paused, the canvas or its context is missing, or the grid
    on display is empty: the state and the draws are as they were and
    nothing is drawn.  Outside a fade, before the cycle time has elapsed,
    it redraws the grid on display and changes nothing either. *)
Theorem gameLoop_rests (parseInt : string → Z → option Z) (host : Host)
    (timestamp : Qc) (st : AppState) (rng : Rng) :
  let view := pending st in
  let s := settings view in
  (wallpaperPaused (window host) = true
   ∨ canvasRef host = None
   ∨ (∃ canvas, canvasRef host = Some canvas ∧ context2d canvas = false)
   ∨ displayedGrid view = emptyGrid s →
   gameLoop parseInt host timestamp st rng
   = Some {| state := st; random := rng; drawn := []; rescheduled := true |})
  ∧ (∀ canvas h w,
       wallpaperPaused (window host) = false →
       canvasRef host = Some canvas → context2d canvas = true →
       isFading view = false →
       (timestamp - lastUpdateRef (refs st)
        < simulation_speed s * fade_amount s + stable_display_time s)%Qc →
       anyShape (displayedGrid view) h w → (0 < h)%nat →
       ∃ frame,
         renderGrid parseInt s false canvas (displayedGrid view) None 1
         = Some frame
         ∧ gameLoop parseInt host timestamp st rng
           = Some {| state := st; random := rng; drawn := frame;
                     rescheduled := true |}).
Proof.
  intros view s. split.
  - intros Hidle. unfold gameLoop. fold view s.
    destruct (wallpaperPaused (window host)); [done|].
    destruct (canvasRef host) as [canvas|]; [|done].
    destruct Hidle as [?|[?|[(canvas' & [= <-] & Hctx)|Hempty]]]; try done.
    + rewrite Hctx. by destruct (if color_mode s then _ else _).
    + unfold displayedGrid, emptyGrid in Hempty. fold s in Hempty.
      destruct (color_mode s); injection Hempty as ->; done.
  - intros canvas h w Hpaused Hcanvas Hctx Hstill Hearly Hshape Hh.
    destruct (renderGrid_alone_some parseInt s canvas _ h w false 1%Qc
                Hshape Hh) as [frame Hframe].
    exists frame. split; [done|].
    pose proof (anyShape_nonempty _ h w Hshape Hh) as Hlen.
    unfold gameLoop. fold view s. rewrite Hpaused, Hcanvas, Hctx, Hstill.
    rewrite (bool_decide_eq_false_2 _ (Qclt_not_le _ _ Hearly)).
    cbn [negb andb mbind option_bind].
    rewrite paint_still_frame by done. fold s. rewrite Hframe.
    unfold displayedGrid in Hlen. fold s in Hlen.
    destruct (color_mode s); by rewrite (bool_decide_eq_false_2 _ Hlen).
Qed.

Lemma gameLoop_rests_witness :
  let st := sampleState block [] 0 0 in
  (Qc_of_Z 1000 - lastUpdateRef (refs st)
   < simulation_speed (settings (pending st))
     * fade_amount (settings (pending st))
     + stable_display_time (settings (pending st)))%Qc
  ∧ anyShape (displayedGrid (pending st)) 4 4
  ∧ ∃ frame,
      gameLoop sampleParseInt sampleHost (Qc_of_Z 1000) st sampleRng
      = Some {| state := st; random := sampleRng; drawn := frame;
                rescheduled := true |}.
Proof.
  intros st. split; [reflexivity|]. split; [apply sample_shape|].
  destruct (proj2 (gameLoop_rests sampleParseInt sampleHost (Qc_of_Z 1000) st
                     sampleRng) sampleCanvas 4%nat 4%nat)
    as (frame & _ & Hrun);
    [reflexivity|reflexivity|reflexivity|reflexivity|reflexivity
    |apply sample_shape|lia|].
  by exists frame.
Defined.

(** ** The size of a perturbation *)

Lemma resetPlain_returns host timestamp view st rng st' rng' :
  resetPlain host timestamp view st rng ≠ Some (Continues st' rng').
Proof.
  unfold resetPlain. destruct (calculateGridDimensions _ _); [|done].
  cbn [mbind option_bind]. by destruct (createRandomGrid _ _ _ _).
Qed.

Lemma resetColored_returns host timestamp view st rng st' rng' :
  resetColored host timestamp view st rng ≠ Some (Continues st' rng').
Proof.
  unfold resetColored. destruct (calculateGridDimensions _ _); [|done].
  cbn [mbind option_bind]. by destruct (createRandomColoredGrid _ _ _ _).
Qed.

Lemma third_of_cells (cells n : Z) :
  ¬ (Qc_of_Z cells / Qc_of_Z 3 < Qc_of_Z n)%Qc → 3 * n ≤ cells.
Proof.
  intros Hle%Qcnot_lt_le.
  apply (Qcmult_le_mono_pos_r _ _ (Qc_of_Z 3)) in Hle;
    [|by apply Qc_of_Z_pos].
  replace (Qc_of_Z cells / Qc_of_Z 3 * Qc_of_Z 3)%Qc with (Qc_of_Z cells)
    in Hle by (field; by apply Qc_of_Z_nonzero).
  rewrite <- Z2Qc_inj_mul in Hle. apply Z2Qc_inj_le in Hle. lia.
Qed.

(** X18.  When the recovery step of a tick perturbs the proposed grid
    (it goes on with the Fibonacci index raised by one), the number of
    cells it asked to flip is the Fibonacci number of the old index, at
    least 1 and at most a third of the cells of the grid on display, and
    the attempt, which is counted, was within [max_revival_attempts]. *)
Theorem perturbation_bounded (host : Host) (timestamp : Qc)
    (st st' : AppState) (rng rng' : Rng) :
  let s := settings (pending st) in
  let cellsToFlip := fibonacci (fibonacciIndexRef (refs st)) in
  0 ≤ fibonacciIndexRef (refs st) →
  fibonacciIndexRef (refs st') = fibonacciIndexRef (refs st) + 1 →
  (advancePlain host timestamp (pending st) st rng
     = Some (Continues st' rng') →
   1 ≤ cellsToFlip
   ∧ 3 * cellsToFlip ≤ totalCells (Plain (grid (pending st)))
   ∧ stuckCounterRef (refs st) + 1 ≤ max_revival_attempts s
   ∧ stuckCounterRef (refs st') = stuckCounterRef (refs st) + 1
   ∧ ∃ next,
       nextGeneration s (grid (pending st)) = Some next
       ∧ flipRandomCells next cellsToFlip rng
         = Some (targetGrid (pending st'), rng'))
  ∧ (advanceColored host timestamp (pending st) st rng
       = Some (Continues st' rng') →
     1 ≤ cellsToFlip
     ∧ 3 * cellsToFlip ≤ totalCells (Colored (coloredGrid (pending st)))
     ∧ stuckCounterRef (refs st) + 1 ≤ max_revival_attempts s
     ∧ stuckCounterRef (refs st') = stuckCounterRef (refs st) + 1
     ∧ ∃ next rng1,
         nextGenerationColored s (coloredGrid (pending st)) rng
           = Some (next, rng1)
         ∧ flipRandomCellsColored next cellsToFlip rng1
           = Some (targetColoredGrid (pending st'), rng')).
Proof.
  intros s cellsToFlip Hindex Hraised.
  assert (1 ≤ cellsToFlip) as Hpositive.
  { pose proof (fibonacci_iter_positive
                  (Z.to_nat (fibonacciIndexRef (refs st) - 1))) as [_ Hpos].
    unfold cellsToFlip, fibonacci. repeat case_decide; lia. }
  split.
  - unfold advancePlain. fold s.
    destruct (nextGeneration s _) as [next|]; [|done].
    cbn [mbind option_bind].
    destruct (isSimulationStuck _ _ _) as [[] history].
    2:{ intros [= <- _]. cbn in Hraised. lia. }
    destruct (hard_reset_on_stuck s); [by intros ?%resetPlain_returns|].
    destruct (negb (existsb _ _)); [by intros ?%resetPlain_returns|].
    destruct (try_revive_stuck_sim s); cbn [negb].
    2:{ intros [= <- _]. cbn in Hraised. lia. }
    cbn [refs setStuckCounter setStateHistory withRefs stuckCounterRef
         fibonacciIndexRef].
    case_decide as Hattempts; [by intros ?%resetPlain_returns|].
    unfold totalCells.
    destruct (grid (pending st) !! 0%nat) as [row0|]; [|done].
    cbn [mbind option_bind default].
    case_decide as Hthird; [by intros ?%resetPlain_returns|].
    fold cellsToFlip.
    destruct (flipRandomCells next cellsToFlip rng) as [[flipped rng2]|]
      eqn:Hflip; [|done].
    cbn [mbind option_bind]. intros [= <- <-]. cbn.
    split_and!; [done|by apply third_of_cells|lia|done|by exists next].
  - unfold advanceColored. fold s.
    destruct (nextGenerationColored s _ _) as [[next rng1]|]; [|done].
    cbn [mbind option_bind].
    destruct (isSimulationStuck _ _ _) as [[] history].
    2:{ intros [= <- _]. cbn in Hraised. lia. }
    destruct (hard_reset_on_stuck s); [by intros ?%resetColored_returns|].
    destruct (negb (existsb _ _)); [by intros ?%resetColored_returns|].
    destruct (try_revive_stuck_sim s); cbn [negb].
    2:{ intros [= <- _]. cbn in Hraised. lia. }
    cbn [refs setStuckCounter setStateHistory withRefs stuckCounterRef
         fibonacciIndexRef].
    case_decide as Hattempts; [by intros ?%resetColored_returns|].
    unfold totalCells.
    destruct (coloredGrid (pending st) !! 0%nat) as [row0|]; [|done].
    cbn [mbind option_bind default].
    case_decide as Hthird; [by intros ?%resetColored_returns|].
    fold cellsToFlip.
    destruct (flipRandomCellsColored next cellsToFlip rng1)
      as [[flipped rng2]|] eqn:Hflip; [|done].
    cbn [mbind option_bind]. intros [= <- <-]. cbn.
    split_and!; [done|by apply third_of_cells|lia|done|by exists next, rng1].
Qed.

Lemma perturbation_bounded_witness :
  let st := sampleState block [fingerprint (sampleSettings false false)
                                 (Plain block)] 0 0 in
  ∃ st' rng',
    advancePlain sampleHost (Qc_of_Z 2000) (pending st) st sampleRng
      = Some (Continues st' rng')
    ∧ fibonacciIndexRef (refs st') = fibonacciIndexRef (refs st) + 1
    ∧ 3 * fibonacci (fibonacciIndexRef (refs st))
      ≤ totalCells (Plain (grid (pending st))).
Proof.
  intros st.
  destruct (advancePlain sampleHost (Qc_of_Z 2000) (pending st) st sampleRng)
    as [[tick|st' rng']|] eqn:Hrun;
    [by vm_compute in Hrun| |by vm_compute in Hrun].
  assert (fibonacciIndexRef (refs st') = fibonacciIndexRef (refs st) + 1)
    as Hraised.
  { pose proof Hrun as Hrun'. vm_compute in Hrun'.
    by injection Hrun' as <- _. }
  exists st', rng'. split; [done|]. split; [exact Hraised|].
  apply (proj1 (perturbation_bounded sampleHost (Qc_of_Z 2000) st st'
                  sampleRng rng' ltac:(simpl; lia) Hraised) Hrun).
Defined.

(** ** Random grids and the draws *)

(** Cells that each read one draw are filled from consecutive draws. *)
Lemma generate_draws {A} (f : Qc → A) (n : nat) (rng : Rng) :
  generate n (λ rng, let '(d, rng1) := Math_random rng in (f d, rng1)) rng
  = (map (λ k, f (rng k)) (seq 0 n), λ k, rng (n + k)%nat).
Proof.
  revert rng. induction n as [|n IH]; intros rng; [done|].
  cbn [generate]. unfold Math_random at 1. rewrite IH.
  cbn [seq map]. by rewrite <- seq_shift, map_map.
Qed.

Lemma generate_rows {A} (f : Qc → A) (h w : nat) (rng : Rng) :
  let cell rng := let '(d, rng1) := Math_random rng in (f d, rng1) in
  fst (generate h (generate w cell) rng)
  = map (λ x, map (λ y, f (rng (x * w + y)%nat)) (seq 0 w)) (seq 0 h)
  ∧ ∀ k, snd (generate h (generate w cell) rng) k = rng (h * w + k)%nat.
Proof.
  intros cell. unfold cell. clear cell.
  revert rng. induction h as [|h IH]; intros rng; [done|].
  cbn [generate]. rewrite (generate_draws f w rng).
  destruct (IH (λ k, rng (w + k)%nat)) as [IHrows IHrng].
  destruct (generate h _ _) as [rows rng'].
  cbn [fst snd] in *. split.
  - cbn [seq map]. f_equal. rewrite IHrows, <- seq_shift, map_map.
    apply map_ext. intros x. apply map_ext. intros y.
    by replace (w + (x * w + y))%nat with (S x * w + y)%nat by (simpl; lia).
  - intros k. rewrite IHrng.
    by replace (w + (h * w + k))%nat with (S h * w + k)%nat by (simpl; lia).
Qed.

Lemma map_seq_const {A} (f : nat → A) (v : A) (start n : nat) :
  (∀ k, f k = v) → map f (seq start n) = replicate n v.
Proof.
  intros Hf. revert start. induction n as [|n IH]; intros start; [done|].
  cbn [seq map replicate]. by rewrite Hf, IH.
Qed.

(** X19.  [createRandomGrid] reads one draw for each cell, row by row:
    the cell in row [x] and column [y] is alive exactly when the draw
    number [x * width + y] is below the population percentage.  With draws
    in [[0, 1)], a percentage of 0 or less gives a grid without a live
    cell, and a percentage of 1 or more a grid without a dead one. *)
Theorem createRandomGrid_cells (settings : GameSettings) (width height : Z)
    (rng : Rng) :
  let h := Z.to_nat height in
  let w := Z.to_nat width in
  let p := grid_population_percentage settings in
  let grid := fst (createRandomGrid settings width height rng) in
  let rng' := snd (createRandomGrid settings width height rng) in
  (∀ x y, (x < h)%nat → (y < w)%nat →
     cellAt grid x y = Some (bool_decide (rng (x * w + y)%nat < p)%Qc))
  ∧ (∀ k, rng' k = rng (h * w + k)%nat)
  ∧ (rng_ok rng → (p ≤ 0)%Qc → grid = replicate h (replicate w false))
  ∧ (rng_ok rng → (1 ≤ p)%Qc → grid = replicate h (replicate w true)).
Proof.
  intros h w p. unfold createRandomGrid. fold h w p.
  pose proof (generate_rows (λ d, bool_decide (d < p)%Qc) h w rng)
    as [Hrows Hrng].
  destruct (generate h _ rng) as [grid rng']. cbn [fst snd] in *. subst grid.
  cbn zeta. split_and!.
  - intros x y Hx Hy. unfold cellAt.
    rewrite list_lookup_fmap, lookup_seq_lt by done. cbn.
    by rewrite list_lookup_fmap, lookup_seq_lt by done.
  - done.
  - intros Hok Hp. apply map_seq_const. intros x. apply map_seq_const.
    intros y. apply bool_decide_eq_false_2. intros Hlt.
    destruct (Hok (x * w + y)%nat) as [Hdraw _].
    apply (Qclt_not_le _ _ Hlt). by apply Qcle_trans with 0%Qc.
  - intros Hok Hp. apply map_seq_const. intros x. apply map_seq_const.
    intros y. apply bool_decide_eq_true_2.
    destruct (Hok (x * w + y)%nat) as [_ Hdraw].
    by apply Qclt_le_trans with 1%Qc.
Qed.

Lemma createRandomGrid_cells_witness :
  (0 < 4)%nat
  ∧ cellAt (fst (createRandomGrid (sampleSettings false false) 4 4 sampleRng))
      0 0 = Some true.
Proof.
  split; [lia|].
  rewrite (proj1 (createRandomGrid_cells (sampleSettings false false) 4 4
                    sampleRng) 0%nat 0%nat) by (simpl; lia).
  reflexivity.
Defined.

(** ** The property listener *)


(** The fuel that [toString16] gives [hexDigits] is enough: more fuel
    yields the same digits. *)
Lemma hexDigits_fuel (fuel fuel' : nat) (n : Z) :
  0 ≤ n → n < Z.of_nat fuel → n < Z.of_nat fuel' →
  hexDigits fuel n = hexDigits fuel' n.
Proof.
  revert fuel' n. induction fuel as [|fuel IH]; intros fuel' n Hn Hfuel Hfuel';
    [lia|].
  destruct fuel' as [|fuel']; [lia|]. cbn [hexDigits].
  case_decide as Hsmall; [done|].
  assert (n / 16 < n) by (apply Z.div_lt; lia).
  assert (0 ≤ n / 16) by (apply Z.div_pos; lia).
  rewrite (IH fuel' (n / 16)) by lia. done.
Qed.







(** ** Saturation *)









(** ** What a tick leaves alone *)

Lemma resetColored_bystanders host timestamp view st rng flow :
  resetColored host timestamp view st rng = Some flow →
  ∃ tick,
    flow = Returned tick
    ∧ settings (pending (state tick)) = settings (pending st)
    ∧ grid (pending (state tick)) = grid (pending st)
    ∧ targetGrid (pending (state tick)) = targetGrid (pending st).
Proof.
  unfold resetColored. destruct (calculateGridDimensions _ _); [|done].
  cbn [mbind option_bind]. destruct (createRandomColoredGrid _ _ _ _).
  intros [= <-]. by eexists.
Qed.

Lemma resetPlain_bystanders host timestamp view st rng flow :
  resetPlain host timestamp view st rng = Some flow →
  ∃ tick,
    flow = Returned tick
    ∧ settings (pending (state tick)) = settings (pending st)
    ∧ coloredGrid (pending (state tick)) = coloredGrid (pending st)
    ∧ targetColoredGrid (pending (state tick))
      = targetColoredGrid (pending st).
Proof.
  unfold resetPlain. destruct (calculateGridDimensions _ _); [|done].
  cbn [mbind option_bind]. destruct (createRandomGrid _ _ _ _).
  intros [= <-]. by eexists.
Qed.

Lemma advanceColored_bystanders host timestamp view st rng flow :
  advanceColored host timestamp view st rng = Some flow →
  let st' := match flow with
             | Returned tick => state tick
             | Continues st' _ => st'
             end in
  settings (pending st') = settings (pending st)
  ∧ grid (pending st') = grid (pending st)
  ∧ targetGrid (pending st') = targetGrid (pending st).
Proof.
  unfold advanceColored.
  destruct (nextGenerationColored _ _ _) as [[next rng1]|]; [|done].
  cbn [mbind option_bind].
  destruct (isSimulationStuck _ _ _) as [[] history];
    [|by intros [= <-]].
  assert (∀ st1 rng2,
    pending st1 = pending st →
    resetColored host timestamp view st1 rng2 = Some flow →
    let st' := match flow with
               | Returned tick => state tick
               | Continues st' _ => st'
               end in
    settings (pending st') = settings (pending st)
    ∧ grid (pending st') = grid (pending st)
    ∧ targetGrid (pending st') = targetGrid (pending st)) as Hreset.
  { intros st1 rng2 Hsame (tick & -> & Hkept)%resetColored_bystanders.
    cbn zeta. by rewrite <- Hsame. }
  destruct (hard_reset_on_stuck _); [by apply Hreset|].
  destruct (negb (existsb _ _)); [by apply Hreset|].
  destruct (negb (try_revive_stuck_sim _)); [by intros [= <-]|].
  case_decide; [by apply Hreset|].
  destruct (coloredGrid view !! 0%nat); [|done]. cbn [mbind option_bind].
  case_decide; [by apply Hreset|].
  destruct (flipRandomCellsColored _ _ _) as [[flipped rng2]|]; [|done].
  by intros [= <-].
Qed.

Lemma advancePlain_bystanders host timestamp view st rng flow :
  advancePlain host timestamp view st rng = Some flow →
  let st' := match flow with
             | Returned tick => state tick
             | Continues st' _ => st'
             end in
  settings (pending st') = settings (pending st)
  ∧ coloredGrid (pending st') = coloredGrid (pending st)
  ∧ targetColoredGrid (pending st') = targetColoredGrid (pending st).
Proof.
  unfold advancePlain.
  destruct (nextGeneration _ _) as [next|]; [|done].
  cbn [mbind option_bind].
  destruct (isSimulationStuck _ _ _) as [[] history];
    [|by intros [= <-]].
  assert (∀ st1 rng2,
    pending st1 = pending st →
    resetPlain host timestamp view st1 rng2 = Some flow →
    let st' := match flow with
               | Returned tick => state tick
               | Continues st' _ => st'
               end in
    settings (pending st') = settings (pending st)
    ∧ coloredGrid (pending st') = coloredGrid (pending st)
    ∧ targetColoredGrid (pending st') = targetColoredGrid (pending st))
    as Hreset.
  { intros st1 rng2 Hsame (tick & -> & Hkept)%resetPlain_bystanders.
    cbn zeta. by rewrite <- Hsame. }
  destruct (hard_reset_on_stuck _); [by apply Hreset|].
  destruct (negb (existsb _ _)); [by apply Hreset|].
  destruct (negb (try_revive_stuck_sim _)); [by intros [= <-]|].
  case_decide; [by apply Hreset|].
  destruct (grid view !! 0%nat); [|done]. cbn [mbind option_bind].
  case_decide; [by apply Hreset|].
  destruct (flipRandomCells _ _ _) as [[flipped rng2]|]; [|done].
  by intros [= <-].
Qed.

Lemma settle_bystanders timestamp view st rng st' rng' :
  settle timestamp view st rng = Some (st', rng') →
  settings (pending st') = settings (pending st)
  ∧ if color_mode (settings view)
    then grid (pending st') = grid (pending st)
         ∧ targetGrid (pending st') = targetGrid (pending st)
    else coloredGrid (pending st') = coloredGrid (pending st)
         ∧ targetColoredGrid (pending st') = targetColoredGrid (pending st).
Proof.
  unfold settle. destruct (_ && _).
  - cbn [mbind option_bind]. intros [= <- _].
    by destruct (color_mode (settings view)).
  - destruct (color_mode (settings view)).
    + destruct (if decide _ then _ else _) as [[committed rng1]|]; [|done].
      cbn [mbind option_bind]. by intros [= <- _].
    + destruct (if decide _ then _ else _) as [committed|]; [|done].
      cbn [mbind option_bind]. by intros [= <- _].
Qed.

Lemma paint_bystanders parseInt canvas timestamp view st st' cmds :
  paint parseInt canvas timestamp view st = Some (st', cmds) →
  settings (pending st') = settings (pending st)
  ∧ if color_mode (settings view)
    then grid (pending st') = grid (pending st)
         ∧ targetGrid (pending st') = targetGrid (pending st)
    else coloredGrid (pending st') = coloredGrid (pending st)
         ∧ targetColoredGrid (pending st') = targetColoredGrid (pending st).
Proof.
  unfold paint. destruct (isFading view), (color_mode (settings view));
    (destruct (renderGrid _ _ _ _ _ _ _); [|done]);
    cbn [mbind option_bind]; try case_decide; by intros [= <- _].
Qed.

(** X23.  A tick never changes the settings, and never touches the grid
    and the target of the mode that is off: in colour mode the standard
    grids are as they were, and in standard mode the coloured ones. *)
Theorem gameLoop_bystanders (parseInt : string → Z → option Z) (host : Host)
    (timestamp : Qc) (st : AppState) (rng : Rng) (tick : Tick) :
  gameLoop parseInt host timestamp st rng = Some tick →
  bystanders (pending (state tick)) = bystanders (pending st).
Proof.
  assert (∀ st',
    settings (pending st') = settings (pending st) →
    (if color_mode (settings (pending st))
     then grid (pending st') = grid (pending st)
          ∧ targetGrid (pending st') = targetGrid (pending st)
     else coloredGrid (pending st') = coloredGrid (pending st)
          ∧ targetColoredGrid (pending st') = targetColoredGrid (pending st)) →
    bystanders (pending st') = bystanders (pending st)) as Hsame.
  { intros st' Hsettings Hgrids. unfold bystanders. rewrite Hsettings.
    destruct (color_mode (settings (pending st)));
      by destruct Hgrids as [-> ->]. }
  unfold gameLoop.
  destruct (wallpaperPaused _); [by intros [= <-]|].
  destruct (canvasRef host) as [canvas|]; [|by intros [= <-]].
  destruct (if color_mode _ then _ else _); [by intros [= <-]|].
  destruct (negb (context2d canvas)); [by intros [= <-]|].
  destruct (negb (isFading (pending st)) && _).
  - destruct (color_mode (settings (pending st))) eqn:Hmode.
    + destruct (advanceColored _ _ _ _ _) as [flow|] eqn:Hadvance; [|done].
      apply advanceColored_bystanders in Hadvance.
      cbn [mbind option_bind].
      destruct flow as [tick'|st1 rng1]; cbn [mbind option_bind].
      { intros [= <-]. apply Hsame; [apply Hadvance|].
        apply Hadvance. }
      destruct (settle _ _ _ _) as [[st2 rng2]|] eqn:Hsettle; [|done].
      apply settle_bystanders in Hsettle. rewrite Hmode in Hsettle.
      cbn [mbind option_bind].
      destruct (paint _ _ _ _ _) as [[st3 cmds]|] eqn:Hpaint; [|done].
      apply paint_bystanders in Hpaint. rewrite Hmode in Hpaint.
      cbn [mbind option_bind]. intros [= <-]. cbn [state].
      cbn zeta in Hadvance.
      destruct Hadvance as (? & ? & ?), Hsettle as (? & ? & ?),
        Hpaint as (? & ? & ?).
      apply Hsame; [congruence|]. split; congruence.
    + destruct (advancePlain _ _ _ _ _) as [flow|] eqn:Hadvance; [|done].
      apply advancePlain_bystanders in Hadvance.
      cbn [mbind option_bind].
      destruct flow as [tick'|st1 rng1]; cbn [mbind option_bind].
      { intros [= <-]. apply Hsame; [apply Hadvance|].
        apply Hadvance. }
      destruct (settle _ _ _ _) as [[st2 rng2]|] eqn:Hsettle; [|done].
      apply settle_bystanders in Hsettle. rewrite Hmode in Hsettle.
      cbn [mbind option_bind].
      destruct (paint _ _ _ _ _) as [[st3 cmds]|] eqn:Hpaint; [|done].
      apply paint_bystanders in Hpaint. rewrite Hmode in Hpaint.
      cbn [mbind option_bind]. intros [= <-]. cbn [state].
      cbn zeta in Hadvance.
      destruct Hadvance as (? & ? & ?), Hsettle as (? & ? & ?),
        Hpaint as (? & ? & ?).
      apply Hsame; [congruence|]. split; congruence.
  - cbn [mbind option_bind].
    destruct (paint _ _ _ _ _) as [[st3 cmds]|] eqn:Hpaint; [|done].
    apply paint_bystanders in Hpaint.
    cbn [mbind option_bind]. intros [= <-]. cbn [state].
    apply Hsame; apply Hpaint.
Qed.

Lemma gameLoop_bystanders_witness :
  let st := sampleState block [] 0 0 in
  ∃ tick,
    gameLoop sampleParseInt sampleHost (Qc_of_Z 2000) st sampleRng = Some tick
    ∧ bystanders (pending (state tick)) = bystanders (pending st).
Proof.
  intros st.
  destruct (gameLoop sampleParseInt sampleHost (Qc_of_Z 2000) st sampleRng)
    as [tick|] eqn:Hrun; [|by vm_compute in Hrun].
  exists tick. split; [done|].
  exact (gameLoop_bystanders sampleParseInt sampleHost (Qc_of_Z 2000) st
           sampleRng tick Hrun).
Defined.

(** ** The two modes evolve the same pattern *)

Lemma cellAt_map {A B} (f : A → B) (grid : list (list A)) x y :
  cellAt (map (map f) grid) x y = f <$> cellAt grid x y.
Proof.
  unfold cellAt. rewrite list_lookup_fmap.
  destruct (grid !! x) as [row|]; [|done]. cbn.
  by rewrite list_lookup_fmap.
Qed.

Lemma grid_ext {A} (g1 g2 : list (list A)) h w :
  shape g1 h w → shape g2 h w →
  (∀ x y, (x < h)%nat → (y < w)%nat → cellAt g1 x y = cellAt g2 x y) →
  g1 = g2.
Proof.
  intros Hs1 Hs2 Hcells. apply list_eq. intros x.
  destruct (decide (x < h)%nat) as [Hx|Hx].
  - destruct (shape_lookup g1 h w x Hs1 Hx) as (row1 & Hrow1 & Hlen1).
    destruct (shape_lookup g2 h w x Hs2 Hx) as (row2 & Hrow2 & Hlen2).
    rewrite Hrow1, Hrow2. f_equal. apply list_eq. intros y.
    destruct (decide (y < w)%nat) as [Hy|Hy].
    + specialize (Hcells x y Hx Hy). unfold cellAt in Hcells.
      by rewrite Hrow1, Hrow2 in Hcells.
    + by rewrite !lookup_ge_None_2 by lia.
  - destruct Hs1 as [Hh1 _], Hs2 as [Hh2 _].
    by rewrite !lookup_ge_None_2 by lia.
Qed.

Lemma aliveAt_map (grid : ColoredGridState) (x y : Z) :
  plainAliveAt (map (map alive) grid) x y = coloredAliveAt grid x y.
Proof.
  unfold plainAliveAt, coloredAliveAt, cellAtZ. case_decide; [|done].
  rewrite cellAt_map. by destruct (cellAt grid _ _).
Qed.

(** X24.  On a rectangular grid that satisfies the cell invariant the
    colour mode evolves the same pattern as the standard mode: the [alive]
    fields of [nextGenerationColored] are the grid that [nextGeneration]
    returns for the [alive] fields of the input, whatever the draws, so both
    modes hand the stuck detector the same fingerprint. *)
Theorem modes_agree (settings : GameSettings) (grid : ColoredGridState)
    (h w : nat) (rng : Rng) :
  shape grid h w → (0 < h)%nat → (0 < w)%nat → gridInvariant grid →
  ∃ colored rng' plain,
    nextGenerationColored settings grid rng = Some (colored, rng')
    ∧ nextGeneration settings (map (map alive) grid) = Some plain
    ∧ map (map alive) colored = plain
    ∧ coloredGridToString colored = gridToString plain.
Proof.
  intros Hs Hh Hw Hinv.
  destruct (nextGenerationColored_spec settings grid h w rng Hs Hh Hw)
    as (colored & rng' & Hcolored & Hs1 & _ & Hcells1).
  destruct (nextGeneration_spec settings (map (map alive) grid) h w)
    as (plain & Hplain & Hs2 & Hcells2); [by apply shape_map|done..|].
  assert (map (map alive) colored = plain) as Hsame.
  { apply (grid_ext _ _ h w); [by apply shape_map|done|].
    intros x y Hx Hy. rewrite cellAt_map, Hcells2 by done.
    destruct (Hcells1 x y Hx Hy) as (cell & -> & old & Hold & Halive & _).
    cbn. rewrite Halive. f_equal. rewrite aliveAt_map.
    unfold coloredAliveAt at 1. rewrite cellAtZ_nat, Hold. cbn. f_equal.
    transitivity (liveNeighbors (edge_wrapping settings) (coloredAliveAt grid)
                    (Z.of_nat h) (Z.of_nat w) (Z.of_nat x) (Z.of_nat y)).
    - apply liveNeighbors_ext. by apply countedAt_alive.
    - apply liveNeighbors_ext. intros a b. by rewrite aliveAt_map. }
  exists colored, rng', plain. split_and!; try done.
  by rewrite coloredGridToString_bits, gridToString_bits, Hsame.
Qed.

Lemma modes_agree_witness :
  shape coloredBlock 4 4 ∧ gridInvariant coloredBlock
  ∧ ∃ colored rng',
      nextGenerationColored (sampleSettings true true) coloredBlock sampleRng
        = Some (colored, rng')
      ∧ nextGeneration (sampleSettings true true) (map (map alive) coloredBlock)
        = Some (map (map alive) colored).
Proof.
  split; [apply sample_shape|]. split; [apply sample_invariant|].
  destruct (modes_agree (sampleSettings true true) coloredBlock 4 4 sampleRng)
    as (colored & rng' & plain & Hcolored & Hplain & Hsame & _);
    [apply sample_shape|lia|lia|apply sample_invariant|].
  exists colored, rng'. split; [exact Hcolored|]. by rewrite Hsame.
Defined.
